(** * slop-ocr: the wire protocol, the capture worker, the bridge and the overlay

    A shallow embedding of the core pieces of the repository:

    - [Overlay]: [src/renderer/overlay/overlay.ts], the layout of recognised
      text over the overlay surface;
    - [JSON], [Worker]: [swift/Sources/OCRCli/main.swift], the capture worker
      and the line-delimited JSON it reads;
    - [Bridge]: [src/main/ocr-bridge.ts], the coordinator side of the protocol;
    - [Window], [Main]: [src/main/window-manager.ts] and the shortcut
      handlers of [src/main/index.ts], which bring the results of the bridge
      to the overlay window.

    JavaScript numbers and Swift [Double]s are modelled as real numbers: the
    arithmetic is the one the code writes down, without IEEE rounding, NaN or
    infinities. *)

From Stdlib Require Import Reals Lra Lia List String Ascii Bool Arith ZArith.
From Stdlib Require Import DecimalString Permutation.
Import ListNotations.

Set Warnings "-register-all".
Set Warnings "-notation-overridden".
Set Warnings "-ambiguous-paths".


(* ================================================================== *)
(** * The overlay renderer ([overlay.ts]) *)
(* ================================================================== *)

Module Overlay.

Local Open Scope string_scope.
Local Open Scope R_scope.

(** [{ x: number; y: number }] *)
Record Point := mkPoint { pt_x : R; pt_y : R }.

(** [{ x: number; y: number; width: number; height: number }] *)
Record Box := mkBox { box_x : R; box_y : R; box_width : R; box_height : R }.

(** [interface TextObservation] *)
Record TextObservation := mkObs {
  text : string;
  confidence : R;
  boundingBox : Box;
  topLeft : Point;
  topRight : Point;
  bottomRight : Point;
  bottomLeft : Point
}.

(** [interface OCRData] *)
Record OCRData := mkOCRData {
  imageWidth : R;
  imageHeight : R;
  observations : list TextObservation
}.

(** An [HTMLSpanElement] as the renderer uses it: the class, the text and
    the inline style properties the code assigns.  A style property that was
    never assigned is [None]; lengths are kept as numbers of pixels and the
    rotation as a number of degrees (the code formats them as
    [`${v}px`] and [`rotate(${v}deg)`]). *)
Record Span := mkSpan {
  className : string;
  textContent : string;
  style_left : option R;
  style_top : option R;
  style_width : option R;
  style_height : option R;
  style_transformOrigin : option string;
  style_transform : option R;
  style_fontSize : option R
}.

Definition set_fontSize (v : R) (s : Span) : Span :=
  mkSpan (className s) (textContent s) (style_left s) (style_top s)
         (style_width s) (style_height s) (style_transformOrigin s)
         (style_transform s) (Some v).

Definition set_rotation (deg : R) (s : Span) : Span :=
  mkSpan (className s) (textContent s) (style_left s) (style_top s)
         (style_width s) (style_height s) (Some "left top")
         (Some deg) (style_fontSize s).

(** The page: the children of [#ocr-container] in document order, and the
    lines written with [console.log] by [renderOCRResults]. *)
Record Page := mkPage {
  container : list Span;
  console : list string
}.

(** [Math.atan2(y, x)] on real numbers: the angle of the point [(x, y)],
    in [(-PI, PI]]. *)
Definition Math_atan2 (y x : R) : R :=
  if Rlt_dec 0 x then atan (y / x)
  else if Rlt_dec x 0 then
    (if Rle_dec 0 y then atan (y / x) + PI else atan (y / x) - PI)
  else if Rlt_dec 0 y then PI / 2
  else if Rlt_dec y 0 then - (PI / 2)
  else 0.

Definition Math_abs (x : R) : R := Rabs x.
Definition Math_max (a b : R) : R := Rmax a b.

(** [function calculateRotation(obs)] *)
Definition calculateRotation (obs : TextObservation) : R :=
  let dx := pt_x (topRight obs) - pt_x (topLeft obs) in
  let dy := pt_y (topRight obs) - pt_y (topLeft obs) in
  Math_atan2 (- dy) dx * (180 / PI).

Definition MIN_FONT_SIZE : R := 8.

(** The decimal digits of a natural number, as a template literal prints
    [data.observations.length]. *)
Definition string_of_nat (n : nat) : string :=
  NilEmpty.string_of_uint (Nat.to_uint n).

Section Renderer.

(** The layout engine: [span.scrollWidth], the width the browser measures
    for the text of a span with the style it has at that moment. *)
Variable scrollWidth : Span -> R.

(** [function fitTextToWidth(span, targetWidth, maxFontSize)] *)
Definition fitTextToWidth (span : Span) (targetWidth maxFontSize : R) : Span :=
  let span := set_fontSize maxFontSize span in
  let measuredWidth := scrollWidth span in
  if Rle_dec measuredWidth targetWidth then span
  else
    let scaledSize := maxFontSize * (targetWidth / measuredWidth) in
    let finalSize := Math_max scaledSize MIN_FONT_SIZE in
    set_fontSize finalSize span.

(** The body of the [for (const obs of data.observations)] loop of
    [renderOCRResults]: [None] is the [continue] of a box taken for noise,
    [Some span] the span appended to the container. *)
Definition renderObservation (overlayWidth overlayHeight : R)
    (obs : TextObservation) : option Span :=
  let bb := boundingBox obs in
  let baseX := box_x bb * overlayWidth in
  let baseY := (1 - box_y bb - box_height bb) * overlayHeight in
  let baseWidth := box_width bb * overlayWidth in
  let baseHeight := box_height bb * overlayHeight in
  if Rlt_dec baseWidth 10 then None
  else if Rlt_dec baseHeight 8 then None
  else
    let x := baseX - 1 in
    let y := baseY - 1 in
    let width := baseWidth + 2 in
    let height := baseHeight + 2 in
    (* document.createElement('span'), its class and text; then, after
       the rotation is calculated, its left, top, width and height *)
    let rotation := calculateRotation obs in
    let span :=
      mkSpan "ocr-text" (text obs) (Some x) (Some y) (Some width) (Some height)
             None None None in
    let span :=
      if Rgt_dec (Math_abs rotation) (5 / 10) then set_rotation rotation span
      else span in
    Some (fitTextToWidth span width height).

Fixpoint renderLoop (overlayWidth overlayHeight : R)
    (obss : list TextObservation) (children : list Span) : list Span :=
  match obss with
  | [] => children
  | obs :: rest =>
      match renderObservation overlayWidth overlayHeight obs with
      | None => renderLoop overlayWidth overlayHeight rest children
      | Some span =>
          renderLoop overlayWidth overlayHeight rest (children ++ [span])
      end
  end.

(** [function clearOverlay()] *)
Definition clearOverlay (p : Page) : Page := mkPage [] (console p).

(** [function renderOCRResults(data)]; [overlayWidth] and [overlayHeight]
    are [container.clientWidth] and [container.clientHeight]. *)
Definition renderOCRResults (overlayWidth overlayHeight : R)
    (data : OCRData) (p : Page) : Page :=
  let p := clearOverlay p in
  let children :=
    renderLoop overlayWidth overlayHeight (observations data) (container p) in
  mkPage children
    (console p ++
       ["Rendered " ++ string_of_nat (List.length (observations data))
                    ++ " text regions"]).

End Renderer.

(** ** The loading indicator and the error message *)

(** Whether [#loading-indicator] and [#error-message] have the class
    [hidden], the text of the error message, and the times, in
    milliseconds, at which the callbacks that [showError] has set with
    [setTimeout] are due. *)
Record Indicators := mkIndicators {
  loading_hidden : bool;
  error_hidden : bool;
  error_text : string;
  hide_due : list N
}.

(** [function showLoading(show)] *)
Definition showLoading (show : bool) (i : Indicators) : Indicators :=
  if show then mkIndicators false true (error_text i) (hide_due i)
  else mkIndicators true (error_hidden i) (error_text i) (hide_due i).

(** [function showError(message)], called at the time [now]. *)
Definition showError (now : N) (message : string) (i : Indicators)
  : Indicators :=
  mkIndicators true false message (hide_due i ++ [(now + 5000)%N]).

(** The timers phase of the event loop at the time [now]: every callback
    of [showError] that is due hides the error message, and is gone. *)
Definition run_hide_timers (now : N) (i : Indicators) : Indicators :=
  if existsb (fun due => (due <=? now)%N) (hide_due i) then
    mkIndicators (loading_hidden i) true (error_text i)
                 (filter (fun due => negb (due <=? now)%N) (hide_due i))
  else i.

(** At most one of the loading indicator and the error message is
    visible. *)
Definition one_at_most (i : Indicators) : Prop :=
  loading_hidden i = true \/ error_hidden i = true.

(** What reaches the overlay page from the main process, through the
    preload script. *)
Inductive Message : Type :=
| ocr_results (data : OCRData)
| ocr_loading (isLoading : bool)
| ocr_error (message : string).

(** The page as a whole. *)
Record Document := mkDocument {
  page : Page;
  indicators : Indicators
}.

Section Listeners.

Variable scrollWidth : Span -> R.

(** The three listeners that the script registers with [ocrOverlay], for
    a message that arrives at the time [now], the container being
    [overlayWidth] by [overlayHeight] pixels; the timers that are due run
    first.  The lines the listeners themselves write with [console.log]
    are left out of the console of the page. *)
Definition receive (overlayWidth overlayHeight : R) (now : N)
    (m : Message) (d : Document) : Document :=
  let i := run_hide_timers now (indicators d) in
  match m with
  | ocr_results data =>
      mkDocument
        (renderOCRResults scrollWidth overlayWidth overlayHeight data (page d))
        (showLoading false i)
  | ocr_loading isLoading => mkDocument (page d) (showLoading isLoading i)
  | ocr_error message => mkDocument (page d) (showError now message i)
  end.

(** A series of messages, each with the time at which it arrives. *)
Definition receive_all (overlayWidth overlayHeight : R)
    (messages : list (N * Message)) (d : Document) : Document :=
  fold_left (fun d m => receive overlayWidth overlayHeight (fst m) (snd m) d)
            messages d.

End Listeners.

End Overlay.

(* ================================================================== *)
(** * JSON text, as the two ends of the pipe write and read it *)
(* ================================================================== *)

(** Texts are strings of bytes: the UTF-8 encoding of what travels over
    the pipe.  [stringify] is ECMAScript's [JSON.stringify] (no indent) and
    [parse] the reading of one JSON text (RFC 8259), which is what
    [JSON.parse] and Foundation's [JSONDecoder] do before the typed decoding;
    both are library code the repository calls.  Text is taken to be
    well-formed Unicode, so that [stringify] never meets a lone surrogate. *)

Module JSON.

Local Open Scope string_scope.

Inductive value : Type :=
| Null
| Bool (b : bool)
| Number (literal : string)
| Str (s : string)
| Array (elements : list value)
| Object (members : list (string * value)).

(** The quotation mark and the reverse solidus. *)
Definition dq : ascii := "034"%char.
Definition bs : ascii := "092"%char.

(** ** Writing *)

Definition hex_digit (n : nat) : ascii :=
  match n with
  | 0 => "0" | 1 => "1" | 2 => "2" | 3 => "3" | 4 => "4" | 5 => "5"
  | 6 => "6" | 7 => "7" | 8 => "8" | 9 => "9" | 10 => "a" | 11 => "b"
  | 12 => "c" | 13 => "d" | 14 => "e" | _ => "f"
  end%char.

(** One character of [QuoteJSONString]: the short escapes, [\u00xx] for the
    other control characters, everything else as it is. *)
Definition escape_char (c : ascii) : string :=
  if Ascii.eqb c "008" then String bs "b"
  else if Ascii.eqb c "009" then String bs "t"
  else if Ascii.eqb c "010" then String bs "n"
  else if Ascii.eqb c "012" then String bs "f"
  else if Ascii.eqb c "013" then String bs "r"
  else if Ascii.eqb c dq then String bs (String dq EmptyString)
  else if Ascii.eqb c bs then String bs (String bs EmptyString)
  else if (nat_of_ascii c <? 32)%nat then
    String bs ("u00" ++ String (hex_digit (nat_of_ascii c / 16))
                         (String (hex_digit (nat_of_ascii c mod 16))
                                 EmptyString))
  else String c EmptyString.

Fixpoint escape (s : string) : string :=
  match s with
  | EmptyString => EmptyString
  | String c rest => escape_char c ++ escape rest
  end.

Definition quote (s : string) : string :=
  String dq (escape s ++ String dq EmptyString).

Fixpoint join (sep : string) (parts : list string) : string :=
  match parts with
  | [] => EmptyString
  | [p] => p
  | p :: rest => p ++ sep ++ join sep rest
  end.

Fixpoint stringify (v : value) : string :=
  match v with
  | Null => "null"
  | Bool true => "true"
  | Bool false => "false"
  | Number literal => literal
  | Str s => quote s
  | Array elements => "[" ++ join "," (map stringify elements) ++ "]"
  | Object members =>
      "{" ++ join "," (map (fun kv => quote (fst kv) ++ ":" ++ stringify (snd kv))
                           members) ++ "}"
  end.

(** Whether a character occurs in a text. *)
Fixpoint mentions (a : ascii) (s : string) : bool :=
  match s with
  | EmptyString => false
  | String c rest => Ascii.eqb c a || mentions a rest
  end.

(** Values without numbers: what the bridge writes holds strings only. *)
Fixpoint number_free (v : value) : bool :=
  match v with
  | Number _ => false
  | Array elements => forallb number_free elements
  | Object members => forallb (fun kv => number_free (snd kv)) members
  | _ => true
  end.

(** ** Reading *)

Definition is_ws (c : ascii) : bool :=
  Ascii.eqb c " " || Ascii.eqb c "009" || Ascii.eqb c "010"
  || Ascii.eqb c "013".

Fixpoint skip_ws (s : string) : string :=
  match s with
  | String c rest => if is_ws c then skip_ws rest else s
  | EmptyString => EmptyString
  end.

Definition hex_value (c : ascii) : option N :=
  let n := N_of_ascii c in
  (if (48 <=? n) && (n <=? 57) then Some (n - 48)
   else if (97 <=? n) && (n <=? 102) then Some (n - 87)
   else if (65 <=? n) && (n <=? 70) then Some (n - 55)
   else None)%N.

Definition hex4 (h1 h2 h3 h4 : ascii) : option N :=
  match hex_value h1, hex_value h2, hex_value h3, hex_value h4 with
  | Some a, Some b, Some c, Some d => Some (((a * 16 + b) * 16 + c) * 16 + d)
  | _, _, _, _ => None
  end%N.

(** What a string literal holds between its quotes: bytes written as they
    are (or by a short escape) and UTF-16 code units written [\uXXXX]. *)
Inductive item : Type :=
| Raw (a : ascii)
| Unit16 (u : N).

Definition unescape (e : ascii) : option ascii :=
  if Ascii.eqb e dq then Some dq
  else if Ascii.eqb e bs then Some bs
  else if Ascii.eqb e "/" then Some "/"%char
  else if Ascii.eqb e "b" then Some "008"%char
  else if Ascii.eqb e "f" then Some "012"%char
  else if Ascii.eqb e "n" then Some "010"%char
  else if Ascii.eqb e "r" then Some "013"%char
  else if Ascii.eqb e "t" then Some "009"%char
  else None.

Definition cons_item (i : item) (r : option (list item * string))
  : option (list item * string) :=
  match r with
  | Some (items, rest) => Some (i :: items, rest)
  | None => None
  end.

(** The characters of a string literal after its opening quote, up to and
    including the closing quote. *)
Fixpoint scan_string (s : string) : option (list item * string) :=
  match s with
  | EmptyString => None
  | String c rest =>
      if Ascii.eqb c dq then Some ([], rest)
      else if Ascii.eqb c bs then
        match rest with
        | EmptyString => None
        | String e rest1 =>
            if Ascii.eqb e "u" then
              match rest1 with
              | String h1 (String h2 (String h3 (String h4 rest2))) =>
                  match hex4 h1 h2 h3 h4 with
                  | Some u => cons_item (Unit16 u) (scan_string rest2)
                  | None => None
                  end
              | _ => None
              end
            else
              match unescape e with
              | Some a => cons_item (Raw a) (scan_string rest1)
              | None => None
              end
        end
      else if (nat_of_ascii c <? 32)%nat then None
      else cons_item (Raw c) (scan_string rest)
  end.

Definition is_high_surrogate (u : N) : bool := ((55296 <=? u) && (u <=? 56319))%N.
Definition is_low_surrogate (u : N) : bool := ((56320 <=? u) && (u <=? 57343))%N.

(** The UTF-8 bytes of a code point. *)
Definition utf8_encode (cp : N) : string :=
  (if cp <? 128 then String (ascii_of_N cp) EmptyString
   else if cp <? 2048 then
     String (ascii_of_N (192 + cp / 64))
       (String (ascii_of_N (128 + cp mod 64)) EmptyString)
   else if cp <? 65536 then
     String (ascii_of_N (224 + cp / 4096))
       (String (ascii_of_N (128 + (cp / 64) mod 64))
          (String (ascii_of_N (128 + cp mod 64)) EmptyString))
   else
     String (ascii_of_N (240 + cp / 262144))
       (String (ascii_of_N (128 + (cp / 4096) mod 64))
          (String (ascii_of_N (128 + (cp / 64) mod 64))
             (String (ascii_of_N (128 + cp mod 64)) EmptyString))))%N.

Definition prepend (p : string) (r : option string) : option string :=
  match r with
  | Some s => Some (p ++ s)
  | None => None
  end.

(** The bytes of the string a literal denotes; a surrogate that is not
    half of a pair has no encoding and the literal is refused. *)
Fixpoint utf8_of_items (l : list item) : option string :=
  match l with
  | [] => Some EmptyString
  | Raw a :: rest => prepend (String a EmptyString) (utf8_of_items rest)
  | Unit16 u :: rest =>
      if is_high_surrogate u then
        match rest with
        | Unit16 lo :: rest' =>
            if is_low_surrogate lo then
              prepend
                (utf8_encode (65536 + (u - 55296) * 1024 + (lo - 56320))%N)
                (utf8_of_items rest')
            else None
        | _ => None
        end
      else if is_low_surrogate u then None
      else prepend (utf8_encode u) (utf8_of_items rest)
  end.

Definition parse_string_body (s : string) : option (string * string) :=
  match scan_string s with
  | Some (items, rest) =>
      match utf8_of_items items with
      | Some str => Some (str, rest)
      | None => None
      end
  | None => None
  end.

(** Numbers: the longest run of number characters, which must follow the
    grammar of RFC 8259: an optional minus sign; a zero, or a digit from one
    to nine and any digits; optionally a point and one digit or more;
    optionally an exponent mark, a sign and one digit or more. *)
Definition is_digit (c : ascii) : bool :=
  let n := nat_of_ascii c in ((48 <=? n) && (n <=? 57))%nat.

Definition is_number_char (c : ascii) : bool :=
  is_digit c || Ascii.eqb c "-" || Ascii.eqb c "+" || Ascii.eqb c "."
  || Ascii.eqb c "e" || Ascii.eqb c "E".

Fixpoint span_number (s : string) : string * string :=
  match s with
  | String c rest =>
      if is_number_char c then
        let (lit, r) := span_number rest in (String c lit, r)
      else (EmptyString, s)
  | EmptyString => (EmptyString, EmptyString)
  end.

Inductive number_state : Type :=
| NStart | NMinus | NZero | NInt | NDot | NFrac | NExp | NExpSign | NExpDigits.

Definition number_step (st : number_state) (c : ascii) : option number_state :=
  let sign := Ascii.eqb c "+" || Ascii.eqb c "-" in
  let e := Ascii.eqb c "e" || Ascii.eqb c "E" in
  match st with
  | NStart =>
      if Ascii.eqb c "-" then Some NMinus
      else if Ascii.eqb c "0" then Some NZero
      else if is_digit c then Some NInt else None
  | NMinus =>
      if Ascii.eqb c "0" then Some NZero
      else if is_digit c then Some NInt else None
  | NZero =>
      if Ascii.eqb c "." then Some NDot else if e then Some NExp else None
  | NInt =>
      if is_digit c then Some NInt
      else if Ascii.eqb c "." then Some NDot
      else if e then Some NExp else None
  | NDot => if is_digit c then Some NFrac else None
  | NFrac =>
      if is_digit c then Some NFrac else if e then Some NExp else None
  | NExp =>
      if sign then Some NExpSign
      else if is_digit c then Some NExpDigits else None
  | NExpSign => if is_digit c then Some NExpDigits else None
  | NExpDigits => if is_digit c then Some NExpDigits else None
  end.

Fixpoint number_run (st : number_state) (s : string) : bool :=
  match s with
  | EmptyString =>
      match st with
      | NZero | NInt | NFrac | NExpDigits => true
      | _ => false
      end
  | String c rest =>
      match number_step st c with
      | Some st' => number_run st' rest
      | None => false
      end
  end.

Definition scan_number (s : string) : option (string * string) :=
  let (lit, rest) := span_number s in
  if number_run NStart lit then Some (lit, rest) else None.

(** [strip p s]: [s] without its prefix [p], when it starts with it. *)
Fixpoint strip (p s : string) : option string :=
  match p, s with
  | EmptyString, _ => Some s
  | String a p', String b s' => if Ascii.eqb a b then strip p' s' else None
  | String _ _, EmptyString => None
  end.

(** One value and what follows it.  [fuel] bounds the number of values,
    elements and members still to be read. *)
Fixpoint parse_value (fuel : nat) (s : string) {struct fuel}
  : option (value * string) :=
  match fuel with
  | O => None
  | S fuel =>
      match skip_ws s with
      | EmptyString => None
      | String c rest =>
          if Ascii.eqb c dq then
            match parse_string_body rest with
            | Some (str, r) => Some (Str str, r)
            | None => None
            end
          else if Ascii.eqb c "[" then
            match strip "]" (skip_ws rest) with
            | Some r => Some (Array [], r)
            | None =>
                match parse_elements fuel rest with
                | Some (vs, r) => Some (Array vs, r)
                | None => None
                end
            end
          else if Ascii.eqb c "{" then
            match strip "}" (skip_ws rest) with
            | Some r => Some (Object [], r)
            | None =>
                match parse_members fuel rest with
                | Some (ms, r) => Some (Object ms, r)
                | None => None
                end
            end
          else if Ascii.eqb c "t" then
            option_map (pair (Bool true)) (strip "rue" rest)
          else if Ascii.eqb c "f" then
            option_map (pair (Bool false)) (strip "alse" rest)
          else if Ascii.eqb c "n" then
            option_map (pair Null) (strip "ull" rest)
          else
            match scan_number (String c rest) with
            | Some (lit, r) => Some (Number lit, r)
            | None => None
            end
      end
  end
with parse_elements (fuel : nat) (s : string) {struct fuel}
  : option (list value * string) :=
  match fuel with
  | O => None
  | S fuel =>
      match parse_value fuel s with
      | None => None
      | Some (v, r) =>
          match skip_ws r with
          | String c r' =>
              if Ascii.eqb c "," then
                match parse_elements fuel r' with
                | Some (vs, r'') => Some (v :: vs, r'')
                | None => None
                end
              else if Ascii.eqb c "]" then Some ([v], r')
              else None
          | EmptyString => None
          end
      end
  end
with parse_members (fuel : nat) (s : string) {struct fuel}
  : option (list (string * value) * string) :=
  match fuel with
  | O => None
  | S fuel =>
      match strip (String dq EmptyString) (skip_ws s) with
      | None => None
      | Some r0 =>
          match parse_string_body r0 with
          | None => None
          | Some (k, r1) =>
              match strip ":" (skip_ws r1) with
              | None => None
              | Some r2 =>
                  match parse_value fuel r2 with
                  | None => None
                  | Some (v, r3) =>
                      match skip_ws r3 with
                      | String c r4 =>
                          if Ascii.eqb c "," then
                            match parse_members fuel r4 with
                            | Some (ms, r5) => Some ((k, v) :: ms, r5)
                            | None => None
                            end
                          else if Ascii.eqb c "}" then Some ([(k, v)], r4)
                          else None
                      | EmptyString => None
                      end
                  end
              end
          end
      end
  end.

(** A whole text: one value, with nothing but white space around it. *)
Definition parse (s : string) : option value :=
  match parse_value (2 * String.length s + 2) s with
  | Some (v, rest) =>
      match skip_ws rest with
      | EmptyString => Some v
      | String _ _ => None
      end
  | None => None
  end.

(** The value of a key of an object: the first member with that key. *)
Fixpoint lookup (key : string) (members : list (string * value))
  : option value :=
  match members with
  | [] => None
  | (k, v) :: rest => if String.eqb k key then Some v else lookup key rest
  end.

End JSON.

(* ================================================================== *)
(** * The capture worker ([swift/Sources/OCRCli/main.swift]) *)
(* ================================================================== *)

Module Worker.

Local Open Scope string_scope.

(** ** JSON protocol models *)

(** [struct Command: Codable] *)
Record Command := mkCommand {
  action : string;
  languages : option (list string);
  saveTo : option string
}.

(** [struct WindowBounds: Codable] *)
Record WindowBounds := mkWindowBounds {
  wb_x : R; wb_y : R; wb_width : R; wb_height : R
}.

(** [struct ReadyData: Codable] *)
Record ReadyData := mkReadyData { version : string }.

(** [struct WindowSelectedData: Codable] *)
Record WindowSelectedData := mkWindowSelectedData {
  windowId : option N;
  appName : option string;
  windowTitle : option string;
  sel_bounds : option WindowBounds
}.

(** [struct NormalizedRect: Codable] and [struct NormalizedPoint: Codable] *)
Record NormalizedRect := mkNormalizedRect {
  nr_x : R; nr_y : R; nr_width : R; nr_height : R
}.
Record NormalizedPoint := mkNormalizedPoint { np_x : R; np_y : R }.

(** [struct TextObservation: Codable] *)
Record TextObservation := mkTextObservation {
  text : string;
  confidence : R;
  boundingBox : NormalizedRect;
  topLeft : NormalizedPoint;
  topRight : NormalizedPoint;
  bottomRight : NormalizedPoint;
  bottomLeft : NormalizedPoint
}.

(** [struct OCRData: Codable] *)
Record OCRData := mkOCRData {
  imageWidth : Z;
  imageHeight : Z;
  observations : list TextObservation;
  ocr_bounds : option WindowBounds
}.

(** [enum ResponseData: Codable] *)
Inductive ResponseData : Type :=
| windowSelected (d : WindowSelectedData)
| ocr (d : OCRData)
| ready (d : ReadyData).

(** [struct Response: Codable] *)
Record Response := mkResponse {
  type : string;
  success : bool;
  data : option ResponseData;
  error : option string
}.

(** [JSONDecoder().decode(Command.self, from: data)]: the text is read as
    JSON and the synthesized [init(from:)] of [Command] takes [action] (a
    string, required), [languages] (an array of strings, if present and not
    null) and [saveTo] (a string, if present and not null) from the keyed
    container; other keys are ignored. *)
Definition decodeString (v : JSON.value) : option string :=
  match v with
  | JSON.Str s => Some s
  | _ => None
  end.

Fixpoint decodeStrings (vs : list JSON.value) : option (list string) :=
  match vs with
  | [] => Some []
  | v :: rest =>
      match decodeString v, decodeStrings rest with
      | Some s, Some ss => Some (s :: ss)
      | _, _ => None
      end
  end.

Definition decodeStringArray (v : JSON.value) : option (list string) :=
  match v with
  | JSON.Array vs => decodeStrings vs
  | _ => None
  end.

(** [decodeIfPresent]: [Some None] is a key that is absent or null,
    [None] a value of the wrong type (the decoder throws). *)
Definition decodeIfPresent {A : Type} (dec : JSON.value -> option A)
    (members : list (string * JSON.value)) (key : string)
  : option (option A) :=
  match JSON.lookup key members with
  | None => Some None
  | Some JSON.Null => Some None
  | Some v =>
      match dec v with
      | Some a => Some (Some a)
      | None => None
      end
  end.

Definition Command_init_from (v : JSON.value) : option Command :=
  match v with
  | JSON.Object members =>
      match JSON.lookup "action" members with
      | Some va =>
          match decodeString va,
                decodeIfPresent decodeStringArray members "languages",
                decodeIfPresent decodeString members "saveTo" with
          | Some a, Some l, Some s => Some (mkCommand a l s)
          | _, _, _ => None
          end
      | None => None
      end
  | _ => None
  end.

Definition decodeCommand (line : string) : option Command :=
  match JSON.parse line with
  | Some v => Command_init_from v
  | None => None
  end.

(** ** The platform *)

(** [CGRect], [CGPoint] *)
Record CGRect := mkCGRect {
  origin_x : R; origin_y : R; size_width : R; size_height : R
}.
Record CGPoint := mkCGPoint { cg_x : R; cg_y : R }.

Definition CGWindowID : Type := N.

(** An [SCContentFilter]: what the code reads of it, and the content the
    picker chose, which is opaque. *)
Record SCContentFilter := mkFilter {
  contentRect : CGRect;
  pointPixelScale : R;
  filter_content : nat
}.

(** The fields of an [SCStreamConfiguration] that depend on the target;
    [scalesToFit = false], [captureResolution = .best] and
    [showsCursor = false] are constants. *)
Record SCStreamConfiguration := mkConfig {
  config_width : Z;
  config_height : Z
}.

(** A [CGImage]: its pixel dimensions and its opaque content. *)
Record CGImage := mkCGImage {
  image_width : Z;
  image_height : Z;
  image_content : nat
}.

(** One dictionary of [CGWindowListCopyWindowInfo]: the entries the code
    casts, each [None] when the key is missing or of another type. *)
Record BoundsDict := mkBoundsDict {
  dict_X : option R;
  dict_Y : option R;
  dict_Width : option R;
  dict_Height : option R
}.
Record WindowInfo := mkWindowInfo {
  kCGWindowBounds : option BoundsDict;
  kCGWindowNumber : option CGWindowID
}.

(** A [VNRecognizedTextObservation]: the first of [topCandidates(1)] (its
    string and its confidence), the box and the corners. *)
Record VNRecognizedTextObservation := mkVNObservation {
  topCandidate : option (string * R);
  vn_boundingBox : CGRect;
  vn_topLeft : CGPoint;
  vn_topRight : CGPoint;
  vn_bottomRight : CGPoint;
  vn_bottomLeft : CGPoint
}.

(** What the operating system answers at one moment.  A throwing call
    returns [inl] with the [localizedDescription] of the error. *)
Record World := mkWorld {
  (** [CGWindowListCopyWindowInfo([.optionOnScreenOnly,
      .excludeDesktopElements], kCGNullWindowID) as? [[String: Any]]] *)
  onScreenWindows : option (list WindowInfo);
  (** [CGWindowListCopyWindowInfo([.optionIncludingWindow], windowID)
      as? [[String: Any]]] *)
  includingWindow : CGWindowID -> option (list WindowInfo);
  (** [NSScreen.main?.backingScaleFactor] *)
  backingScaleFactor : option R;
  (** [SCScreenshotManager.captureImage(contentFilter:configuration:)] *)
  captureImage : SCContentFilter -> SCStreamConfiguration -> string + CGImage;
  (** [handler.perform([request])], then [request.results] *)
  performRequest :
    CGImage -> list string ->
    string + option (list VNRecognizedTextObservation)
}.

(** The invariant of a response: a success carries data and no error, a
    failure an error and no data. *)
Definition exactly_one_of (r : Response) : bool :=
  match success r, data r, error r with
  | true, Some _, None => true
  | false, None, Some _ => true
  | _, _, _ => false
  end.

(** ** Output *)

(** What the worker does to the outside: a line printed on standard
    output, the picker presented, the process terminated. *)
Inductive Effect : Type :=
| Print (r : Response)
| PresentPicker
| Terminate.

(** [func sendResponse(_ response: Response)]: the response goes out as one
    line of JSON. *)
Definition sendResponse (response : Response) : list Effect :=
  [Print response].

(** [func sendError(type:message:)] *)
Definition sendError (type message : string) : list Effect :=
  sendResponse (mkResponse type false None (Some message)).

(** [func sendSuccess(type:data:)] *)
Definition sendSuccess (type : string) (data : ResponseData) : list Effect :=
  sendResponse (mkResponse type true (Some data) None).

(** ** The application delegate *)

(** [class AppDelegate]: its three stored properties. *)
Record AppDelegate := mkAppDelegate {
  currentFilter : option SCContentFilter;
  currentWindowID : option CGWindowID;
  pendingCommand : option Command
}.

(** A [Task] started by [executeScan]: it has captured the filter and the
    command, and runs after the handler that started it has returned. *)
Record ScanTask := mkScanTask {
  task_filter : SCContentFilter;
  task_command : Command
}.

Definition set_pendingCommand (p : option Command) (self : AppDelegate)
  : AppDelegate :=
  mkAppDelegate (currentFilter self) (currentWindowID self) p.

Definition boundsOfRect (rect : CGRect) : WindowBounds :=
  mkWindowBounds (origin_x rect) (origin_y rect)
                 (size_width rect) (size_height rect).

(** The four casts of a bounds dictionary. *)
Definition castBounds (d : BoundsDict) : option (R * R * R * R) :=
  match dict_X d, dict_Y d, dict_Width d, dict_Height d with
  | Some x, Some y, Some w, Some h => Some (x, y, w, h)
  | _, _, _, _ => None
  end.

(** [func getCurrentWindowBounds() -> WindowBounds?] *)
Definition getCurrentWindowBounds (world : World) (self : AppDelegate)
  : option WindowBounds :=
  match currentWindowID self with
  | None => None
  | Some windowID =>
      match includingWindow world windowID with
      | Some (windowInfo :: _) =>
          match kCGWindowBounds windowInfo with
          | Some boundsDict =>
              match castBounds boundsDict with
              | Some (x, y, w, h) => Some (mkWindowBounds x y w h)
              | None => None
              end
          | None => None
          end
      | _ => None
      end
  end.

Definition tolerance : R := 2%R.

Definition within (a b : R) : bool :=
  if Rlt_dec (Rabs (a - b)) tolerance then true else false.

(** The loop of [findWindowID]: the first window whose position and size
    match the rectangle. *)
Fixpoint findWindowID_loop (windowList : list WindowInfo) (rect : CGRect)
  : option CGWindowID :=
  match windowList with
  | [] => None
  | windowInfo :: rest =>
      match kCGWindowBounds windowInfo with
      | Some boundsDict =>
          match castBounds boundsDict, kCGWindowNumber windowInfo with
          | Some (x, y, w, h), Some windowID =>
              if within x (origin_x rect) && within y (origin_y rect)
                 && within w (size_width rect) && within h (size_height rect)
              then Some windowID
              else findWindowID_loop rest rect
          | _, _ => findWindowID_loop rest rect
          end
      | None => findWindowID_loop rest rect
      end
  end.

(** [func findWindowID(matching rect: CGRect) -> CGWindowID?] *)
Definition findWindowID (world : World) (rect : CGRect) : option CGWindowID :=
  match onScreenWindows world with
  | None => None
  | Some windowList => findWindowID_loop windowList rect
  end.

(** [func showPicker()] *)
Definition showPicker : list Effect := [PresentPicker].

(** [Int(_: Double)]: the integer part, towards zero. *)
Definition Int_of_Double (x : R) : Z :=
  if Rle_dec 0 x then Int_part x else (- Int_part (- x))%Z.

Definition observationOf (o : VNRecognizedTextObservation)
  : option TextObservation :=
  match topCandidate o with
  | None => None
  | Some (str, conf) =>
      let bb := vn_boundingBox o in
      Some (mkTextObservation str conf
              (mkNormalizedRect (origin_x bb) (origin_y bb)
                                (size_width bb) (size_height bb))
              (mkNormalizedPoint (cg_x (vn_topLeft o)) (cg_y (vn_topLeft o)))
              (mkNormalizedPoint (cg_x (vn_topRight o)) (cg_y (vn_topRight o)))
              (mkNormalizedPoint (cg_x (vn_bottomRight o))
                                 (cg_y (vn_bottomRight o)))
              (mkNormalizedPoint (cg_x (vn_bottomLeft o))
                                 (cg_y (vn_bottomLeft o))))
  end.

(** The [for observation in results] loop of [performOCR]. *)
Fixpoint collectObservations (results : list VNRecognizedTextObservation)
  : list TextObservation :=
  match results with
  | [] => []
  | o :: rest =>
      match observationOf o with
      | Some textObs => textObs :: collectObservations rest
      | None => collectObservations rest
      end
  end.

(** [func performOCR(cgImage:languages:bounds:)] *)
Definition performOCR (world : World) (cgImage : CGImage)
    (languages : list string) (bounds : WindowBounds) : list Effect :=
  match performRequest world cgImage languages with
  | inl description => sendError "scan" ("OCR failed: " ++ description)
  | inr None =>
      sendSuccess "scan"
        (ocr (mkOCRData (image_width cgImage) (image_height cgImage) []
                        (Some bounds)))
  | inr (Some results) =>
      sendSuccess "scan"
        (ocr (mkOCRData (image_width cgImage) (image_height cgImage)
                        (collectObservations results) (Some bounds)))
  end.

(** The body of the [Task] of [executeScan], run against the delegate as
    it is when the task gets to the main actor.  Writing the PNG to
    [saveTo] touches the file system only, prints nothing and swallows its
    failure ([try?]): it is left out. *)
Definition runScanTask (world : World) (self : AppDelegate) (t : ScanTask)
  : list Effect :=
  let filter := task_filter t in
  let command := task_command t in
  let rect := contentRect filter in
  let scale :=
    if Rgt_dec (pointPixelScale filter) 0 then pointPixelScale filter
    else match backingScaleFactor world with
         | Some f => f
         | None => 2%R
         end in
  let config :=
    mkConfig (Int_of_Double (size_width rect * scale))
             (Int_of_Double (size_height rect * scale)) in
  match captureImage world filter config with
  | inl description => sendError "scan" ("Failed: " ++ description)
  | inr image =>
      let languages :=
        match languages command with
        | Some l => l
        | None => ["ja"; "en"]
        end in
      let currentBounds :=
        match getCurrentWindowBounds world self with
        | Some b => b
        | None => boundsOfRect rect
        end in
      performOCR world image languages currentBounds
  end.

(** [func executeScan(_ command: Command)]: what it prints itself, and the
    task it starts. *)
Definition executeScan (self : AppDelegate) (command : Command)
  : list Effect * list ScanTask :=
  match currentFilter self with
  | None => (sendError "scan" "No window selected", [])
  | Some filter => ([], [mkScanTask filter command])
  end.

(** [func handleCommand(_ command: Command)] *)
Definition handleCommand (self : AppDelegate) (command : Command)
  : AppDelegate * (list Effect * list ScanTask) :=
  if String.eqb (action command) "pick" then (self, (showPicker, []))
  else if String.eqb (action command) "scan" then
    let self := set_pendingCommand (Some command) self in
    match currentFilter self with
    | Some _ => (self, executeScan self command)
    | None => (self, (showPicker, []))
    end
  else if String.eqb (action command) "quit" then (self, ([Terminate], []))
  else
    (self, (sendError "error" ("Unknown action: " ++ action command), [])).

(** [contentSharingPicker(_:didCancelFor:)] *)
Definition contentSharingPicker_didCancelFor (self : AppDelegate)
  : AppDelegate * (list Effect * list ScanTask) :=
  (set_pendingCommand None self,
   (sendError "pick" "User cancelled window selection", [])).

(** [contentSharingPickerStartDidFailWithError(_:)] *)
Definition contentSharingPickerStartDidFailWithError (self : AppDelegate)
    (localizedDescription : string)
  : AppDelegate * (list Effect * list ScanTask) :=
  (set_pendingCommand None self,
   (sendError "pick" ("Picker failed to start: " ++ localizedDescription), [])).

(** [contentSharingPicker(_:didUpdateWith:for:)] *)
Definition contentSharingPicker_didUpdateWith (world : World)
    (self : AppDelegate) (filter : SCContentFilter)
  : AppDelegate * (list Effect * list ScanTask) :=
  let rect := contentRect filter in
  let self :=
    mkAppDelegate (Some filter) (findWindowID world rect)
                  (pendingCommand self) in
  let windowData :=
    mkWindowSelectedData (currentWindowID self) None None
                         (Some (boundsOfRect rect)) in
  let out := sendSuccess "pick" (windowSelected windowData) in
  match pendingCommand self with
  | Some pending =>
      let (printed, tasks) := executeScan self pending in
      (set_pendingCommand None self, ((out ++ printed)%list, tasks))
  | None => (self, (out, []))
  end.

(** [func applicationDidFinishLaunching(_:)]: the delegate as it is
    created, and the ready message. *)
Definition applicationDidFinishLaunching : AppDelegate * list Effect :=
  (mkAppDelegate None None None,
   sendSuccess "ready" (ready (mkReadyData "1.0.0"))).

(** [readLine()]: the next line of standard input without its line feed
    (and without the carriage return before it), and the input left;
    [None] at the end of the input. *)
Fixpoint takeLine (input : string) : string * option string :=
  match input with
  | EmptyString => (EmptyString, None)
  | String c rest =>
      if Ascii.eqb c "010" then (EmptyString, Some rest)
      else let (line, remaining) := takeLine rest in (String c line, remaining)
  end.

Fixpoint dropLastCR (line : string) : string :=
  match line with
  | EmptyString => EmptyString
  | String c EmptyString =>
      if Ascii.eqb c "013" then EmptyString else line
  | String c rest => String c (dropLastCR rest)
  end.

Definition readLine (input : string) : option (string * string) :=
  match input with
  | EmptyString => None
  | _ =>
      match takeLine input with
      | (line, Some remaining) => Some (dropLastCR line, remaining)
      | (line, None) => Some (line, EmptyString)
      end
  end.

(** What happens to the worker from outside. *)
Inductive Event : Type :=
| StdinLine (line : string)
| StdinClosed
| PickerDidCancel
| PickerStartDidFail (localizedDescription : string)
| PickerDidUpdate (filter : SCContentFilter).

(** The job each event puts on the main queue.  For a line this is the
    body of the [while let line = readLine()] loop of [readStdin]. *)
Definition dispatch (world : World) (self : AppDelegate) (ev : Event)
  : AppDelegate * (list Effect * list ScanTask) :=
  match ev with
  | StdinLine line =>
      if String.eqb line EmptyString then (self, ([], []))
      else
        match decodeCommand line with
        | None => (self, (sendError "error" "Invalid JSON command", []))
        | Some command => handleCommand self command
        end
  | StdinClosed => (self, ([Terminate], []))
  | PickerDidCancel => contentSharingPicker_didCancelFor self
  | PickerStartDidFail description =>
      contentSharingPickerStartDidFailWithError self description
  | PickerDidUpdate filter =>
      contentSharingPicker_didUpdateWith world self filter
  end.

(** One event and all it leads to without further input: the job on the
    main queue, then the tasks it started, run to their end. *)
Definition react (world : World) (self : AppDelegate) (ev : Event)
  : AppDelegate * list Effect :=
  let '(self', (printed, tasks)) := dispatch world self ev in
  (self', (printed ++ flat_map (runScanTask world self') tasks)%list).

Definition isTerminate (e : Effect) : bool :=
  match e with
  | Terminate => true
  | _ => false
  end.

(** The responses among the effects, in the order they were printed. *)
Fixpoint printed (effects : list Effect) : list Response :=
  match effects with
  | [] => []
  | Print r :: rest => r :: printed rest
  | _ :: rest => printed rest
  end.

(** The invariant on all the responses among some effects. *)
Definition all_exactly_one_of (effects : list Effect) : Prop :=
  Forall (fun r => exactly_one_of r = true) (printed effects).

(** A run of the worker after its launch: the events in order, each with
    the answers of the platform at that moment; nothing happens after the
    process has terminated. *)
Fixpoint run (self : AppDelegate) (events : list (World * Event))
  : AppDelegate * list Effect :=
  match events with
  | [] => (self, [])
  | (world, ev) :: rest =>
      let (self', effects) := react world self ev in
      if existsb isTerminate effects then (self', effects)
      else
        let (self'', effects') := run self' rest in
        (self'', (effects ++ effects')%list)
  end.

(** The whole life of the process. *)
Definition main (events : list (World * Event)) : AppDelegate * list Effect :=
  let (self, hello) := applicationDidFinishLaunching in
  let (self', effects) := run self events in
  (self', (hello ++ effects)%list).

(** [func readStdin()]: the lines of the whole standard input, in order,
    then its end.  [fuel] bounds the number of lines still to be read; the
    length of the input and one more is always enough. *)
Fixpoint readStdin_loop (fuel : nat) (input : string) : list Event :=
  match fuel with
  | O => [StdinClosed]
  | S fuel =>
      match readLine input with
      | None => [StdinClosed]
      | Some (line, remaining) => StdinLine line :: readStdin_loop fuel remaining
      end
  end.

Definition readStdin (input : string) : list Event :=
  readStdin_loop (S (String.length input)) input.

(** The data a response carries, by its type: the version for ready, the
    window with its bounds for pick, the recognition result with its bounds
    for scan; a failure carries none. *)
Definition data_fits_type (r : Response) : bool :=
  match success r, data r with
  | false, None => true
  | true, Some (ready _) => String.eqb (type r) "ready"
  | true, Some (windowSelected d) =>
      String.eqb (type r) "pick"
      && match sel_bounds d with Some _ => true | None => false end
  | true, Some (ocr d) =>
      String.eqb (type r) "scan"
      && match ocr_bounds d with Some _ => true | None => false end
  | _, _ => false
  end.

(** A window of the list that [findWindowID] takes for the one of a
    rectangle: its four bounds and its number are there, and each bound is
    less than the tolerance away from that of the rectangle. *)
Definition window_matches (rect : CGRect) (windowInfo : WindowInfo)
    (windowID : CGWindowID) : Prop :=
  exists x y w h,
    kCGWindowBounds windowInfo =
      Some (mkBoundsDict (Some x) (Some y) (Some w) (Some h)) /\
    kCGWindowNumber windowInfo = Some windowID /\
    (Rabs (x - origin_x rect) < 2)%R /\ (Rabs (y - origin_y rect) < 2)%R /\
    (Rabs (w - size_width rect) < 2)%R /\ (Rabs (h - size_height rect) < 2)%R.

End Worker.

(* ================================================================== *)
(** * The protocol bridge ([src/main/ocr-bridge.ts]) *)
(* ================================================================== *)

Module Bridge.

Local Open Scope string_scope.

(** [interface WindowBounds] *)
Record WindowBounds := mkWindowBounds {
  wb_x : R; wb_y : R; wb_width : R; wb_height : R
}.

(** [interface WindowSelectedData]; [None] is [null]. *)
Record WindowSelectedData := mkWindowSelectedData {
  sel_windowId : option R;
  sel_appName : option string;
  sel_windowTitle : option string;
  sel_bounds : option WindowBounds
}.

(** [interface OCRData], as [scan] builds it: a field is [None] when the
    response did not carry it ([imageWidth!] asserts, it does not check). *)
Record OCRData := mkOCRData {
  imageWidth : option R;
  imageHeight : option R;
  observations : list Overlay.TextObservation;
  bounds : option WindowBounds
}.

(** The [data] object of a [CLIResponse]: every property is optional. *)
Record ResponseData := mkResponseData {
  data_version : option string;
  data_windowId : option R;
  data_appName : option string;
  data_windowTitle : option string;
  data_bounds : option WindowBounds;
  data_imageWidth : option R;
  data_imageHeight : option R;
  data_observations : option (list Overlay.TextObservation)
}.

(** [interface CLIResponse] *)
Record CLIResponse := mkCLIResponse {
  type : string;
  success : bool;
  data : option ResponseData;
  error : option string
}.

(** [a || b] on an optional string: [b] when [a] is undefined or empty. *)
Definition or_else (a : option string) (b : string) : string :=
  match a with
  | Some (String c rest) => String c rest
  | _ => b
  end.

(** A promise: pending, or settled once and for all. *)
Inductive Promise (A : Type) : Type :=
| Pending
| Fulfilled (v : A)
| Rejected (message : string).
Arguments Pending {A}.
Arguments Fulfilled {A} v.
Arguments Rejected {A} message.

(** One call of [pick] or [scan] in flight: its promise, whether its
    handler is still a listener of the [response] event, and the time at
    which its timer fires, while the timer is armed. *)
Record Call (A : Type) : Type := mkCall {
  promise : Promise A;
  listening : bool;
  timer : option N
}.
Arguments mkCall {A}.
Arguments promise {A}.
Arguments listening {A}.
Arguments timer {A}.

(** [resolve(v)] and [reject(new Error(m))]: no effect on a settled
    promise. *)
Definition resolve {A : Type} (v : A) (c : Call A) : Call A :=
  match promise c with
  | Pending => mkCall (Fulfilled v) (listening c) (timer c)
  | _ => c
  end.

Definition reject {A : Type} (message : string) (c : Call A) : Call A :=
  match promise c with
  | Pending => mkCall (Rejected message) (listening c) (timer c)
  | _ => c
  end.

(** [clearTimeout(timeout)] and [this.removeListener('response', handler)] *)
Definition clearTimeout {A : Type} (c : Call A) : Call A :=
  mkCall (promise c) (listening c) None.

Definition removeListener {A : Type} (c : Call A) : Call A :=
  mkCall (promise c) false (timer c).

(** The bridge: the standard input of the worker process, as the list of
    the chunks written to it so far; [None] when there is no process (not
    started, or stopped). *)
Record OCRBridge := mkOCRBridge {
  stdin : option (list string)
}.

(** [JSON.stringify(command) + '\n'] *)
Definition wireLine (command : JSON.value) : string :=
  JSON.stringify command ++ String "010" EmptyString.

(** [private sendCommand(command: object)]: [None] is the throw of
    [CLI not started]. *)
Definition sendCommand (this : OCRBridge) (command : JSON.value)
  : option OCRBridge :=
  match stdin this with
  | None => None
  | Some written =>
      Some (mkOCRBridge (Some (written ++ [wireLine command])%list))
  end.

(** The object literals [{ action: 'pick' }], [{ action: 'quit' }] and
    [{ action: 'scan', ...options }]; a property of [options] that is
    undefined is not written by [JSON.stringify]. *)
Record ScanOptions := mkScanOptions {
  opt_saveTo : option string;
  opt_languages : option (list string)
}.

Definition optional (key : string) (v : option JSON.value)
  : list (string * JSON.value) :=
  match v with
  | Some j => [(key, j)]
  | None => []
  end.

Definition commandObject (action : string) (options : ScanOptions)
  : JSON.value :=
  JSON.Object
    ((("action", JSON.Str action)
        :: optional "saveTo" (option_map JSON.Str (opt_saveTo options)))
       ++ optional "languages"
            (option_map (fun l => JSON.Array (map JSON.Str l))
                        (opt_languages options)))%list.

Definition no_options : ScanOptions := mkScanOptions None None.

(** The executor of the promise of [pick] and [scan]: the timer is set,
    the handler registered and the command sent; a throw of [sendCommand]
    rejects the promise, the timer and the handler stay. *)
Definition start_call {A : Type} (this : OCRBridge) (now delay : N)
    (command : JSON.value) : OCRBridge * Call A :=
  match sendCommand this command with
  | Some this' => (this', mkCall Pending true (Some (now + delay)%N))
  | None => (this, mkCall (Rejected "CLI not started") true (Some (now + delay)%N))
  end.

(** ** [pick(): Promise<WindowSelectedData>] *)

Definition PICK_TIMEOUT : N := 60000.

Definition pick (this : OCRBridge) (now : N)
  : OCRBridge * Call WindowSelectedData :=
  start_call this now PICK_TIMEOUT (commandObject "pick" no_options).

(** The callback of [setTimeout] in [pick]. *)
Definition pick_timeout (c : Call WindowSelectedData)
  : Call WindowSelectedData :=
  reject "Window selection timed out" (removeListener c).

(** The object [pick] resolves with; [x ?? null] is [x], [None] standing
    for undefined and for null alike. *)
Definition pick_result (d : ResponseData) : WindowSelectedData :=
  mkWindowSelectedData (data_windowId d) (data_appName d)
                       (data_windowTitle d) (data_bounds d).

(** [const handler = (response: CLIResponse) => ...] in [pick]. *)
Definition pick_handler (response : CLIResponse)
    (c : Call WindowSelectedData) : Call WindowSelectedData :=
  if String.eqb (type response) "pick" then
    let c := removeListener (clearTimeout c) in
    match success response, data response with
    | true, Some d => resolve (pick_result d) c
    | _, _ => reject (or_else (error response) "Pick failed") c
    end
  else c.

(** ** [scan(options?): Promise<OCRData>] *)

Definition SCAN_TIMEOUT : N := 30000.

Definition scan (this : OCRBridge) (now : N) (options : ScanOptions)
  : OCRBridge * Call OCRData :=
  start_call this now SCAN_TIMEOUT (commandObject "scan" options).

(** The callback of [setTimeout] in [scan]. *)
Definition scan_timeout (c : Call OCRData) : Call OCRData :=
  reject "OCR scan timed out" (removeListener c).

(** The object [scan] resolves with; [observations || []]. *)
Definition scan_result (d : ResponseData) : OCRData :=
  mkOCRData (data_imageWidth d) (data_imageHeight d)
            (match data_observations d with
             | Some l => l
             | None => []
             end)
            (data_bounds d).

(** [const handler = (response: CLIResponse) => ...] in [scan]. *)
Definition scan_handler (response : CLIResponse) (c : Call OCRData)
  : Call OCRData :=
  if String.eqb (type response) "scan" || String.eqb (type response) "pick"
  then
    if String.eqb (type response) "pick" then
      if negb (success response) then
        reject (or_else (error response) "Window selection cancelled")
               (removeListener (clearTimeout c))
      else c
    else
      let c := removeListener (clearTimeout c) in
      match success response, data response with
      | true, Some d => resolve (scan_result d) c
      | _, _ => reject (or_else (error response) "Scan failed") c
      end
  else c.

(** ** The event loop *)

(** What the event loop brings to a call: a response the bridge emits, or
    the passing of time alone. *)
Inductive Input : Type :=
| Emit (response : CLIResponse)
| Idle.

(** An input and the time, in milliseconds, at which the loop gets to it. *)
Definition Event : Type := (N * Input)%type.

(** The timers phase of a loop iteration at time [now]: an armed timer
    whose time has come runs its callback, once. *)
Definition run_timers {A : Type} (on_timeout : Call A -> Call A) (now : N)
    (c : Call A) : Call A :=
  match timer c with
  | Some due => if (due <=? now)%N then on_timeout (clearTimeout c) else c
  | None => c
  end.

(** [this.emit('response', response)], as far as one call is concerned. *)
Definition emit {A : Type} (handler : CLIResponse -> Call A -> Call A)
    (response : CLIResponse) (c : Call A) : Call A :=
  if listening c then handler response c else c.

Definition step {A : Type} (on_timeout : Call A -> Call A)
    (handler : CLIResponse -> Call A -> Call A) (c : Call A) (ev : Event)
  : Call A :=
  let c := run_timers on_timeout (fst ev) c in
  match snd ev with
  | Emit response => emit handler response c
  | Idle => c
  end.

Definition pick_step := step pick_timeout pick_handler.
Definition scan_step := step scan_timeout scan_handler.

Definition pick_run (c : Call WindowSelectedData) (events : list Event)
  : Call WindowSelectedData := fold_left pick_step events c.

Definition scan_run (c : Call OCRData) (events : list Event) : Call OCRData :=
  fold_left scan_step events c.

(** ** Kinds of events *)

(** An event that brings no pick response. *)
Definition no_pick_response (ev : Event) : Prop :=
  forall r, snd ev = Emit r -> type r <> "pick".

(** An event that a call of [scan] due at [due] lets pass: it comes before
    the time-out and brings no scan response and no failed pick. *)
Definition in_passing (due : N) (ev : Event) : Prop :=
  (fst ev < due)%N /\
  forall r, snd ev = Emit r ->
    type r <> "scan" /\ (type r = "pick" -> success r = true).

(** ** [private processBuffer()] *)

(** [s.split('\n')]: the pieces between the line feeds; never empty. *)
Fixpoint split_newline (s : string) : list string :=
  match s with
  | EmptyString => [EmptyString]
  | String c rest =>
      if Ascii.eqb c "010" then EmptyString :: split_newline rest
      else
        match split_newline rest with
        | piece :: pieces => String c piece :: pieces
        | [] => [String c EmptyString]
        end
  end.

(** Whether [line.trim()] is the empty string: the line holds nothing but
    white space and line terminators of ECMAScript, read in UTF-8 (tab,
    line feed, vertical tab, form feed, carriage return, space, and
    U+00A0, U+1680, U+2000 to U+200A, U+2028, U+2029, U+202F, U+205F,
    U+3000, U+FEFF). *)
Fixpoint trims_to_empty (line : string) : bool :=
  match line with
  | EmptyString => true
  | String c rest =>
      let n := nat_of_ascii c in
      if ((9 <=? n) && (n <=? 13) || (n =? 32))%nat then trims_to_empty rest
      else
        match rest with
        | String c2 rest2 =>
            let n2 := nat_of_ascii c2 in
            if ((n =? 194) && (n2 =? 160))%nat then trims_to_empty rest2
            else
              match rest2 with
              | String c3 rest3 =>
                  let n3 := nat_of_ascii c3 in
                  if ((n =? 225) && (n2 =? 154) && (n3 =? 128)
                      || (n =? 226) && (n2 =? 128)
                         && ((128 <=? n3) && (n3 <=? 138)
                             || (n3 =? 168) || (n3 =? 169) || (n3 =? 175))
                      || (n =? 226) && (n2 =? 129) && (n3 =? 159)
                      || (n =? 227) && (n2 =? 128) && (n3 =? 128)
                      || (n =? 239) && (n2 =? 187) && (n3 =? 191))%nat
                  then trims_to_empty rest3
                  else false
              | EmptyString => false
              end
        | EmptyString => false
        end
  end.

Section Buffering.

(** A response as the handlers of the [response] event get it, and
    [JSON.parse(line) as CLIResponse]: [None] when [JSON.parse] throws. *)
Variable Response : Type.
Variable JSON_parse : string -> option Response.

(** [data.toString()]: the text that the bytes of one chunk decode to as
    UTF-8, each chunk on its own, with U+FFFD in the place of every
    ill-formed sequence: a character that the end of a chunk cuts in two
    is lost, in this chunk and in the next. *)
Variable toString : string -> string.

(** The listeners of the [response] event with all that they hold, and
    [this.emit('response', response)]: the listeners run in order, and
    [true] says that one of them has thrown (as a handler that reads
    [response.type] does when the response is [null]), the listeners after
    it then being passed over. *)
Variable Listeners : Type.
Variable emit : Response -> Listeners -> Listeners * bool.

(** The bridge as the listener of [stdout] data deals with it:
    [this.buffer], and the listeners of the [response] event. *)
Record Reader := mkReader {
  buffer : string;
  listeners : Listeners
}.

(** What one call of [processBuffer] does besides: the responses it has
    called [emit] with, in order, and the lines it has reported with
    [console.error]. *)
Record Delivery := mkDelivery {
  emitted : list Response;
  reported : list string
}.

(** The [for (const line of lines)] loop.  The [try] block holds the call
    of [emit] as well as that of [JSON.parse]: the line is reported when
    either of them throws. *)
Fixpoint processLines (lines : list string) (ls : Listeners)
  : Listeners * Delivery :=
  match lines with
  | [] => (ls, mkDelivery [] [])
  | line :: rest =>
      if trims_to_empty line then processLines rest ls
      else
        match JSON_parse line with
        | Some response =>
            let (ls, threw) := emit response ls in
            let (ls, d) := processLines rest ls in
            (ls, mkDelivery (response :: emitted d)
                            (if threw then line :: reported d
                             else reported d))
        | None =>
            let (ls, d) := processLines rest ls in
            (ls, mkDelivery (emitted d) (line :: reported d))
        end
  end.

(** [processBuffer()] *)
Definition processBuffer (this : Reader) : Reader * Delivery :=
  let lines := split_newline (buffer this) in
  let (ls, d) := processLines (removelast lines) (listeners this) in
  (mkReader (last lines EmptyString) ls, d).

(** The listener of [stdout] data: [this.buffer += data.toString()], then
    [processBuffer()]. *)
Definition onData (this : Reader) (chunk : string) : Reader * Delivery :=
  processBuffer (mkReader (buffer this ++ toString chunk) (listeners this)).

(** A series of chunks: the bridge after them and all that was delivered,
    in order. *)
Fixpoint onDataAll (this : Reader) (chunks : list string)
  : Reader * Delivery :=
  match chunks with
  | [] => (this, mkDelivery [] [])
  | chunk :: rest =>
      let (this, d) := onData this chunk in
      let (this, d') := onDataAll this rest in
      (this,
       mkDelivery (emitted d ++ emitted d')%list
                  (reported d ++ reported d')%list)
  end.

End Buffering.

(** ** [start(): Promise<void>] *)

Definition START_TIMEOUT : N := 5000.

(** The bridge while it starts: the promise of [start] with its [onReady]
    listener and its timer (which nothing clears), [this.ready], whether a
    listener of the [error] event of the bridge is registered, and the
    errors thrown out of a callback, which nothing catches. *)
Record Startup := mkStartup {
  starting : Call unit;
  ready : bool;
  error_listener : bool;
  uncaught : list string
}.

(** The executor of the promise of [start], the process once spawned. *)
Definition start (error_listener : bool) (now : N) : OCRBridge * Startup :=
  (mkOCRBridge (Some []),
   mkStartup (mkCall Pending true (Some (now + START_TIMEOUT)%N))
             false error_listener []).

(** [const onReady = (response: CLIResponse) => ...] *)
Definition onReady (response : CLIResponse) (s : Startup) : Startup :=
  if String.eqb (type response) "ready" then
    mkStartup (resolve tt (removeListener (starting s))) true
              (error_listener s) (uncaught s)
  else s.

(** The callback of [setTimeout] in [start]. *)
Definition start_timeout (s : Startup) : Startup :=
  if negb (ready s) then
    mkStartup (reject "CLI did not become ready in time" (starting s))
              (ready s) (error_listener s) (uncaught s)
  else s.

(** The listener of the [close] event of the process. *)
Definition onClose (s : Startup) : Startup :=
  mkStartup (starting s) false (error_listener s) (uncaught s).

(** The listener of the [error] event of the process: [this.emit('error',
    err)] throws the error when the bridge has no listener for it, and the
    [reject(err)] that follows is then not reached. *)
Definition onProcessError (message : string) (s : Startup) : Startup :=
  if error_listener s then
    mkStartup (reject message (starting s)) (ready s) (error_listener s)
              (uncaught s)
  else
    mkStartup (starting s) (ready s) (error_listener s)
              (uncaught s ++ [message])%list.

(** What the event loop brings to a bridge that starts. *)
Inductive StartInput : Type :=
| StartEmit (response : CLIResponse)
| ProcessClose
| ProcessError (message : string)
| StartIdle.

Definition start_step (s : Startup) (ev : N * StartInput) : Startup :=
  let s :=
    match timer (starting s) with
    | Some due =>
        if (due <=? fst ev)%N then
          start_timeout
            (mkStartup (clearTimeout (starting s)) (ready s)
                       (error_listener s) (uncaught s))
        else s
    | None => s
    end in
  match snd ev with
  | StartEmit response =>
      if listening (starting s) then onReady response s else s
  | ProcessClose => onClose s
  | ProcessError message => onProcessError message s
  | StartIdle => s
  end.

Definition start_run (s : Startup) (events : list (N * StartInput))
  : Startup := fold_left start_step events s.

(** [isReady(): boolean] *)
Definition isReady (s : Startup) : bool := ready s.

(** ** [quit()] and [stop()] *)

(** [quit(): void]; [None] is the throw of [sendCommand]. *)
Definition quit (this : OCRBridge) : option OCRBridge :=
  sendCommand this (commandObject "quit" no_options).

(** [stop(): void]: the bridge afterwards, and, when there was a process,
    all that was written to its standard input before it was killed. *)
Definition stop (this : OCRBridge) : OCRBridge * option (list string) :=
  match stdin this with
  | Some _ =>
      match quit this with
      | Some this' => (mkOCRBridge None, stdin this')
      | None => (this, None)
      end
  | None => (this, None)
  end.

(** An event that a bridge which starts lets pass: it comes before the
    time-out and brings no ready response and no error of the process. *)
Definition before_ready (due : N) (ev : N * StartInput) : Prop :=
  (fst ev < due)%N /\
  (forall r, snd ev = StartEmit r -> type r <> "ready") /\
  (forall message, snd ev <> ProcessError message).

(** How [pick] and [scan] settle on the response of their own type. *)
Definition pick_outcome (r : CLIResponse) : Promise WindowSelectedData :=
  match success r, data r with
  | true, Some d => Fulfilled (pick_result d)
  | _, _ => Rejected (or_else (error r) "Pick failed")
  end.

Definition scan_outcome (r : CLIResponse) : Promise OCRData :=
  match success r, data r with
  | true, Some d => Fulfilled (scan_result d)
  | _, _ => Rejected (or_else (error r) "Scan failed")
  end.

End Bridge.

(* ================================================================== *)
(** * The window manager ([window-manager.ts]) *)
(* ================================================================== *)

Module Window.

Local Open Scope string_scope.

(** [Math.round(x)]: the integer nearest to [x], a half going up. *)
Definition Math_round (x : R) : Z := Int_part (x + 1 / 2).

(** Electron's [Rectangle], as [setBounds] takes it. *)
Record Rectangle := mkRectangle {
  rect_x : Z; rect_y : Z; rect_width : Z; rect_height : Z
}.

(** What [webContents.send] carries to the page, by channel: [ocr-results],
    [ocr-loading] and [ocr-error]. *)
Inductive Sent : Type :=
| ocr_results (data : Bridge.OCRData)
| ocr_loading (isLoading : bool)
| ocr_error (message : string).

(** A [BrowserWindow], as far as the manager deals with it: whether it is
    destroyed, whether it is visible, the rectangle of the last
    [setBounds] ([None] while the window is where its constructor has put
    it, 800 by 600 pixels), and all that was sent to its page, in order. *)
Record BrowserWindow := mkBrowserWindow {
  isDestroyed : bool;
  isVisible : bool;
  getBounds : option Rectangle;
  sent : list Sent
}.

(** [class WindowManager]: its two private properties; [None] is [null]. *)
Record WindowManager := mkWindowManager {
  overlayWindow : option BrowserWindow;
  currentBounds : option Bridge.WindowBounds
}.

(** [new WindowManager()] *)
Definition new : WindowManager := mkWindowManager None None.

(** The guard of every method: [this.overlayWindow &&
    !this.overlayWindow.isDestroyed()]. *)
Definition live (this : WindowManager) : option BrowserWindow :=
  match overlayWindow this with
  | Some w => if isDestroyed w then None else Some w
  | None => None
  end.

(** [createOverlay(): BrowserWindow]: the window is constructed with
    [show: false]. *)
Definition createOverlay (this : WindowManager) : WindowManager :=
  match live this with
  | Some _ => this
  | None =>
      mkWindowManager (Some (mkBrowserWindow false false None []))
                      (currentBounds this)
  end.

(** [positionOverlay(bounds: WindowBounds): void] *)
Definition positionOverlay (bounds : Bridge.WindowBounds)
    (this : WindowManager) : WindowManager :=
  match live this with
  | None => this
  | Some w =>
      mkWindowManager
        (Some (mkBrowserWindow (isDestroyed w) (isVisible w)
                 (Some (mkRectangle (Math_round (Bridge.wb_x bounds))
                                    (Math_round (Bridge.wb_y bounds))
                                    (Math_round (Bridge.wb_width bounds))
                                    (Math_round (Bridge.wb_height bounds))))
                 (sent w)))
        (Some bounds)
  end.

Definition set_visible (v : bool) (this : WindowManager) : WindowManager :=
  match live this with
  | None => this
  | Some w =>
      mkWindowManager
        (Some (mkBrowserWindow (isDestroyed w) v (getBounds w) (sent w)))
        (currentBounds this)
  end.

(** [showOverlay(): void] and [hideOverlay(): void] *)
Definition showOverlay (this : WindowManager) : WindowManager :=
  set_visible true this.
Definition hideOverlay (this : WindowManager) : WindowManager :=
  set_visible false this.

(** [toggleOverlay(): void] *)
Definition toggleOverlay (this : WindowManager) : WindowManager :=
  match live this with
  | None => this
  | Some w => if isVisible w then hideOverlay this else showOverlay this
  end.

(** [this.overlayWindow.webContents.send(channel, payload)], guarded. *)
Definition send (m : Sent) (this : WindowManager) : WindowManager :=
  match live this with
  | None => this
  | Some w =>
      mkWindowManager
        (Some (mkBrowserWindow (isDestroyed w) (isVisible w) (getBounds w)
                               (sent w ++ [m])))
        (currentBounds this)
  end.

(** [updateOCRResults(data)], [setLoadingState(isLoading)] and
    [showError(message)] *)
Definition updateOCRResults (data : Bridge.OCRData) (this : WindowManager)
  : WindowManager := send (ocr_results data) this.
Definition setLoadingState (isLoading : bool) (this : WindowManager)
  : WindowManager := send (ocr_loading isLoading) this.
Definition showError (message : string) (this : WindowManager)
  : WindowManager := send (ocr_error message) this.

(** [getOverlayWindow()] and [getCurrentBounds()] *)
Definition getOverlayWindow (this : WindowManager) : option BrowserWindow :=
  overlayWindow this.
Definition getCurrentBounds (this : WindowManager)
  : option Bridge.WindowBounds := currentBounds this.

(** [destroy(): void] *)
Definition destroy (this : WindowManager) : WindowManager :=
  match live this with
  | None => this
  | Some _ => mkWindowManager None (currentBounds this)
  end.

(** All that was sent to the page of the window the manager holds. *)
Definition sent_to_page (this : WindowManager) : list Sent :=
  match overlayWindow this with
  | Some w => sent w
  | None => []
  end.

End Window.

(* ================================================================== *)
(** * The shortcuts of the main process ([index.ts]) *)
(* ================================================================== *)

Module Main.

Import Window.
Local Open Scope string_scope.

(** [s.includes(part)] *)
Fixpoint includes (s part : string) : bool :=
  String.prefix part s
  || match s with
     | String _ rest => includes rest part
     | EmptyString => false
     end.

(** The handler of [Option+A], from the point where [await
    ocrBridge.scan()] returns or throws; while the promise is pending the
    handler is suspended.  The bridge rejects with [Error] objects only, so
    that [errorMsg] is the message of the error.  What the handlers write
    to the console is left out. *)
Definition scan_shortcut (outcome : Bridge.Promise Bridge.OCRData)
    (windowManager : WindowManager) : WindowManager :=
  match outcome with
  | Bridge.Pending => windowManager
  | Bridge.Fulfilled result =>
      let windowManager :=
        match Bridge.bounds result with
        | Some bounds => positionOverlay bounds windowManager
        | None => windowManager
        end in
      showOverlay (updateOCRResults result windowManager)
  | Bridge.Rejected errorMsg =>
      if negb (includes errorMsg "cancelled") then
        showError errorMsg (showOverlay windowManager)
      else windowManager
  end.

(** The handler of [CommandOrControl+Shift+P], from the point where [await
    ocrBridge.pick()] returns or throws. *)
Definition pick_shortcut (outcome : Bridge.Promise Bridge.WindowSelectedData)
    (windowManager : WindowManager) : WindowManager :=
  match outcome with
  | Bridge.Pending => windowManager
  | Bridge.Fulfilled windowInfo =>
      match Bridge.sel_bounds windowInfo with
      | Some bounds => showOverlay (positionOverlay bounds windowManager)
      | None => windowManager
      end
  | Bridge.Rejected errorMsg =>
      if negb (includes errorMsg "cancelled") then
        showError errorMsg windowManager
      else windowManager
  end.

(** What the main process reacts to once [init] has registered its
    listeners and shortcuts: a call of [scan] or [pick] that settles, the
    shortcuts that toggle and hide the overlay, and the [close] and
    [error] events of the bridge; the exit code of a [close] is [None]
    when it is [null], the process having been ended by a signal. *)
Inductive Event : Type :=
| ScanSettled (outcome : Bridge.Promise Bridge.OCRData)
| PickSettled (outcome : Bridge.Promise Bridge.WindowSelectedData)
| ToggleKey
| EscapeKey
| BridgeClose (code : option Z)
| BridgeError (message : string).

Definition handle (windowManager : WindowManager) (ev : Event)
  : WindowManager :=
  match ev with
  | ScanSettled outcome => scan_shortcut outcome windowManager
  | PickSettled outcome => pick_shortcut outcome windowManager
  | ToggleKey => toggleOverlay windowManager
  | EscapeKey => hideOverlay windowManager
  | BridgeClose code =>
      match code with
      | Some 0%Z => windowManager
      | _ => showError "OCR engine crashed. Restart the app." windowManager
      end
  | BridgeError message =>
      showError ("OCR engine error: " ++ message) windowManager
  end.

(** The main process from the end of [init] on: the overlay is created,
    then the events are handled in order. *)
Definition run (events : list Event) : WindowManager :=
  fold_left handle events (createOverlay new).

End Main.

(* ================================================================== *)
(** * Sample inputs *)
(* ================================================================== *)

Module Samples.

Local Open Scope string_scope.

(** A measure that finds every text 200 pixels wide. *)
Definition wide_text : Overlay.Span -> R := fun _ => 200%R.

(** A measure that finds every text three times as wide as its font
    size. *)
Definition proportional_text : Overlay.Span -> R :=
  fun span => match Overlay.style_fontSize span with
              | Some size => (3 * size)%R
              | None => 0%R
              end.

(** A measure that finds every text 10 pixels wide. *)
Definition narrow_text : Overlay.Span -> R := fun _ => 10%R.

(** A line of text half as wide as the overlay, with horizontal corners. *)
Definition sample_line : Overlay.TextObservation :=
  Overlay.mkObs "abc" 1
    (Overlay.mkBox (1 / 10) (1 / 10) (5 / 10) (2 / 10))
    (Overlay.mkPoint 0 1) (Overlay.mkPoint 1 1)
    (Overlay.mkPoint 1 0) (Overlay.mkPoint 0 0).

(** A speck, 5 pixels wide on an overlay of 100 by 100 pixels. *)
Definition speck : Overlay.TextObservation :=
  Overlay.mkObs "." 1
    (Overlay.mkBox (1 / 10) (1 / 10) (5 / 100) (2 / 10))
    (Overlay.mkPoint 0 1) (Overlay.mkPoint 1 1)
    (Overlay.mkPoint 1 0) (Overlay.mkPoint 0 0).

(** The lines the bridge writes for its three commands, without the line
    feed. *)
Definition pick_line : string :=
  JSON.stringify (Bridge.commandObject "pick" Bridge.no_options).
Definition scan_line : string :=
  JSON.stringify (Bridge.commandObject "scan" Bridge.no_options).
Definition foo_line : string :=
  JSON.stringify (Bridge.commandObject "foo" Bridge.no_options).

Definition pick_command : Worker.Command := Worker.mkCommand "pick" None None.
Definition scan_command : Worker.Command := Worker.mkCommand "scan" None None.
Definition foo_command : Worker.Command := Worker.mkCommand "foo" None None.

(** A platform on which no window is listed and every capture fails. *)
Definition blind_world : Worker.World :=
  Worker.mkWorld None (fun _ => None) None
    (fun _ _ => inl "not permitted") (fun _ _ => inl "no text").

(** A worker just launched, and one that has a target. *)
Definition fresh_worker : Worker.AppDelegate :=
  Worker.mkAppDelegate None None None.

Definition some_filter : Worker.SCContentFilter :=
  Worker.mkFilter (Worker.mkCGRect 100 100 400 300) 2 0.

Definition aimed_worker : Worker.AppDelegate :=
  Worker.mkAppDelegate (Some some_filter) None None.

(** Responses as the bridge receives them. *)
Definition pick_failed_silently : Bridge.CLIResponse :=
  Bridge.mkCLIResponse "pick" false None (Some EmptyString).

Definition ready_response : Bridge.CLIResponse :=
  Bridge.mkCLIResponse "ready" true None None.

Definition pick_cancelled : Bridge.CLIResponse :=
  Bridge.mkCLIResponse "pick" false None
    (Some "User cancelled window selection").

Definition window_data : Bridge.ResponseData :=
  Bridge.mkResponseData None (Some 42%R) None None
    (Some (Bridge.mkWindowBounds 100 100 400 300)) None None None.

Definition pick_done : Bridge.CLIResponse :=
  Bridge.mkCLIResponse "pick" true (Some window_data) None.

Definition scan_data : Bridge.ResponseData :=
  Bridge.mkResponseData None None None None
    (Some (Bridge.mkWindowBounds 100 100 400 300))
    (Some 800%R) (Some 600%R) (Some [sample_line]).

Definition scan_done : Bridge.CLIResponse :=
  Bridge.mkCLIResponse "scan" true (Some scan_data) None.


(** A bridge whose worker process runs. *)
Definition started_bridge : Bridge.OCRBridge := Bridge.mkOCRBridge (Some []).

End Samples.

(* ================================================================== *)
(** * Reading back what [stringify] writes *)
(* ================================================================== *)

Module JSONFacts.

Import JSON.
Local Open Scope string_scope.
Local Set Warnings "-notation-for-abbreviation".

(** ** Strings *)

Lemma append_assoc (a b c : string) : (a ++ b) ++ c = a ++ (b ++ c).
Proof. induction a as [|x a IH]; simpl; [reflexivity | now rewrite IH]. Qed.

Lemma append_nil_r (a : string) : a ++ EmptyString = a.
Proof. induction a as [|x a IH]; simpl; [reflexivity | now rewrite IH]. Qed.

Lemma length_append (a b : string) :
  String.length (a ++ b) = String.length a + String.length b.
Proof. induction a as [|x a IH]; simpl; [reflexivity | now rewrite IH]. Qed.

(** One escaped character is read back as one item, which stands for the
    byte that was escaped. *)
Lemma scan_escape_char c tl :
  exists i,
    scan_string (escape_char c ++ tl) = cons_item i (scan_string tl) /\
    forall items,
      utf8_of_items (i :: items) =
      prepend (String c EmptyString) (utf8_of_items items).
Proof.
  destruct c as [b0 b1 b2 b3 b4 b5 b6 b7].
  destruct b0, b1, b2, b3, b4, b5, b6, b7;
    eexists; (split; [reflexivity | intros items; reflexivity]).
Qed.

Lemma scan_escape s rest :
  exists items,
    scan_string (escape s ++ String dq rest) = Some (items, rest) /\
    utf8_of_items items = Some s.
Proof.
  induction s as [|c s (items & Hscan & Hutf)]; simpl.
  - exists []. split; reflexivity.
  - destruct (scan_escape_char c (escape s ++ String dq rest))
      as (i & Hi & Hitem).
    exists (i :: items). rewrite append_assoc, Hi, Hscan. split.
    + reflexivity.
    + rewrite Hitem, Hutf. reflexivity.
Qed.

(** A quoted string is read back, whatever follows it. *)
Lemma parse_string_body_escape s rest :
  parse_string_body (escape s ++ String dq rest) = Some (s, rest).
Proof.
  unfold parse_string_body.
  destruct (scan_escape s rest) as (items & -> & ->). reflexivity.
Qed.

Lemma parse_value_quote s fuel rest :
  parse_value (S fuel) (quote s ++ rest) = Some (Str s, rest).
Proof.
  unfold quote. simpl. rewrite append_assoc. simpl.
  now rewrite parse_string_body_escape.
Qed.

(** ** Values *)

(** Induction on a value, with the hypothesis on every element of an array
    and on every member of an object. *)
Lemma value_induction (P : value -> Prop) :
  P Null ->
  (forall b, P (Bool b)) ->
  (forall literal, P (Number literal)) ->
  (forall s, P (Str s)) ->
  (forall elements, Forall P elements -> P (Array elements)) ->
  (forall members, Forall (fun kv => P (snd kv)) members ->
                   P (Object members)) ->
  forall v, P v.
Proof.
  intros HNull HBool HNumber HStr HArray HObject.
  refine (fix IH (v : value) : P v :=
            match v with
            | Null => HNull
            | Bool b => HBool b
            | Number literal => HNumber literal
            | Str s => HStr s
            | Array elements =>
                HArray elements
                  ((fix all (l : list value) : Forall P l :=
                      match l with
                      | [] => Forall_nil _
                      | x :: l' => Forall_cons _ (IH x) (all l')
                      end) elements)
            | Object members =>
                HObject members
                  ((fix all (l : list (string * value))
                      : Forall (fun kv => P (snd kv)) l :=
                      match l with
                      | [] => Forall_nil _
                      | kv :: l' => Forall_cons _ (IH (snd kv)) (all l')
                      end) members)
            end).
Qed.

(** The text of a value without numbers starts with a character that is
    neither white space nor a closing bracket. *)
Lemma stringify_head v rest :
  number_free v = true ->
  exists c tl, stringify v ++ rest = String c tl /\
               is_ws c = false /\ Ascii.eqb "]" c = false.
Proof.
  destruct v as [|[|]|literal|s|elements|members]; intros Hv;
    try discriminate; simpl; eexists; eexists;
    (split; [reflexivity | split; reflexivity]).
Qed.

(** The unfolding of the three readers by one unit of fuel. *)
Lemma parse_elements_step fuel s :
  parse_elements (S fuel) s =
  match parse_value fuel s with
  | None => None
  | Some (v, r) =>
      match skip_ws r with
      | String c r' =>
          if Ascii.eqb c "," then
            match parse_elements fuel r' with
            | Some (vs, r'') => Some (v :: vs, r'')
            | None => None
            end
          else if Ascii.eqb c "]" then Some ([v], r')
          else None
      | EmptyString => None
      end
  end.
Proof. reflexivity. Qed.

Lemma parse_members_step fuel k s :
  parse_members (S fuel) (quote k ++ String ":" s) =
  match parse_value fuel s with
  | None => None
  | Some (v, r3) =>
      match skip_ws r3 with
      | String c r4 =>
          if Ascii.eqb c "," then
            match parse_members fuel r4 with
            | Some (ms, r5) => Some ((k, v) :: ms, r5)
            | None => None
            end
          else if Ascii.eqb c "}" then Some ([(k, v)], r4)
          else None
      | EmptyString => None
      end
  end.
Proof.
  unfold quote. simpl. rewrite append_assoc. simpl.
  rewrite parse_string_body_escape. reflexivity.
Qed.

Lemma parse_array_step fuel s c tl :
  s = String c tl -> is_ws c = false -> Ascii.eqb "]" c = false ->
  parse_value (S fuel) (String "[" s) =
  match parse_elements fuel s with
  | Some (vs, r) => Some (Array vs, r)
  | None => None
  end.
Proof.
  intros -> Hws Hc. simpl. rewrite Hws. simpl in Hc |- *.
  rewrite Hc. reflexivity.
Qed.

Lemma parse_object_step fuel k s :
  parse_value (S fuel) (String "{" (quote k ++ s)) =
  match parse_members fuel (quote k ++ s) with
  | Some (ms, r) => Some (Object ms, r)
  | None => None
  end.
Proof. reflexivity. Qed.

Local Arguments quote : simpl never.

(** The text of a member of an object. *)
Local Notation member_text :=
  (fun kv : string * value => quote (fst kv) ++ ":" ++ stringify (snd kv)).

(** A value without numbers is read back from its text when the fuel is at
    least the length of the text. *)
Local Notation reads_back v :=
  (number_free v = true ->
   forall fuel rest,
     String.length (stringify v) <= fuel ->
     parse_value fuel (stringify v ++ rest) = Some (v, rest)).

Lemma parse_elements_stringify l :
  Forall (fun v => reads_back v) l ->
  forallb number_free l = true -> l <> [] ->
  forall fuel rest,
    String.length (join "," (map stringify l)) + 1 <= fuel ->
    parse_elements fuel (join "," (map stringify l) ++ String "]" rest) =
    Some (l, rest).
Proof.
  induction 1 as [|v l Hv Hl IH]; intros Hnf Hne fuel rest Hfuel;
    [congruence|].
  simpl in Hnf. apply andb_prop in Hnf. destruct Hnf as [Hnv Hnl].
  destruct fuel as [|fuel]; [lia|].
  rewrite parse_elements_step.
  destruct l as [|v' l'].
  - simpl in Hfuel |- *.
    rewrite (Hv Hnv fuel (String "]" rest)) by lia. reflexivity.
  - change (join "," (map stringify (v :: v' :: l')))
      with (stringify v ++ "," ++ join "," (map stringify (v' :: l')))
      in Hfuel |- *.
    rewrite length_append in Hfuel. simpl String.length in Hfuel.
    rewrite append_assoc. simpl append at 2.
    rewrite (Hv Hnv fuel _) by lia. simpl skip_ws. simpl.
    rewrite (IH Hnl) by (congruence || simpl in *; lia). reflexivity.
Qed.

Lemma parse_members_stringify ms :
  Forall (fun kv => reads_back (snd kv)) ms ->
  forallb (fun kv => number_free (snd kv)) ms = true -> ms <> [] ->
  forall fuel rest,
    String.length (join "," (map member_text ms)) + 1 <= fuel ->
    parse_members fuel (join "," (map member_text ms) ++ String "}" rest) =
    Some (ms, rest).
Proof.
  induction 1 as [|[k v] ms Hv Hms IH]; intros Hnf Hne fuel rest Hfuel;
    [congruence|].
  simpl in Hnf, Hv. apply andb_prop in Hnf. destruct Hnf as [Hnv Hnms].
  destruct fuel as [|fuel]; [lia|].
  destruct ms as [|kv' ms'].
  - change (join "," (map member_text [(k, v)]))
      with (quote k ++ ":" ++ stringify v) in Hfuel |- *.
    rewrite !length_append in Hfuel. simpl String.length in Hfuel.
    rewrite !append_assoc. simpl append at 2.
    rewrite parse_members_step.
    rewrite (Hv Hnv fuel (String "}" rest)) by lia. reflexivity.
  - change (join "," (map member_text ((k, v) :: kv' :: ms')))
      with ((quote k ++ ":" ++ stringify v) ++ ","
              ++ join "," (map member_text (kv' :: ms')))
      in Hfuel |- *.
    rewrite !length_append in Hfuel. simpl String.length in Hfuel.
    rewrite !append_assoc. simpl append at 2.
    rewrite parse_members_step. simpl append at 2.
    rewrite (Hv Hnv fuel _) by lia. simpl skip_ws. simpl.
    rewrite (IH Hnms) by (congruence || simpl in *; lia). reflexivity.
Qed.

Lemma wrap_append (o c : ascii) (body rest : string) :
  (String o EmptyString ++ body ++ String c EmptyString) ++ rest =
  String o (body ++ String c rest).
Proof. simpl. now rewrite append_assoc. Qed.

Lemma wrap_length (o c : ascii) (body : string) :
  String.length (String o EmptyString ++ body ++ String c EmptyString) =
  String.length body + 2.
Proof. simpl. rewrite length_append. simpl. lia. Qed.

Lemma parse_value_stringify v : reads_back v.
Proof.
  induction v as [|[|]|literal|s|elements IH|members IH]
    using value_induction; intros Hnf fuel rest Hfuel;
    try discriminate.
  - destruct fuel as [|fuel]; [simpl in Hfuel; lia | reflexivity].
  - destruct fuel as [|fuel]; [simpl in Hfuel; lia | reflexivity].
  - destruct fuel as [|fuel]; [simpl in Hfuel; lia | reflexivity].
  - destruct fuel as [|fuel]; [simpl in Hfuel; lia|].
    apply parse_value_quote.
  - destruct fuel as [|fuel]; [simpl in Hfuel; lia|].
    destruct elements as [|v l]; [reflexivity|].
    change (stringify (Array (v :: l)))
      with ("[" ++ join "," (map stringify (v :: l)) ++ "]") in Hfuel |- *.
    simpl in Hnf.
    assert (Hv : number_free v = true)
      by (apply andb_prop in Hnf; tauto).
    assert (Hhead : exists c tl,
              join "," (map stringify (v :: l)) ++ String "]" rest =
                String c tl /\
              is_ws c = false /\ Ascii.eqb "]" c = false).
    { destruct l as [|v' l'].
      - apply (stringify_head v _ Hv).
      - change (join "," (map stringify (v :: v' :: l')))
          with (stringify v ++ "," ++ join "," (map stringify (v' :: l'))).
        rewrite append_assoc. apply (stringify_head v _ Hv). }
    destruct Hhead as (c & tl & Etext & Hws & Hc).
    rewrite wrap_append. rewrite wrap_length in Hfuel.
    rewrite (parse_array_step fuel _ c tl Etext Hws Hc).
    rewrite (parse_elements_stringify (v :: l) IH Hnf) by (congruence || lia).
    reflexivity.
  - destruct fuel as [|fuel]; [simpl in Hfuel; lia|].
    destruct members as [|[k v] ms]; [reflexivity|].
    change (stringify (Object ((k, v) :: ms)))
      with ("{" ++ join "," (map member_text ((k, v) :: ms)) ++ "}")
      in Hfuel |- *.
    simpl in Hnf.
    rewrite wrap_append. rewrite wrap_length in Hfuel.
    assert (Estep : parse_value (S fuel)
              (String "{" (join "," (map member_text ((k, v) :: ms))
                             ++ String "}" rest)) =
            match parse_members fuel
                    (join "," (map member_text ((k, v) :: ms))
                       ++ String "}" rest) with
            | Some (ms', r) => Some (Object ms', r)
            | None => None
            end).
    { destruct ms as [|kv' ms'].
      - change (join "," (map member_text [(k, v)]))
          with (quote k ++ ":" ++ stringify v).
        rewrite append_assoc. apply parse_object_step.
      - change (join "," (map member_text ((k, v) :: kv' :: ms')))
          with ((quote k ++ ":" ++ stringify v) ++ ","
                  ++ join "," (map member_text (kv' :: ms'))).
        rewrite !append_assoc. apply parse_object_step. }
    rewrite Estep.
    rewrite (parse_members_stringify ((k, v) :: ms) IH Hnf)
      by (congruence || lia).
    reflexivity.
Qed.

(** What [stringify] writes for a value without numbers, [parse] reads
    back as that value. *)
Lemma parse_stringify v :
  number_free v = true -> parse (stringify v) = Some v.
Proof.
  intros Hnf. unfold parse.
  rewrite <- (append_nil_r (stringify v)) at 2.
  rewrite (parse_value_stringify v Hnf) by lia. reflexivity.
Qed.

End JSONFacts.

(* ================================================================== *)
(** * Properties of the overlay renderer *)
(* ================================================================== *)

Module OverlayFacts.

Import Overlay Samples.
Local Open Scope R_scope.

Section Rendering.

Variable scrollWidth : Span -> R.
Variables W H : R.

(** Everything [renderOCRResults] assigns to the span of an observation it
    keeps. *)
Lemma renderObservation_Some obs sp :
  renderObservation scrollWidth W H obs = Some sp ->
  let bb := boundingBox obs in
  let rotation := calculateRotation obs in
  let width := box_width bb * W + 2 in
  let height := box_height bb * H + 2 in
  let measured := scrollWidth (set_fontSize height sp) in
  10 <= box_width bb * W /\ 8 <= box_height bb * H /\
  className sp = "ocr-text"%string /\ textContent sp = text obs /\
  style_left sp = Some (box_x bb * W - 1) /\
  style_top sp = Some ((1 - box_y bb - box_height bb) * H - 1) /\
  style_width sp = Some width /\
  style_height sp = Some height /\
  style_transform sp =
    (if Rgt_dec (Rabs rotation) (5 / 10) then Some rotation else None) /\
  style_transformOrigin sp =
    (if Rgt_dec (Rabs rotation) (5 / 10) then Some "left top"%string
     else None) /\
  style_fontSize sp =
    Some (if Rle_dec measured width then height
          else Rmax (height * (width / measured)) MIN_FONT_SIZE).
Proof.
  unfold renderObservation, fitTextToWidth, Math_abs, Math_max.
  destruct (Rlt_dec (box_width (boundingBox obs) * W) 10) as [Hw|Hw];
    [discriminate|].
  destruct (Rlt_dec (box_height (boundingBox obs) * H) 8) as [Hh|Hh];
    [discriminate|].
  intros E; injection E as <-.
  destruct (Rgt_dec (Rabs (calculateRotation obs)) (5 / 10));
    cbv zeta; simpl;
    match goal with |- context [Rle_dec ?m ?w] => destruct (Rle_dec m w) end;
    simpl;
    match goal with |- context [Rle_dec ?m ?w] => destruct (Rle_dec m w) end;
    try contradiction;
    repeat split; try reflexivity; lra.
Qed.

(** An observation is skipped exactly when its box is under 10 pixels wide
    or under 8 pixels high. *)
Lemma renderObservation_None obs :
  renderObservation scrollWidth W H obs = None <->
  box_width (boundingBox obs) * W < 10 \/ box_height (boundingBox obs) * H < 8.
Proof.
  unfold renderObservation.
  destruct (Rlt_dec (box_width (boundingBox obs) * W) 10) as [Hw|Hw].
  - tauto.
  - destruct (Rlt_dec (box_height (boundingBox obs) * H) 8) as [Hh|Hh].
    + tauto.
    + split; [discriminate | intros [?|?]; contradiction].
Qed.

(** The geometry of the positioned elements: an element is produced exactly
    for the boxes of at least 10 by 8 pixels, one pixel larger than the
    transformed box on every side. *)
Lemma renderObservation_geometry obs :
  (10 <= box_width (boundingBox obs) * W /\
   8 <= box_height (boundingBox obs) * H
   <-> exists sp, renderObservation scrollWidth W H obs = Some sp) /\
  (forall sp, renderObservation scrollWidth W H obs = Some sp ->
     let bb := boundingBox obs in
     style_left sp = Some (box_x bb * W - 1) /\
     style_top sp = Some ((1 - box_y bb - box_height bb) * H - 1) /\
     style_width sp = Some (box_width bb * W + 2) /\
     style_height sp = Some (box_height bb * H + 2)).
Proof.
  split.
  - split.
    + intros [Hw Hh].
      destruct (renderObservation scrollWidth W H obs) as [sp|] eqn:E.
      * now exists sp.
      * apply renderObservation_None in E. lra.
    + intros [sp E]. apply renderObservation_Some in E. tauto.
  - intros sp E. apply renderObservation_Some in E. cbv zeta in E. tauto.
Qed.

(** The loop appends, in order, the spans of the observations it keeps. *)
Lemma renderLoop_app obss children :
  renderLoop scrollWidth W H obss children =
  children ++ renderLoop scrollWidth W H obss [].
Proof.
  revert children.
  induction obss as [|obs rest IH]; intros children; simpl.
  - now rewrite app_nil_r.
  - destruct (renderObservation scrollWidth W H obs) as [sp|].
    + rewrite IH. rewrite (IH [sp]). now rewrite <- app_assoc.
    + apply IH.
Qed.

Lemma renderLoop_In obss sp :
  In sp (renderLoop scrollWidth W H obss []) <->
  exists obs, In obs obss /\ renderObservation scrollWidth W H obs = Some sp.
Proof.
  induction obss as [|obs rest IH]; simpl.
  - split; [tauto | intros (? & [] & _)].
  - destruct (renderObservation scrollWidth W H obs) as [sp'|] eqn:E.
    + rewrite renderLoop_app. simpl. rewrite IH. split.
      * intros [<-|(o & Ho & Eo)]; [exists obs; auto | exists o; auto].
      * intros (o & [<-|Ho] & Eo).
        -- left. congruence.
        -- right. exists o; auto.
    + rewrite IH. split.
      * intros (o & Ho & Eo). exists o; auto.
      * intros (o & [<-|Ho] & Eo); [congruence | exists o; auto].
Qed.

(** The proportional shrink stays between the floor and the start size. *)
Lemma shrink_bounds h w m :
  8 <= h -> 0 < w -> w < m -> 8 <= Rmax (h * (w / m)) 8 <= h.
Proof.
  intros Hh Hw Hm.
  assert (Hm0 : 0 < m) by lra.
  assert (Hr : w / m < 1).
  { apply Rmult_lt_reg_r with m; [assumption|].
    unfold Rdiv. rewrite Rmult_assoc, Rinv_l by lra. lra. }
  assert (Hr0 : 0 < w / m) by (apply Rdiv_lt_0_compat; assumption).
  split.
  - apply Rmax_r.
  - apply Rmax_lub; [|assumption].
    assert (h * (w / m) <= h * 1) by (apply Rmult_le_compat_l; lra).
    lra.
Qed.

End Rendering.

(** The angle of a vector that points along the x axis is zero. *)
Lemma Math_atan2_0_pos x : 0 < x -> Math_atan2 0 x = 0.
Proof.
  intros Hx. unfold Math_atan2.
  destruct (Rlt_dec 0 x); [|contradiction].
  unfold Rdiv. rewrite Rmult_0_l. apply atan_0.
Qed.

(** C3. For every observation the renderer sizes, the font size that
    [fitTextToWidth] leaves on the span is never under the floor of 8 pixels
    and never over the height of the span, which is the pixel height of the
    box of the observation and two pixels of padding: the start size is
    that padded height, it is kept when the width measured at that size
    fits in the padded width of the box, and otherwise it is multiplied by
    (target width / measured width) and raised to the floor. *)
Theorem fit_size_between_floor_and_height scrollWidth W H obs sp :
  renderObservation scrollWidth W H obs = Some sp ->
  let width := box_width (boundingBox obs) * W + 2 in
  let height := box_height (boundingBox obs) * H + 2 in
  let measured := scrollWidth (set_fontSize height sp) in
  exists size,
    style_fontSize sp = Some size /\
    style_width sp = Some width /\
    style_height sp = Some height /\
    (measured <= width -> size = height) /\
    (width < measured ->
       size = Math_max (height * (width / measured)) MIN_FONT_SIZE) /\
    MIN_FONT_SIZE <= size <= height.
Proof.
  intros E width height measured.
  apply renderObservation_Some in E. cbv zeta in E.
  destruct E as (Hw & Hh & _ & _ & _ & _ & Ew & Eh & _ & _ & Ef).
  fold width height in Ew, Eh, Ef. fold measured in Ef.
  eexists. split; [exact Ef|].
  split; [exact Ew|]. split; [exact Eh|].
  unfold Math_max, MIN_FONT_SIZE.
  destruct (Rle_dec measured width) as [Hfit|Hover].
  - repeat split; intros; subst width height; lra.
  - repeat split; intros; try lra;
      apply (shrink_bounds height width measured); subst width height; lra.
Qed.

(** C6. The rotation of an observation is atan2(-dy, dx) in degrees, for
    (dx, dy) the vector from the top left corner to the top right corner;
    the span of the observation is rotated, about its own top left corner,
    exactly when the magnitude of the angle exceeds half a degree; for the
    axis-aligned corners (0,1) and (1,1) the angle is zero and no rotation
    is applied. *)
Theorem rotation_from_corners scrollWidth W H obs :
  let dx := pt_x (topRight obs) - pt_x (topLeft obs) in
  let dy := pt_y (topRight obs) - pt_y (topLeft obs) in
  let angle := Math_atan2 (- dy) dx * (180 / PI) in
  calculateRotation obs = angle /\
  (forall sp, renderObservation scrollWidth W H obs = Some sp ->
     (Rabs angle > 5 / 10 ->
        style_transform sp = Some angle /\
        style_transformOrigin sp = Some "left top"%string) /\
     (Rabs angle <= 5 / 10 ->
        style_transform sp = None /\ style_transformOrigin sp = None)) /\
  (topLeft obs = mkPoint 0 1 -> topRight obs = mkPoint 1 1 ->
     angle = 0 /\
     forall sp, renderObservation scrollWidth W H obs = Some sp ->
       style_transform sp = None /\ style_transformOrigin sp = None).
Proof.
  intros dx dy angle.
  assert (Hsp : forall sp, renderObservation scrollWidth W H obs = Some sp ->
     (Rabs angle > 5 / 10 ->
        style_transform sp = Some angle /\
        style_transformOrigin sp = Some "left top"%string) /\
     (Rabs angle <= 5 / 10 ->
        style_transform sp = None /\ style_transformOrigin sp = None)).
  { intros sp E. apply renderObservation_Some in E. cbv zeta in E.
    destruct E as (_ & _ & _ & _ & _ & _ & _ & _ & Et & Eo & _).
    change (calculateRotation obs) with angle in Et, Eo.
    destruct (Rgt_dec (Rabs angle) (5 / 10)); split; intros; auto; lra. }
  split; [reflexivity|]. split; [exact Hsp|].
  intros Htl Htr.
  assert (H0 : angle = 0).
  { subst angle dx dy. rewrite Htl, Htr. simpl.
    replace (- (1 - 1)) with 0 by lra. replace (1 - 0) with 1 by lra.
    rewrite Math_atan2_0_pos by lra. lra. }
  split; [exact H0|].
  intros sp E. apply (Hsp sp E). rewrite H0, Rabs_R0. lra.
Qed.

Lemma sample_line_rendered :
  exists sp, renderObservation wide_text 100 100 sample_line = Some sp.
Proof.
  apply (renderObservation_geometry wide_text 100 100 sample_line).
  simpl. lra.
Defined.

(** The sample line is shrunk to the floor: 22 * (52 / 200) is under 8. *)
Lemma fit_size_between_floor_and_height_witness :
  exists sp size,
    renderObservation wide_text 100 100 sample_line = Some sp /\
    style_fontSize sp = Some size /\
    MIN_FONT_SIZE <= size <= 5 / 10 * 100 + 2.
Proof.
  destruct sample_line_rendered as [sp E].
  destruct (fit_size_between_floor_and_height wide_text 100 100 sample_line
              sp E) as (size & Ef & _ & _ & _ & _ & Hb).
  exists sp, size. split; [exact E|]. split; [exact Ef|].
  simpl in Hb. lra.
Defined.

Lemma rotation_from_corners_witness :
  exists sp,
    renderObservation wide_text 100 100 sample_line = Some sp /\
    calculateRotation sample_line = 0 /\
    style_transform sp = None.
Proof.
  destruct sample_line_rendered as [sp E].
  destruct (rotation_from_corners wide_text 100 100 sample_line)
    as (Ec & _ & Haxis).
  destruct (Haxis eq_refl eq_refl) as (H0 & Hsp).
  exists sp. split; [exact E|]. split; [|exact (proj1 (Hsp sp E))].
  rewrite Ec. exact H0.
Defined.

(** C3, as stated, fails on every text that fits: the box of the sample
    line is 20 pixels high on an overlay of 100 by 100 pixels, its text
    measures 10 pixels and fits in the 52 pixels of the span, and the font
    size is 22 pixels, the height of the box and its padding, which is over
    the pixel height of the box. *)
Lemma fitting_text_is_taller_than_its_box :
  exists sp,
    renderObservation narrow_text 100 100 sample_line = Some sp /\
    style_fontSize sp =
      Some (box_height (boundingBox sample_line) * 100 + 2) /\
    box_height (boundingBox sample_line) * 100 <
    box_height (boundingBox sample_line) * 100 + 2.
Proof.
  destruct (proj1 (proj1 (renderObservation_geometry narrow_text 100 100
                            sample_line))) as [sp E]; [simpl; lra|].
  exists sp. split; [exact E|].
  apply renderObservation_Some in E. cbv zeta in E.
  destruct E as (_ & _ & _ & _ & _ & _ & _ & _ & _ & _ & Ef).
  split; [|lra].
  rewrite Ef. unfold narrow_text.
  destruct (Rle_dec 10 (box_width (boundingBox sample_line) * 100 + 2))
    as [_|Hn]; [reflexivity|].
  exfalso. apply Hn. simpl. lra.
Qed.

(** C5. On an overlay of 100 by 100 pixels a result whose only observation
    is 5 pixels wide renders no element, and yet the renderer reports one
    rendered text region: the observation it dropped is counted. *)
Theorem dropped_observation_is_counted :
  renderOCRResults wide_text 100 100 (mkOCRData 100 100 [speck])
                   (mkPage [] []) =
  mkPage [] ["Rendered 1 text regions"%string].
Proof.
  unfold renderOCRResults. simpl.
  assert (E : renderObservation wide_text 100 100 speck = None).
  { apply renderObservation_None. left. simpl. lra. }
  rewrite E. reflexivity.
Qed.

End OverlayFacts.

(* ================================================================== *)
(** * Properties of the capture worker *)
(* ================================================================== *)

Module WorkerFacts.

Import Worker Samples.
Local Open Scope string_scope.

(** ** What each piece prints *)

Lemma sendError_shape type message :
  sendError type message = [Print (mkResponse type false None (Some message))].
Proof. reflexivity. Qed.

Lemma sendSuccess_shape type data :
  sendSuccess type data = [Print (mkResponse type true (Some data) None)].
Proof. reflexivity. Qed.

(** [performOCR] prints one scan response, a success with data and no
    error or a failure with an error and no data. *)
Lemma performOCR_one world cgImage languages bounds :
  exists r, performOCR world cgImage languages bounds = [Print r] /\
            type r = "scan" /\ exactly_one_of r = true.
Proof.
  unfold performOCR.
  destruct (performRequest world cgImage languages) as [d|[results|]];
    eexists; (split; [reflexivity|]); split; reflexivity.
Qed.

(** A scan task prints one scan response, whatever the platform answers. *)
Lemma runScanTask_one world self t :
  exists r, runScanTask world self t = [Print r] /\
            type r = "scan" /\ exactly_one_of r = true.
Proof.
  unfold runScanTask.
  destruct (captureImage world (task_filter t) _) as [d|image].
  - eexists. split; [reflexivity|]. split; reflexivity.
  - apply performOCR_one.
Qed.

Lemma decodeCommand_empty : decodeCommand EmptyString = None.
Proof. reflexivity. Qed.

Lemma decoded_line_not_empty line c :
  decodeCommand line = Some c -> String.eqb line EmptyString = false.
Proof.
  intros E. destruct (String.eqb_spec line EmptyString) as [->|]; [|reflexivity].
  rewrite decodeCommand_empty in E. discriminate.
Qed.

(** A line that decodes is handed to [handleCommand]. *)
Lemma dispatch_command world self line c :
  decodeCommand line = Some c ->
  dispatch world self (StdinLine line) = handleCommand self c.
Proof.
  intros E. simpl. rewrite (decoded_line_not_empty line c E), E. reflexivity.
Qed.

Lemma printed_app (a b : list Effect) :
  printed (a ++ b) = (printed a ++ printed b)%list.
Proof.
  induction a as [|e a IH]; simpl; [reflexivity|].
  destruct e; simpl; now rewrite IH.
Qed.

(** ** The invariant of the responses *)

Lemma all_exactly_one_of_app a b :
  all_exactly_one_of a -> all_exactly_one_of b -> all_exactly_one_of (a ++ b).
Proof.
  unfold all_exactly_one_of. intros Ha Hb.
  rewrite printed_app. apply Forall_app. now split.
Qed.

Lemma sendError_ok type message : all_exactly_one_of (sendError type message).
Proof. repeat constructor. Qed.

Lemma sendSuccess_ok type data : all_exactly_one_of (sendSuccess type data).
Proof. repeat constructor. Qed.

Lemma silent_ok effects : printed effects = [] -> all_exactly_one_of effects.
Proof. unfold all_exactly_one_of. intros ->. constructor. Qed.

Lemma executeScan_ok self command :
  all_exactly_one_of (fst (executeScan self command)).
Proof.
  unfold executeScan. destruct (currentFilter self); simpl.
  - now apply silent_ok.
  - apply sendError_ok.
Qed.

Lemma handleCommand_ok self command :
  all_exactly_one_of (fst (snd (handleCommand self command))).
Proof.
  unfold handleCommand.
  destruct (String.eqb (action command) "pick"); [now apply silent_ok|].
  destruct (String.eqb (action command) "scan").
  - destruct (currentFilter (set_pendingCommand (Some command) self)); simpl.
    + apply executeScan_ok.
    + now apply silent_ok.
  - destruct (String.eqb (action command) "quit"); [now apply silent_ok|].
    apply sendError_ok.
Qed.

Lemma dispatch_ok world self ev :
  all_exactly_one_of (fst (snd (dispatch world self ev))).
Proof.
  destruct ev as [line| | |d|filter]; simpl.
  - destruct (String.eqb line EmptyString); [now apply silent_ok|].
    destruct (decodeCommand line).
    + apply handleCommand_ok.
    + apply sendError_ok.
  - now apply silent_ok.
  - apply sendError_ok.
  - apply sendError_ok.
  - unfold contentSharingPicker_didUpdateWith. simpl.
    destruct (pendingCommand self); simpl.
    + apply (all_exactly_one_of_app (sendSuccess _ _) []);
        [apply sendSuccess_ok | now apply silent_ok].
    + apply sendSuccess_ok.
Qed.

Lemma tasks_ok world self tasks :
  all_exactly_one_of (flat_map (runScanTask world self) tasks).
Proof.
  induction tasks as [|t tasks IH]; simpl.
  - now apply silent_ok.
  - apply all_exactly_one_of_app; [|exact IH].
    destruct (runScanTask_one world self t) as (r & -> & _ & Hr).
    repeat constructor. exact Hr.
Qed.

Lemma react_ok world self ev : all_exactly_one_of (snd (react world self ev)).
Proof.
  unfold react. pose proof (dispatch_ok world self ev) as Hd.
  destruct (dispatch world self ev) as [self' [out tasks]]. simpl in *.
  apply all_exactly_one_of_app; [exact Hd | apply tasks_ok].
Qed.

Lemma run_ok events : forall self, all_exactly_one_of (snd (run self events)).
Proof.
  induction events as [|[world ev] events IH]; intros self; simpl.
  - now apply silent_ok.
  - pose proof (react_ok world self ev) as Hr.
    destruct (react world self ev) as [self' effects]. simpl in Hr.
    destruct (existsb isTerminate effects); [exact Hr|].
    specialize (IH self').
    destruct (run self' events) as [self'' effects']. simpl in *.
    now apply all_exactly_one_of_app.
Qed.

(** C9. Every response the worker prints, from the ready message on and
    whatever the events and the answers of the platform, is either a success
    with data and no error or a failure with an error and no data. *)
Theorem responses_have_exactly_one_of events :
  Forall (fun r => success r = true /\ data r <> None /\ error r = None \/
                   success r = false /\ error r <> None /\ data r = None)
         (printed (snd (main events))).
Proof.
  assert (H : all_exactly_one_of (snd (main events))).
  { unfold main. simpl.
    pose proof (run_ok events (mkAppDelegate None None None)) as Hr.
    destruct (run (mkAppDelegate None None None) events) as [self effects].
    simpl in *.
    apply (all_exactly_one_of_app [_]); [apply sendSuccess_ok | exact Hr]. }
  unfold all_exactly_one_of in H.
  eapply Forall_impl; [|exact H].
  intros r. unfold exactly_one_of.
  destruct (success r), (data r), (error r); try discriminate; intros _.
  - left. repeat split. discriminate.
  - right. repeat split. discriminate.
Qed.

(** C7. A line that decodes to a command whose action is none of pick,
    scan and quit is answered by an error response that names the action; a
    line that is not empty and does not decode is answered by an error
    response; an empty line is skipped without a response; in all three
    cases the delegate is left as it was.  The command with action foo is
    answered by the error Unknown action: foo. *)
Theorem unknown_action_or_unreadable_line world self line :
  (forall c, decodeCommand line = Some c ->
     action c <> "pick" -> action c <> "scan" -> action c <> "quit" ->
     react world self (StdinLine line) =
     (self, [Print (mkResponse "error" false None
                               (Some ("Unknown action: " ++ action c)))])) /\
  (decodeCommand line = None -> line <> EmptyString ->
     react world self (StdinLine line) =
     (self, [Print (mkResponse "error" false None
                               (Some "Invalid JSON command"))])) /\
  (line = EmptyString -> react world self (StdinLine line) = (self, [])) /\
  react world self (StdinLine foo_line) =
  (self, [Print (mkResponse "error" false None (Some "Unknown action: foo"))]).
Proof.
  assert (Hunknown : forall l c, decodeCommand l = Some c ->
     action c <> "pick" -> action c <> "scan" -> action c <> "quit" ->
     react world self (StdinLine l) =
     (self, [Print (mkResponse "error" false None
                               (Some ("Unknown action: " ++ action c)))])).
  { intros l c E Hp Hs Hq. unfold react.
    rewrite (dispatch_command world self l c E). unfold handleCommand.
    apply String.eqb_neq in Hp, Hs, Hq. rewrite Hp, Hs, Hq. reflexivity. }
  split; [apply Hunknown|]. split; [|split].
  - intros E Hne. unfold react. simpl.
    apply String.eqb_neq in Hne. rewrite Hne, E. reflexivity.
  - intros ->. reflexivity.
  - apply (Hunknown foo_line foo_command); [reflexivity| | |]; discriminate.
Qed.

(** C7, as stated, fails on the empty line: it does not decode to a
    command, and the worker prints nothing for it. *)
Lemma empty_line_gets_no_response :
  decodeCommand EmptyString = None /\
  react blind_world fresh_worker (StdinLine EmptyString) = (fresh_worker, []).
Proof. split; reflexivity. Qed.

(** ** The pending scan *)

(** A successful pick, seen from a delegate with a pending command: the
    pick response, then the response of the scan run on the new target. *)
Lemma pick_success_with_pending world self filter pending :
  pendingCommand self = Some pending ->
  let self' := mkAppDelegate (Some filter)
                 (findWindowID world (contentRect filter)) None in
  exists pickResponse scanResponse,
    react world self (PickerDidUpdate filter) =
      (self', [Print pickResponse; Print scanResponse]) /\
    pickResponse =
      mkResponse "pick" true
        (Some (windowSelected
                 (mkWindowSelectedData
                    (findWindowID world (contentRect filter)) None None
                    (Some (boundsOfRect (contentRect filter))))))
        None /\
    runScanTask world self' (mkScanTask filter pending) =
      [Print scanResponse] /\
    type scanResponse = "scan".
Proof.
  intros Hp self'.
  destruct (runScanTask_one world self' (mkScanTask filter pending))
    as (r & Er & Tr & _).
  eexists. exists r. split; [|split; [reflexivity|split; assumption]].
  assert (Ed : dispatch world self (PickerDidUpdate filter) =
               (self', (sendSuccess "pick"
                          (windowSelected
                             (mkWindowSelectedData
                                (findWindowID world (contentRect filter))
                                None None
                                (Some (boundsOfRect (contentRect filter))))),
                        [mkScanTask filter pending]))).
  { unfold dispatch, contentSharingPicker_didUpdateWith, executeScan.
    cbn [pendingCommand currentFilter currentWindowID]. rewrite Hp.
    reflexivity. }
  unfold react. rewrite Ed. cbn [flat_map]. rewrite app_nil_r, Er.
  reflexivity.
Qed.

(** C1. A worker without a target that reads a scan command records it as
    pending and presents the picker.  If the pick then succeeds, the worker
    prints the pick success and then, with no further input, the response of
    the scan run on the new target, and the pending record is cleared; if
    the pick is cancelled or fails to start, the worker prints the pick
    failure alone and the pending record is dropped. *)
Theorem scan_without_target world self line c :
  currentFilter self = None ->
  decodeCommand line = Some c ->
  action c = "scan" ->
  let waiting := set_pendingCommand (Some c) self in
  react world self (StdinLine line) = (waiting, [PresentPicker]) /\
  pendingCommand waiting = Some c /\
  (forall world' filter,
     exists self' pickResponse scanResponse,
       react world' waiting (PickerDidUpdate filter) =
         (self', [Print pickResponse; Print scanResponse]) /\
       type pickResponse = "pick" /\ success pickResponse = true /\
       type scanResponse = "scan" /\
       runScanTask world' self' (mkScanTask filter c) = [Print scanResponse] /\
       currentFilter self' = Some filter /\
       pendingCommand self' = None) /\
  (forall world',
     exists self' pickResponse,
       react world' waiting PickerDidCancel = (self', [Print pickResponse]) /\
       type pickResponse = "pick" /\ success pickResponse = false /\
       currentFilter self' = None /\ pendingCommand self' = None) /\
  (forall world' description,
     exists self' pickResponse,
       react world' waiting (PickerStartDidFail description) =
         (self', [Print pickResponse]) /\
       type pickResponse = "pick" /\ success pickResponse = false /\
       currentFilter self' = None /\ pendingCommand self' = None).
Proof.
  intros Hnone E Hscan waiting.
  split; [|split; [reflexivity|split; [|split]]].
  - unfold react. rewrite (dispatch_command world self line c E).
    unfold handleCommand. rewrite Hscan. simpl. rewrite Hnone. reflexivity.
  - intros world' filter.
    destruct (pick_success_with_pending world' waiting filter c eq_refl)
      as (rp & rs & Er & -> & Et & Ts).
    do 2 eexists. exists rs. split; [exact Er|]. now repeat split.
  - intros world'. eexists. eexists. split; [reflexivity|].
    simpl. now repeat split.
  - intros world' d. eexists. eexists. split; [reflexivity|].
    simpl. now repeat split.
Qed.

Lemma scan_without_target_witness :
  react blind_world fresh_worker (StdinLine scan_line) =
    (set_pendingCommand (Some scan_command) fresh_worker, [PresentPicker]) /\
  exists self' pickResponse scanResponse,
    react blind_world (set_pendingCommand (Some scan_command) fresh_worker)
          (PickerDidUpdate some_filter) =
      (self', [Print pickResponse; Print scanResponse]) /\
    type scanResponse = "scan".
Proof.
  destruct (scan_without_target blind_world fresh_worker scan_line
              scan_command eq_refl eq_refl eq_refl)
    as (Hfirst & _ & Hpick & _).
  split; [exact Hfirst|].
  destruct (Hpick blind_world some_filter)
    as (self' & rp & rs & Er & _ & _ & Ts & _).
  exists self', rp, rs. split; [exact Er | exact Ts].
Defined.

(** C4. A worker with a target that reads a scan command sets the pending
    command, runs the scan at once and leaves the pending command set.  A
    pick command read later presents the picker, and when that pick
    succeeds the worker prints the pick success and then runs the stale
    scan again on the new target, printing one more scan response; only
    then is the pending command cleared. *)
Theorem stale_pending_scan_runs_again world self target line c :
  currentFilter self = Some target ->
  decodeCommand line = Some c ->
  action c = "scan" ->
  let stale := set_pendingCommand (Some c) self in
  (exists scanResponse,
     react world self (StdinLine line) = (stale, [Print scanResponse]) /\
     type scanResponse = "scan" /\
     runScanTask world stale (mkScanTask target c) = [Print scanResponse]) /\
  pendingCommand stale = Some c /\
  (forall world' line' c',
     decodeCommand line' = Some c' -> action c' = "pick" ->
     react world' stale (StdinLine line') = (stale, [PresentPicker])) /\
  (forall world' filter,
     exists self' pickResponse scanResponse,
       react world' stale (PickerDidUpdate filter) =
         (self', [Print pickResponse; Print scanResponse]) /\
       type pickResponse = "pick" /\ success pickResponse = true /\
       type scanResponse = "scan" /\
       runScanTask world' self' (mkScanTask filter c) = [Print scanResponse] /\
       pendingCommand self' = None).
Proof.
  intros Htarget E Hscan stale.
  split; [|split; [reflexivity|split]].
  - destruct (runScanTask_one world stale (mkScanTask target c))
      as (r & Er & Tr & _).
    exists r. split; [|split; assumption].
    assert (Ed : dispatch world self (StdinLine line) =
                 (stale, ([], [mkScanTask target c]))).
    { rewrite (dispatch_command world self line c E).
      unfold handleCommand, executeScan. rewrite Hscan.
      cbn [String.eqb Ascii.eqb Bool.eqb currentFilter set_pendingCommand].
      rewrite Htarget. reflexivity. }
    unfold react. rewrite Ed. cbn [flat_map app]. rewrite app_nil_r, Er.
    reflexivity.
  - intros world' line' c' E' Hpick.
    unfold react. rewrite (dispatch_command world' stale line' c' E').
    unfold handleCommand. rewrite Hpick. reflexivity.
  - intros world' filter.
    destruct (pick_success_with_pending world' stale filter c eq_refl)
      as (rp & rs & Er & -> & Et & Ts).
    do 2 eexists. exists rs. split; [exact Er|]. now repeat split.
Qed.

Lemma stale_pending_scan_runs_again_witness :
  pendingCommand
    (fst (react blind_world aimed_worker (StdinLine scan_line))) =
    Some scan_command /\
  react blind_world (set_pendingCommand (Some scan_command) aimed_worker)
        (StdinLine pick_line) =
    (set_pendingCommand (Some scan_command) aimed_worker, [PresentPicker]) /\
  exists self' pickResponse scanResponse,
    react blind_world (set_pendingCommand (Some scan_command) aimed_worker)
          (PickerDidUpdate some_filter) =
      (self', [Print pickResponse; Print scanResponse]) /\
    type pickResponse = "pick" /\ type scanResponse = "scan".
Proof.
  destruct (stale_pending_scan_runs_again blind_world aimed_worker some_filter
              scan_line scan_command eq_refl eq_refl eq_refl)
    as ((r & Er & _) & _ & Hpick & Hupdate).
  split; [rewrite Er; reflexivity|].
  split; [exact (Hpick blind_world pick_line pick_command eq_refl eq_refl)|].
  destruct (Hupdate blind_world some_filter)
    as (self' & rp & rs & Eu & Tp & _ & Ts & _).
  exists self', rp, rs. now repeat split.
Defined.

End WorkerFacts.

(* ================================================================== *)
(** * The command codec, from the bridge to the worker *)
(* ================================================================== *)

Module CodecFacts.

Import JSON JSONFacts.
Local Open Scope string_scope.
Local Arguments quote : simpl never.

(** ** Lines *)

Lemma mentions_append a s t :
  mentions a (s ++ t) = mentions a s || mentions a t.
Proof.
  induction s as [|c s IH]; simpl; [reflexivity|].
  now rewrite IH, orb_assoc.
Qed.

(** No escaped character holds a line feed. *)
Lemma escape_char_no_lf c : mentions "010" (escape_char c) = false.
Proof.
  destruct c as [b0 b1 b2 b3 b4 b5 b6 b7].
  destruct b0, b1, b2, b3, b4, b5, b6, b7; reflexivity.
Qed.

Lemma quote_no_lf s : mentions "010" (quote s) = false.
Proof.
  unfold quote. simpl. rewrite mentions_append. simpl.
  rewrite orb_false_r.
  induction s as [|c s IH]; simpl; [reflexivity|].
  now rewrite mentions_append, escape_char_no_lf, IH.
Qed.

Lemma join_no_lf parts :
  Forall (fun p => mentions "010" p = false) parts ->
  mentions "010" (join "," parts) = false.
Proof.
  induction 1 as [|p parts Hp Hparts IH]; [reflexivity|].
  destruct parts as [|q parts]; [exact Hp|].
  change (join "," (p :: q :: parts)) with (p ++ "," ++ join "," (q :: parts)).
  rewrite !mentions_append, Hp, IH. reflexivity.
Qed.

Lemma wrap_no_lf (o c : ascii) body :
  Ascii.eqb o "010" = false -> Ascii.eqb c "010" = false ->
  mentions "010" body = false ->
  mentions "010" (String o EmptyString ++ body ++ String c EmptyString) =
  false.
Proof.
  intros Ho Hc Hb. rewrite !mentions_append. cbn [mentions].
  now rewrite Ho, Hc, Hb.
Qed.

(** The text of a value without numbers is one line. *)
Lemma stringify_no_lf v :
  number_free v = true -> mentions "010" (stringify v) = false.
Proof.
  induction v as [|[|]|literal|s|elements IH|members IH]
    using value_induction; intros Hnf; try reflexivity; try discriminate.
  - apply quote_no_lf.
  - change (stringify (Array elements))
      with ("[" ++ join "," (map stringify elements) ++ "]").
    apply wrap_no_lf; [reflexivity..|].
    apply join_no_lf. cbn [number_free] in Hnf.
    rewrite forallb_forall in Hnf. rewrite Forall_forall in IH |- *.
    intros p Hp. apply in_map_iff in Hp. destruct Hp as (v & <- & Hin).
    apply IH; auto.
  - change (stringify (Object members))
      with ("{" ++ join ","
                   (map (fun kv => quote (fst kv) ++ ":" ++ stringify (snd kv))
                        members) ++ "}").
    apply wrap_no_lf; [reflexivity..|].
    apply join_no_lf. cbn [number_free] in Hnf.
    rewrite forallb_forall in Hnf. rewrite Forall_forall in IH |- *.
    intros p Hp. apply in_map_iff in Hp. destruct Hp as (kv & <- & Hin).
    cbv beta. rewrite !mentions_append, quote_no_lf. cbn [mentions orb].
    rewrite (IH kv Hin (Hnf kv Hin)). reflexivity.
Qed.

Lemma takeLine_one_line s rest :
  mentions "010" s = false ->
  Worker.takeLine (s ++ String "010" rest) = (s, Some rest).
Proof.
  induction s as [|c s IH]; simpl; [reflexivity|].
  intros H. apply orb_false_elim in H. destruct H as [Hc Hs].
  rewrite Hc, (IH Hs). reflexivity.
Qed.

Lemma dropLastCR_closed body c :
  Ascii.eqb c "013" = false ->
  Worker.dropLastCR (body ++ String c EmptyString) =
  body ++ String c EmptyString.
Proof.
  intros Hc. induction body as [|x body IH].
  - simpl. now rewrite Hc.
  - change ((String x body) ++ String c EmptyString)
      with (String x (body ++ String c EmptyString)).
    destruct body as [|y body]; simpl in *.
    + now rewrite Hc.
    + now rewrite IH.
Qed.

(** The line [sendCommand] writes for an object without numbers comes out
    of [readLine] as the text of the object, with nothing left. *)
Lemma readLine_wireLine members :
  number_free (Object members) = true ->
  Worker.readLine (Bridge.wireLine (Object members)) =
  Some (stringify (Object members), EmptyString).
Proof.
  intros Hnf. unfold Bridge.wireLine, Worker.readLine.
  rewrite (takeLine_one_line _ EmptyString (stringify_no_lf _ Hnf)).
  change (stringify (Object members))
    with ("{" ++ join ","
                 (map (fun kv => quote (fst kv) ++ ":" ++ stringify (snd kv))
                      members) ++ "}").
  rewrite <- append_assoc.
  now rewrite dropLastCR_closed by reflexivity.
Qed.

(** ** Commands *)

Lemma decodeStrings_Str l :
  Worker.decodeStrings (map Str l) = Some l.
Proof.
  induction l as [|s l IH]; simpl; [reflexivity | now rewrite IH].
Qed.

Lemma number_free_Str l : forallb number_free (map Str l) = true.
Proof. induction l as [|s l IH]; simpl; auto. Qed.

Lemma number_free_commandObject action options :
  number_free (Bridge.commandObject action options) = true.
Proof.
  destruct options as [[path|] [tags|]]; simpl;
    rewrite ?number_free_Str; reflexivity.
Qed.

(** The typed decoding of the object the bridge builds for a command. *)
Lemma Command_init_from_commandObject c :
  Worker.Command_init_from
    (Bridge.commandObject (Worker.action c)
       (Bridge.mkScanOptions (Worker.saveTo c) (Worker.languages c))) =
  Some c.
Proof.
  destruct c as [a [tags|] [path|]]; simpl;
    unfold Worker.decodeIfPresent; simpl;
    rewrite ?decodeStrings_Str; reflexivity.
Qed.

(** C8. For every command, whatever its action (pick, scan and quit
    included), its list of language tags and its path, when present: the
    line the bridge writes for it comes out of [readLine] whole and not
    empty, and the worker decodes it to a command with the same action,
    the same languages in the same order and the same path. *)
Theorem command_round_trip (c : Worker.Command) :
  let command :=
    Bridge.commandObject (Worker.action c)
      (Bridge.mkScanOptions (Worker.saveTo c) (Worker.languages c)) in
  exists line,
    Worker.readLine (Bridge.wireLine command) = Some (line, EmptyString) /\
    line <> EmptyString /\
    Worker.decodeCommand line = Some c.
Proof.
  intros command. exists (stringify command).
  pose proof (number_free_commandObject (Worker.action c)
                (Bridge.mkScanOptions (Worker.saveTo c) (Worker.languages c)))
    as Hnf.
  fold command in Hnf.
  split; [|split].
  - apply readLine_wireLine. exact Hnf.
  - discriminate.
  - unfold Worker.decodeCommand. rewrite (parse_stringify command Hnf).
    apply Command_init_from_commandObject.
Qed.

(** ** The order of the properties *)

(** The properties of the object may come in any order: [{ action: 'scan',
    ...options }] writes those of [options] in the order in which the
    caller set them. *)
Lemma lookup_Permutation key ms ms' :
  NoDup (map fst ms) -> Permutation ms ms' -> lookup key ms = lookup key ms'.
Proof.
  intros Hnd Hp. induction Hp as [|[k v] l l' Hp IH|[k1 v1] [k2 v2] l|l l' l'' H1 IH1 H2 IH2].
  - reflexivity.
  - simpl. destruct (String.eqb k key); [reflexivity|].
    apply IH. now inversion Hnd.
  - simpl. destruct (String.eqb_spec k1 key) as [E1|_];
      destruct (String.eqb_spec k2 key) as [E2|_]; try reflexivity.
    subst. simpl in Hnd. inversion Hnd as [|? ? Hnotin _]; subst.
    exfalso. apply Hnotin. now left.
  - rewrite IH1 by assumption. apply IH2.
    apply (Permutation_NoDup (Permutation_map fst H1) Hnd).
Qed.

Lemma number_free_Permutation ms ms' :
  Permutation ms ms' ->
  number_free (Object ms) = true -> number_free (Object ms') = true.
Proof.
  intros Hp. cbn [number_free]. rewrite !forallb_forall.
  intros H kv Hin. apply H. apply (Permutation_in kv (Permutation_sym Hp) Hin).
Qed.

Lemma commandObject_keys action options :
  exists ms, Bridge.commandObject action options = Object ms /\
             NoDup (map fst ms).
Proof.
  destruct options as [[path|] [tags|]]; eexists; (split; [reflexivity|]);
    simpl; repeat constructor; simpl; intuition discriminate.
Qed.

(** The round trip of a command does not depend on the order in which the
    bridge writes the properties of the object. *)
Lemma command_round_trip_any_order (c : Worker.Command) ms ms' :
  Bridge.commandObject (Worker.action c)
    (Bridge.mkScanOptions (Worker.saveTo c) (Worker.languages c)) =
    Object ms ->
  Permutation ms ms' ->
  Worker.readLine (Bridge.wireLine (Object ms')) =
    Some (stringify (Object ms'), EmptyString) /\
  Worker.decodeCommand (stringify (Object ms')) = Some c.
Proof.
  intros Eobj Hp.
  pose proof (number_free_commandObject (Worker.action c)
                (Bridge.mkScanOptions (Worker.saveTo c) (Worker.languages c)))
    as Hnf.
  pose proof (Command_init_from_commandObject c) as Hinit.
  destruct (commandObject_keys (Worker.action c)
              (Bridge.mkScanOptions (Worker.saveTo c) (Worker.languages c)))
    as (ms0 & E0 & Hnd).
  rewrite Eobj in Hnf, Hinit, E0. injection E0 as <-.
  assert (Hnf' : number_free (Object ms') = true)
    by (apply (number_free_Permutation ms ms' Hp Hnf)).
  split.
  - now apply readLine_wireLine.
  - unfold Worker.decodeCommand. rewrite (parse_stringify _ Hnf').
    revert Hinit. unfold Worker.Command_init_from, Worker.decodeIfPresent.
    now rewrite !(lookup_Permutation _ ms ms' Hnd Hp).
Qed.

End CodecFacts.

(* ================================================================== *)
(** * Properties of the bridge *)
(* ================================================================== *)

Module BridgeFacts.

Import Bridge Samples.
Local Open Scope string_scope.
Local Open Scope N_scope.

(** ** Promises settle once *)

Lemma resolve_settled {A : Type} (v : A) (c : Call A) :
  promise c <> Pending -> promise (resolve v c) = promise c.
Proof.
  unfold resolve. intros H.
  destruct (promise c) eqn:E; congruence.
Qed.

Lemma reject_settled {A : Type} m (c : Call A) :
  promise c <> Pending -> promise (reject m c) = promise c.
Proof.
  unfold reject. intros H.
  destruct (promise c) eqn:E; congruence.
Qed.

Section Steps.

Context {A : Type}.
Variable on_timeout : Call A -> Call A.
Variable handler : CLIResponse -> Call A -> Call A.

(** A call whose handler is removed and whose timer is cleared is deaf to
    everything the event loop brings. *)
Lemma step_deaf c ev :
  listening c = false -> timer c = None -> step on_timeout handler c ev = c.
Proof.
  intros Hl Ht. unfold step, run_timers, emit. rewrite Ht.
  destruct (snd ev); [rewrite Hl|]; reflexivity.
Qed.

Lemma run_deaf events : forall c,
  listening c = false -> timer c = None ->
  fold_left (step on_timeout handler) events c = c.
Proof.
  induction events as [|ev events IH]; intros c Hl Ht; simpl.
  - reflexivity.
  - rewrite step_deaf by assumption. now apply IH.
Qed.

End Steps.

(** ** [pick] *)

Lemma pick_started this written now :
  stdin this = Some written ->
  snd (pick this now) = mkCall Pending true (Some (now + PICK_TIMEOUT)).
Proof.
  intros Hs. unfold pick, start_call, sendCommand. rewrite Hs. reflexivity.
Qed.

(** Without a worker process the promise of [pick] is rejected at once. *)
Lemma pick_without_process now :
  promise (snd (pick (mkOCRBridge None) now)) = Rejected "CLI not started".
Proof. reflexivity. Qed.

Lemma pick_step_early due t input :
  t < due -> no_pick_response (t, input) ->
  pick_step (mkCall Pending true (Some due)) (t, input) =
  mkCall Pending true (Some due).
Proof.
  intros Ht Hn. unfold pick_step, step, run_timers. simpl.
  destruct (N.leb_spec due t) as [Hle|_]; [lia|].
  destruct input as [r|]; [|reflexivity].
  unfold emit, pick_handler. simpl.
  specialize (Hn r eq_refl). apply String.eqb_neq in Hn. now rewrite Hn.
Qed.

Lemma pick_step_late due t input :
  due <= t ->
  pick_step (mkCall Pending true (Some due)) (t, input) =
  mkCall (Rejected "Window selection timed out") false None.
Proof.
  intros Ht. unfold pick_step, step, run_timers. simpl.
  destruct (N.leb_spec due t) as [_|Hlt]; [|lia].
  destruct input; reflexivity.
Qed.

Lemma pick_run_timed_out events :
  pick_run (mkCall (Rejected "Window selection timed out") false None) events =
  mkCall (Rejected "Window selection timed out") false None.
Proof. now apply run_deaf. Qed.

Lemma pick_run_without_pick due events :
  Forall no_pick_response events ->
  (Forall (fun ev => fst ev < due) events ->
   pick_run (mkCall Pending true (Some due)) events =
   mkCall Pending true (Some due)) /\
  (pick_run (mkCall Pending true (Some due)) events =
     mkCall Pending true (Some due) \/
   pick_run (mkCall Pending true (Some due)) events =
     mkCall (Rejected "Window selection timed out") false None).
Proof.
  induction 1 as [|[t input] events Hn _ IH]; simpl.
  - auto.
  - destruct (N.lt_ge_cases t due) as [Hlt|Hge].
    + unfold pick_run in *. simpl.
      rewrite (pick_step_early due t input Hlt Hn).
      split; [|tauto].
      intros Hall. inversion Hall; subst. tauto.
    + unfold pick_run in *. simpl.
      rewrite (pick_step_late due t input Hge).
      fold (pick_run (mkCall (Rejected "Window selection timed out") false None)
                     events).
      rewrite pick_run_timed_out. split; [|tauto].
      intros Hall. inversion Hall; subst. simpl in *. lia.
Qed.

(** C10. On a bridge whose worker process runs, a call of [pick] that gets
    no pick response stays pending as long as the clock is under 60 000
    milliseconds after the call, and is rejected with the time-out error as
    soon as the event loop runs at or after that time; from then on the
    handler is removed and the timer gone, so that whatever arrives later,
    a pick response included, leaves the call as it is.  Without a worker
    process the call is rejected at once. *)
Theorem pick_rejects_when_the_timeout_elapses this written now events :
  stdin this = Some written ->
  Forall no_pick_response events ->
  let call := snd (pick this now) in
  let due := now + 60000 in
  (Forall (fun ev => fst ev < due) events ->
     promise (pick_run call events) = Pending) /\
  (forall t input later, due <= t ->
     pick_run call (events ++ (t, input) :: later) =
     mkCall (Rejected "Window selection timed out") false None) /\
  promise (snd (pick (mkOCRBridge None) now)) = Rejected "CLI not started".
Proof.
  intros Hs Hn call due.
  assert (Ec : call = mkCall Pending true (Some due))
    by (apply (pick_started this written now Hs)).
  rewrite Ec.
  destruct (pick_run_without_pick due events Hn) as [Hearly Hany].
  split; [|split; [|reflexivity]].
  - intros Hall. now rewrite (Hearly Hall).
  - intros t input later Ht. unfold pick_run in *.
    rewrite fold_left_app. simpl.
    destruct Hany as [-> | ->].
    + rewrite (pick_step_late due t input Ht). now apply run_deaf.
    + unfold pick_step. rewrite step_deaf by reflexivity. now apply run_deaf.
Qed.

Lemma pick_without_pick_sample :
  Forall no_pick_response [(100, Emit ready_response); (59999, Idle)].
Proof.
  repeat constructor; intros r E; simpl in E; [|discriminate].
  injection E as <-. discriminate.
Defined.

Lemma pick_rejects_when_the_timeout_elapses_witness :
  promise (pick_run (snd (pick started_bridge 0))
                    [(100, Emit ready_response); (59999, Idle)]) = Pending /\
  pick_run (snd (pick started_bridge 0))
           ([(100, Emit ready_response); (59999, Idle)]
              ++ [(60000, Idle); (60001, Emit pick_failed_silently)]) =
  mkCall (Rejected "Window selection timed out") false None.
Proof.
  destruct (pick_rejects_when_the_timeout_elapses started_bridge [] 0
              [(100, Emit ready_response); (59999, Idle)] eq_refl
              pick_without_pick_sample) as (Hearly & Hlate & _).
  split.
  - apply Hearly. repeat constructor.
  - apply (Hlate 60000 Idle [(60001, Emit pick_failed_silently)]).
    vm_compute. discriminate.
Defined.

(** ** [scan] *)

Lemma scan_started this written now options :
  stdin this = Some written ->
  snd (scan this now options) =
  mkCall Pending true (Some (now + SCAN_TIMEOUT)).
Proof.
  intros Hs. unfold scan, start_call, sendCommand. rewrite Hs. reflexivity.
Qed.

Lemma scan_step_in_passing due ev :
  in_passing due ev ->
  scan_step (mkCall Pending true (Some due)) ev =
  mkCall Pending true (Some due).
Proof.
  destruct ev as [t input]. intros [Ht Hr]. simpl in Ht.
  unfold scan_step, step, run_timers. simpl.
  destruct (N.leb_spec due t) as [Hle|_]; [lia|].
  destruct input as [r|]; [|reflexivity].
  destruct (Hr r eq_refl) as [Hscan Hpick].
  unfold emit, scan_handler. simpl.
  apply String.eqb_neq in Hscan. rewrite Hscan. simpl.
  destruct (String.eqb_spec (type r) "pick") as [E|_]; [|reflexivity].
  now rewrite (Hpick E).
Qed.

Lemma scan_run_in_passing due events :
  Forall (in_passing due) events ->
  scan_run (mkCall Pending true (Some due)) events =
  mkCall Pending true (Some due).
Proof.
  induction 1 as [|ev events Hev _ IH]; [reflexivity|].
  unfold scan_run in *. simpl. now rewrite (scan_step_in_passing due ev Hev).
Qed.














End BridgeFacts.

(* ================================================================== *)
(** * More on the bridge: buffering, start, settling, stop *)
(* ================================================================== *)

Module BridgeBuffering.

Import Bridge.
Local Open Scope string_scope.
Local Set Warnings "-notation-for-abbreviation".

(** ** Splitting *)

Lemma split_newline_not_nil s : split_newline s <> [].
Proof.
  destruct s as [|c s]; simpl; [discriminate|].
  destruct (Ascii.eqb c "010"); [discriminate|].
  destruct (split_newline s); discriminate.
Qed.

(** A text without line feed is one piece. *)
Lemma split_newline_one_piece s :
  JSON.mentions "010" s = false -> split_newline s = [s].
Proof.
  induction s as [|c s IH]; simpl; [reflexivity|].
  intros H. apply orb_false_elim in H. destruct H as [Hc Hs].
  rewrite Hc, (IH Hs). reflexivity.
Qed.


(** Splitting a text in two parts: the pieces of the first part but the
    last, then the pieces of that last piece followed by the second part. *)
Lemma split_newline_append s t :
  split_newline (s ++ t) =
  (removelast (split_newline s)
     ++ split_newline (last (split_newline s) EmptyString ++ t))%list.
Proof.
  induction s as [|c s IH]; [reflexivity|].
  cbn [append split_newline].
  destruct (Ascii.eqb c "010") eqn:Ec.
  - rewrite IH.
    pose proof (split_newline_not_nil s) as Hs.
    destruct (split_newline s) as [|p ps]; [congruence|]. reflexivity.
  - rewrite IH.
    pose proof (split_newline_not_nil s) as Hs.
    destruct (split_newline s) as [|p ps]; [congruence|].
    destruct ps as [|q qs].
    + cbn [removelast last app]. cbn [append split_newline]. rewrite Ec.
      pose proof (split_newline_not_nil (p ++ t)) as Hpt.
      destruct (split_newline (p ++ t)); [congruence | reflexivity].
    + reflexivity.
Qed.

(** The last piece holds no line feed: neither does the buffer that
    [processBuffer] keeps. *)
Lemma last_piece_no_lf s :
  JSON.mentions "010" (last (split_newline s) EmptyString) = false.
Proof.
  induction s as [|c s IH]; [reflexivity|].
  cbn [split_newline].
  pose proof (split_newline_not_nil s) as Hs.
  destruct (Ascii.eqb c "010") eqn:Ec.
  - destruct (split_newline s) as [|p ps]; [congruence | exact IH].
  - destruct (split_newline s) as [|p ps]; [congruence|].
    destruct ps as [|q qs]; [|exact IH].
    cbn [last] in IH |- *. cbn [JSON.mentions]. now rewrite Ec, IH.
Qed.

Section Delivering.

Variable Response : Type.
Variable JSON_parse : string -> option Response.
Variable toString : string -> string.
Variable Listeners : Type.
Variable emit : Response -> Listeners -> Listeners * bool.

Local Notation processLines := (processLines Response JSON_parse Listeners emit).
Local Notation processBuffer :=
  (processBuffer Response JSON_parse Listeners emit).
Local Notation onData := (onData Response JSON_parse toString Listeners emit).
Local Notation onDataAll :=
  (onDataAll Response JSON_parse toString Listeners emit).
Local Notation mkReader := (mkReader Listeners).
Local Notation mkDelivery := (mkDelivery Response).
Local Notation emitted := (emitted Response).
Local Notation reported := (reported Response).

(** The loop over some lines and then some more is the loop over the
    first, then the loop over the others with the listeners as the first
    have left them. *)
Lemma processLines_app l1 l2 ls :
  processLines (l1 ++ l2) ls =
  (fst (processLines l2 (fst (processLines l1 ls))),
   mkDelivery
     (emitted (snd (processLines l1 ls))
        ++ emitted (snd (processLines l2 (fst (processLines l1 ls)))))
     (reported (snd (processLines l1 ls))
        ++ reported (snd (processLines l2 (fst (processLines l1 ls)))))).
Proof.
  revert ls. induction l1 as [|line l1 IH]; intros ls.
  - cbn. now destruct (processLines l2 ls) as [ls' [e r]].
  - cbn [app Bridge.processLines].
    destruct (trims_to_empty line); [apply IH|].
    destruct (JSON_parse line) as [response|].
    + destruct (emit response ls) as [ls1 threw]. rewrite IH.
      destruct (processLines l1 ls1) as [ls2 d1]. cbn [fst snd].
      destruct (processLines l2 ls2) as [ls3 d2]. cbn.
      now destruct threw.
    + rewrite IH.
      destruct (processLines l1 ls) as [ls2 d1]. cbn [fst snd].
      now destruct (processLines l2 ls2) as [ls3 d2].
Qed.

Lemma last_app_not_nil (l1 l2 : list string) d :
  l2 <> [] -> last (l1 ++ l2) d = last l2 d.
Proof.
  intros H. induction l1 as [|x l1 IH]; [reflexivity|].
  simpl. destruct (l1 ++ l2)%list eqn:E; [|exact IH].
  apply app_eq_nil in E. tauto.
Qed.

(** A text in the buffer and a text appended to it: processing the whole
    is processing the first, then processing what that has left in the
    buffer followed by the second. *)
Lemma processBuffer_append text more ls :
  processBuffer (mkReader (text ++ more) ls) =
  (let first := processBuffer (mkReader text ls) in
   let second :=
     processBuffer (mkReader (buffer Listeners (fst first) ++ more)
                             (listeners Listeners (fst first))) in
   (fst second,
    mkDelivery (emitted (snd first) ++ emitted (snd second))
               (reported (snd first) ++ reported (snd second)))).
Proof.
  unfold Bridge.processBuffer. cbn [buffer listeners].
  rewrite (split_newline_append text more).
  pose proof (split_newline_not_nil
                (last (split_newline text) EmptyString ++ more)) as Hn.
  rewrite (last_app_not_nil _ _ _ Hn).
  rewrite (removelast_app _ Hn), processLines_app.
  destruct (processLines (removelast (split_newline text)) ls) as [ls1 d1].
  cbn [fst snd buffer listeners].
  destruct (processLines
              (removelast
                 (split_newline
                    (last (split_newline text) EmptyString ++ more))) ls1)
    as [ls2 d2].
  reflexivity.
Qed.

(** A buffer without line feed is left as it is. *)
Lemma processBuffer_no_line text ls :
  JSON.mentions "010" text = false ->
  processBuffer (mkReader text ls) = (mkReader text ls, mkDelivery [] []).
Proof.
  intros H. unfold Bridge.processBuffer. cbn [buffer listeners].
  rewrite (split_newline_one_piece text H). reflexivity.
Qed.

(** [processBuffer] leaves no line feed in the buffer. *)
Lemma processBuffer_buffer this :
  JSON.mentions "010" (buffer Listeners (fst (processBuffer this))) = false.
Proof.
  unfold Bridge.processBuffer.
  destruct (processLines _ _) as [ls d]. cbn [fst buffer].
  apply last_piece_no_lf.
Qed.

Lemma concat_cons_text (chunk : string) chunks :
  String.concat EmptyString (chunk :: chunks) =
  chunk ++ String.concat EmptyString chunks.
Proof.
  destruct chunks; simpl; [now rewrite JSONFacts.append_nil_r|reflexivity].
Qed.

(** X1. However the output of the worker is cut into chunks, the bridge
    does with them what one call of [processBuffer] does with the texts of
    the chunks put together: it calls the listeners with the same
    responses in the same order, reports the same lines and keeps the same
    unfinished line.  The cut matters only through [data.toString()],
    which decodes each chunk on its own: when every chunk decodes to
    itself, the text is that of the whole output. *)
Theorem chunks_do_not_matter chunks ls :
  onDataAll (mkReader EmptyString ls) chunks =
    processBuffer
      (mkReader (String.concat EmptyString (map toString chunks)) ls) /\
  ((forall chunk, In chunk chunks -> toString chunk = chunk) ->
   onDataAll (mkReader EmptyString ls) chunks =
     processBuffer (mkReader (String.concat EmptyString chunks) ls)).
Proof.
  assert (Hany : forall text ls0,
            JSON.mentions "010" text = false ->
            onDataAll (mkReader text ls0) chunks =
            processBuffer
              (mkReader
                 (text ++ String.concat EmptyString (map toString chunks))
                 ls0)).
  { induction chunks as [|chunk chunks IH]; intros text ls0 Hb.
    - cbn [map String.concat Bridge.onDataAll].
      rewrite JSONFacts.append_nil_r. now rewrite processBuffer_no_line.
    - cbn [map]. rewrite concat_cons_text, <- JSONFacts.append_assoc.
      rewrite processBuffer_append. cbv zeta.
      cbn [Bridge.onDataAll]. unfold Bridge.onData at 1.
      cbn [buffer listeners].
      pose proof (processBuffer_buffer (mkReader (text ++ toString chunk) ls0))
        as Hb'.
      destruct (processBuffer (mkReader (text ++ toString chunk) ls0))
        as [[text' ls'] d].
      cbn [fst snd buffer listeners] in Hb' |- *.
      rewrite (IH text' ls' Hb').
      destruct (processBuffer
                  (mkReader
                     (text' ++ String.concat EmptyString (map toString chunks))
                     ls')) as [this'' d''].
      reflexivity. }
  assert (Hall : onDataAll (mkReader EmptyString ls) chunks =
                 processBuffer
                   (mkReader (String.concat EmptyString (map toString chunks))
                             ls))
    by (apply (Hany EmptyString ls); reflexivity).
  split; [exact Hall|].
  intros Hsame. rewrite Hall.
  replace (map toString chunks) with chunks; [reflexivity|].
  rewrite <- (map_id chunks) at 1. apply map_ext_in.
  intros chunk Hin. symmetry. now apply Hsame.
Qed.






End Delivering.


End BridgeBuffering.

Module BridgeSettling.

Import Bridge BridgeFacts.
Local Open Scope string_scope.
Local Open Scope N_scope.

(** ** [start] *)

Lemma start_step_before_ready due el thrown ev :
  before_ready due ev ->
  start_step (mkStartup (mkCall Pending true (Some due)) false el thrown) ev =
  mkStartup (mkCall Pending true (Some due)) false el thrown.
Proof.
  destruct ev as [t input]. intros (Ht & Hr & He). simpl in Ht, Hr, He.
  unfold start_step. cbn [starting timer fst snd].
  destruct (N.leb_spec due t) as [Hle|_]; [lia|].
  destruct input as [r| |m|]; cbn [starting listening].
  - unfold onReady. specialize (Hr r eq_refl).
    apply String.eqb_neq in Hr. now rewrite Hr.
  - reflexivity.
  - now specialize (He m).
  - reflexivity.
Qed.

Lemma start_run_before_ready due el thrown events :
  Forall (before_ready due) events ->
  start_run (mkStartup (mkCall Pending true (Some due)) false el thrown)
            events =
  mkStartup (mkCall Pending true (Some due)) false el thrown.
Proof.
  induction 1 as [|ev events Hev _ IH]; [reflexivity|].
  unfold start_run in *. simpl.
  now rewrite (start_step_before_ready due el thrown ev Hev).
Qed.

(** Once the promise of [start] is settled, nothing changes it. *)
Lemma start_step_settled s ev :
  promise (starting s) <> Pending ->
  promise (starting (start_step s ev)) = promise (starting s).
Proof.
  intros Hs. unfold start_step.
  set (s1 := match timer (starting s) with
             | Some due =>
                 if due <=? fst ev
                 then start_timeout
                        (mkStartup (clearTimeout (starting s)) (ready s)
                                   (error_listener s) (uncaught s))
                 else s
             | None => s
             end).
  assert (H1 : promise (starting s1) = promise (starting s)).
  { unfold s1. destruct (timer (starting s)) as [due|]; [|reflexivity].
    destruct (due <=? fst ev); [|reflexivity].
    unfold start_timeout. cbn [ready].
    destruct (negb (ready s)); [|reflexivity].
    cbn [starting]. now rewrite reject_settled. }
  assert (Hs1 : promise (starting s1) <> Pending) by congruence.
  rewrite <- H1. clearbody s1.
  destruct (snd ev) as [r| |m|]; try reflexivity.
  - destruct (listening (starting s1)); [|reflexivity].
    unfold onReady. destruct (String.eqb (type r) "ready"); [|reflexivity].
    cbn [starting]. now rewrite resolve_settled.
  - unfold onProcessError. destruct (error_listener s1); [|reflexivity].
    cbn [starting]. now rewrite reject_settled.
Qed.

Lemma start_run_settled events : forall s,
  promise (starting s) <> Pending ->
  promise (starting (start_run s events)) = promise (starting s).
Proof.
  induction events as [|ev events IH]; intros s Hs; [reflexivity|].
  unfold start_run in *. simpl. rewrite IH.
  - now apply start_step_settled.
  - rewrite start_step_settled; assumption.
Qed.

(** X3. A bridge that starts stays pending through whatever comes before
    the time-out of 5000 milliseconds, short of a ready response and of an
    error of the process; the first ready response before the time-out
    resolves the promise of [start], marks the bridge ready and removes the
    listener, and nothing that comes later unsettles the promise. *)
Theorem start_resolves_on_ready error_listener now events t r :
  Forall (before_ready (now + 5000)) events ->
  t < now + 5000 ->
  type r = "ready" ->
  let waiting := start_run (snd (start error_listener now)) events in
  let started := start_step waiting (t, StartEmit r) in
  promise (starting waiting) = Pending /\ isReady waiting = false /\
  promise (starting started) = Fulfilled tt /\
  isReady started = true /\
  listening (starting started) = false /\
  forall later,
    promise (starting (start_run started later)) = Fulfilled tt.
Proof.
  intros Hev Ht Hr waiting started.
  assert (Ew : waiting =
               mkStartup (mkCall Pending true (Some (now + 5000))) false
                         error_listener [])
    by (apply start_run_before_ready; exact Hev).
  assert (Es : started =
               mkStartup (mkCall (Fulfilled tt) false (Some (now + 5000)))
                         true error_listener []).
  { unfold started. rewrite Ew. unfold start_step.
    cbn [starting timer fst snd].
    destruct (N.leb_spec (now + 5000) t) as [Hle|_]; [lia|].
    cbn [starting listening]. unfold onReady. now rewrite Hr. }
  rewrite Ew, Es. repeat split.
  intros later. now rewrite start_run_settled.
Qed.

Lemma start_resolves_on_ready_witness :
  promise (starting
             (start_run (snd (start false 0))
                        [(100, StartEmit Samples.pick_done);
                         (200, ProcessClose);
                         (300, StartEmit Samples.ready_response);
                         (9000, StartIdle)])) = Fulfilled tt.
Proof.
  destruct (start_resolves_on_ready false 0
              [(100, StartEmit Samples.pick_done); (200, ProcessClose)]
              300 Samples.ready_response) as (_ & _ & _ & _ & _ & Hlater).
  - repeat constructor; simpl; try discriminate;
      intros r E; injection E as <-; discriminate.
  - reflexivity.
  - reflexivity.
  - exact (Hlater [(9000, StartIdle)]).
Defined.

(** X4. When neither a ready response nor an error of the process has
    come before the time-out of 5000 milliseconds, the promise of [start]
    is rejected with the time-out error as soon as the event loop runs at
    or after that time, and stays rejected whatever comes later; a ready
    response that comes late still marks the bridge ready, so that
    [isReady()] answers true for a bridge whose start has failed. *)
Theorem start_times_out error_listener now events t :
  Forall (before_ready (now + 5000)) events ->
  now + 5000 <= t ->
  let waiting := start_run (snd (start error_listener now)) events in
  (forall input later,
     promise (starting (start_run waiting ((t, input) :: later))) =
     Rejected "CLI did not become ready in time") /\
  (forall r, type r = "ready" ->
     let late := start_step waiting (t, StartEmit r) in
     promise (starting late) = Rejected "CLI did not become ready in time" /\
     isReady late = true).
Proof.
  intros Hev Ht waiting.
  assert (Ew : waiting =
               mkStartup (mkCall Pending true (Some (now + 5000))) false
                         error_listener [])
    by (apply start_run_before_ready; exact Hev).
  rewrite Ew. split.
  - intros input later. unfold start_run. simpl fold_left.
    fold (start_run
            (start_step
               (mkStartup (mkCall Pending true (Some (now + 5000))) false
                          error_listener []) (t, input)) later).
    assert (Hp : promise (starting
                   (start_step
                      (mkStartup (mkCall Pending true (Some (now + 5000)))
                                 false error_listener []) (t, input))) =
                 Rejected "CLI did not become ready in time").
    { unfold start_step. cbn [starting timer fst snd].
      destruct (N.leb_spec (now + 5000) t) as [_|Hlt]; [|lia].
      destruct input as [r| |m|]; cbn; try reflexivity.
      - unfold onReady. destruct (String.eqb (type r) "ready"); reflexivity.
      - unfold onProcessError. cbn. destruct error_listener; reflexivity. }
    rewrite start_run_settled; [exact Hp | rewrite Hp; discriminate].
  - intros r Hr late. unfold late, start_step. cbn [starting timer fst snd].
    destruct (N.leb_spec (now + 5000) t) as [_|Hlt]; [|lia].
    cbn. unfold onReady. rewrite Hr. split; reflexivity.
Qed.

Lemma start_times_out_witness :
  promise (starting
             (start_run (snd (start false 0))
                        [(4999, StartIdle);
                         (5000, StartEmit Samples.ready_response)])) =
    Rejected "CLI did not become ready in time" /\
  isReady (start_run (snd (start false 0))
                     [(4999, StartIdle);
                      (5000, StartEmit Samples.ready_response)]) = true.
Proof.
  assert (Hq : Forall (before_ready (0 + 5000)) [(4999, StartIdle)]).
  { repeat constructor; simpl; discriminate. }
  destruct (start_times_out false 0 [(4999, StartIdle)] 5000 Hq)
    as (Hany & Hlate).
  - vm_compute. discriminate.
  - split.
    + exact (Hany (StartEmit Samples.ready_response) []).
    + exact (proj2 (Hlate Samples.ready_response eq_refl)).
Defined.

(** X5. An error of the process while the bridge starts, spawn failure
    included: with a listener of the [error] event on the bridge, the
    promise of [start] is rejected with the error; without one, as when
    the listeners are registered only after [start] has resolved, the
    error is thrown out of the callback and the promise is left pending,
    to be rejected by the time-out only. *)
Theorem process_error_while_starting now events t message :
  Forall (before_ready (now + 5000)) events ->
  t < now + 5000 ->
  let heard :=
    start_step (start_run (snd (start true now)) events)
               (t, ProcessError message) in
  let unheard :=
    start_step (start_run (snd (start false now)) events)
               (t, ProcessError message) in
  promise (starting heard) = Rejected message /\ uncaught heard = [] /\
  promise (starting unheard) = Pending /\ uncaught unheard = [message] /\
  forall t' input later, now + 5000 <= t' ->
    promise (starting (start_run unheard ((t', input) :: later))) =
    Rejected "CLI did not become ready in time".
Proof.
  intros Hev Ht heard unheard.
  assert (Eh : heard =
               mkStartup (mkCall (Rejected message) true (Some (now + 5000)))
                         false true []).
  { unfold heard.
    change (snd (start true now))
      with (mkStartup (mkCall Pending true (Some (now + 5000))) false true []).
    rewrite (start_run_before_ready _ true [] events Hev).
    unfold start_step. cbn [starting timer fst snd].
    destruct (N.leb_spec (now + 5000) t) as [Hle|_]; [lia|]. reflexivity. }
  assert (Eu : unheard =
               mkStartup (mkCall Pending true (Some (now + 5000)))
                         false false [message]).
  { unfold unheard.
    change (snd (start false now))
      with (mkStartup (mkCall Pending true (Some (now + 5000))) false false []).
    rewrite (start_run_before_ready _ false [] events Hev).
    unfold start_step. cbn [starting timer fst snd].
    destruct (N.leb_spec (now + 5000) t) as [Hle|_]; [lia|]. reflexivity. }
  rewrite Eh, Eu. repeat split.
  intros t' input later Ht'. unfold start_run. simpl fold_left.
  fold (start_run
          (start_step
             (mkStartup (mkCall Pending true (Some (now + 5000))) false
                        false [message]) (t', input)) later).
  assert (Hp : promise (starting
                 (start_step
                    (mkStartup (mkCall Pending true (Some (now + 5000)))
                               false false [message]) (t', input))) =
               Rejected "CLI did not become ready in time").
  { unfold start_step. cbn [starting timer fst snd].
    destruct (N.leb_spec (now + 5000) t') as [_|Hlt]; [|lia].
    destruct input as [r| |m|]; cbn; try reflexivity.
    unfold onReady. destruct (String.eqb (type r) "ready"); reflexivity. }
  rewrite start_run_settled; [exact Hp | rewrite Hp; discriminate].
Qed.

Lemma process_error_while_starting_witness :
  promise (starting
             (start_step (start_run (snd (start false 0)) [])
                         (10, ProcessError "spawn ENOENT"))) = Pending /\
  uncaught (start_step (start_run (snd (start false 0)) [])
                       (10, ProcessError "spawn ENOENT")) =
    ["spawn ENOENT"].
Proof.
  destruct (process_error_while_starting 0 [] 10 "spawn ENOENT"
              (Forall_nil _) eq_refl) as (_ & _ & Hp & Hu & _).
  split; [exact Hp | exact Hu].
Defined.

(** ** [pick] and [scan] *)

(** X6. On a bridge whose worker process runs, the first pick response
    that comes before the time-out settles the call of [pick]: it is
    fulfilled with the window of the response when the response is a
    success that carries data, and rejected otherwise, with the error of
    the response or, when that is absent or empty, with Pick failed (a
    success without data included).  The handler is then removed and the
    timer cleared, and nothing that comes later changes the call. *)
Theorem pick_settles_on_first_pick_response this written now events t r :
  stdin this = Some written ->
  Forall no_pick_response events ->
  Forall (fun ev => fst ev < now + 60000) events ->
  t < now + 60000 ->
  type r = "pick" ->
  let call := snd (pick this now) in
  forall later,
    pick_run call (events ++ (t, Emit r) :: later) =
    mkCall (pick_outcome r) false None.
Proof.
  intros Hs Hn He Ht Hr call later.
  assert (Ec : call = mkCall Pending true (Some (now + 60000)))
    by (apply (pick_started this written now Hs)).
  unfold pick_run. rewrite fold_left_app. fold (pick_run call events).
  rewrite Ec.
  rewrite (proj1 (pick_run_without_pick (now + 60000) events Hn) He).
  simpl fold_left.
  assert (Estep : pick_step (mkCall Pending true (Some (now + 60000)))
                            (t, Emit r) =
                  mkCall (pick_outcome r) false None).
  { unfold pick_step, step, run_timers. cbn [timer fst snd].
    destruct (N.leb_spec (now + 60000) t) as [Hle|_]; [lia|].
    unfold emit, pick_handler, pick_outcome. cbn [listening]. rewrite Hr.
    cbn. destruct (success r), (data r); reflexivity. }
  rewrite Estep. now apply run_deaf.
Qed.

Lemma pick_settles_on_first_pick_response_witness :
  pick_run (snd (pick Samples.started_bridge 0))
           ([(100, Emit Samples.ready_response)]
              ++ (200, Emit Samples.pick_done)
                   :: [(300, Emit Samples.pick_cancelled)]) =
  mkCall (Fulfilled (pick_result Samples.window_data)) false None.
Proof.
  apply (pick_settles_on_first_pick_response Samples.started_bridge [] 0
           [(100, Emit Samples.ready_response)] 200 Samples.pick_done
           eq_refl).
  - repeat constructor. intros r E. simpl in E. injection E as <-.
    discriminate.
  - repeat constructor.
  - reflexivity.
  - reflexivity.
Defined.

(** X7. On a bridge whose worker process runs, a call of [scan] that has
    seen only successful pick responses and responses of other types is
    settled by the first scan response that comes before the time-out,
    fulfilled when the response is a success that carries data and
    rejected otherwise with the error of the response or, when that is
    absent or empty, with Scan failed; nothing that comes later changes
    the call. *)
Theorem scan_settles_on_first_scan_response
    this written now options events t r :
  stdin this = Some written ->
  Forall (in_passing (now + 30000)) events ->
  t < now + 30000 ->
  type r = "scan" ->
  let call := snd (scan this now options) in
  forall later,
    scan_run call (events ++ (t, Emit r) :: later) =
    mkCall (scan_outcome r) false None.
Proof.
  intros Hs He Ht Hr call later.
  assert (Ec : call = mkCall Pending true (Some (now + 30000)))
    by (apply (scan_started this written now options Hs)).
  unfold scan_run. rewrite fold_left_app. fold (scan_run call events).
  rewrite Ec, (scan_run_in_passing (now + 30000) events He).
  simpl fold_left.
  assert (Estep : scan_step (mkCall Pending true (Some (now + 30000)))
                            (t, Emit r) =
                  mkCall (scan_outcome r) false None).
  { unfold scan_step, step, run_timers. cbn [timer fst snd].
    destruct (N.leb_spec (now + 30000) t) as [Hle|_]; [lia|].
    unfold emit, scan_handler, scan_outcome. cbn [listening]. rewrite Hr.
    cbn. destruct (success r), (data r); reflexivity. }
  rewrite Estep. now apply run_deaf.
Qed.

Lemma scan_settles_on_first_scan_response_witness :
  scan_run (snd (scan Samples.started_bridge 0 no_options))
           ([(10, Emit Samples.pick_done)]
              ++ (20, Emit (mkCLIResponse "scan" true None None))
                   :: [(30, Emit Samples.scan_done)]) =
  mkCall (Rejected "Scan failed") false None.
Proof.
  apply (scan_settles_on_first_scan_response Samples.started_bridge [] 0
           no_options [(10, Emit Samples.pick_done)] 20
           (mkCLIResponse "scan" true None None) eq_refl).
  - apply Forall_cons; [|apply Forall_nil].
    split; [reflexivity|]. simpl. intros r E. injection E as <-.
    split; [discriminate|auto].
  - reflexivity.
  - reflexivity.
Defined.

(** X8. On a bridge whose worker process runs, a call of [scan] that has
    seen only successful pick responses and responses of other types, so
    that the worker may still be waiting for the user to pick a window, is
    rejected with the time-out error as soon as the event loop runs at or
    after 30 000 milliseconds from the call; the scan response that comes
    later is not observed. *)
Theorem scan_times_out this written now options events t input later :
  stdin this = Some written ->
  Forall (in_passing (now + 30000)) events ->
  now + 30000 <= t ->
  let call := snd (scan this now options) in
  promise (scan_run call events) = Pending /\
  scan_run call (events ++ (t, input) :: later) =
  mkCall (Rejected "OCR scan timed out") false None.
Proof.
  intros Hs He Ht call.
  assert (Ec : call = mkCall Pending true (Some (now + 30000)))
    by (apply (scan_started this written now options Hs)).
  rewrite Ec, (scan_run_in_passing (now + 30000) events He).
  split; [reflexivity|].
  unfold scan_run. rewrite fold_left_app.
  fold (scan_run (mkCall Pending true (Some (now + 30000))) events).
  rewrite (scan_run_in_passing (now + 30000) events He). simpl fold_left.
  assert (Estep : scan_step (mkCall Pending true (Some (now + 30000)))
                            (t, input) =
                  mkCall (Rejected "OCR scan timed out") false None).
  { unfold scan_step, step, run_timers. cbn [timer fst snd].
    destruct (N.leb_spec (now + 30000) t) as [_|Hlt]; [|lia].
    destruct input; reflexivity. }
  rewrite Estep. now apply run_deaf.
Qed.

Lemma scan_times_out_witness :
  scan_run (snd (scan Samples.started_bridge 0 no_options))
           ([(10, Emit Samples.pick_done)]
              ++ (30000, Idle) :: [(30500, Emit Samples.scan_done)]) =
  mkCall (Rejected "OCR scan timed out") false None.
Proof.
  apply (scan_times_out Samples.started_bridge [] 0 no_options
           [(10, Emit Samples.pick_done)] 30000 Idle
           [(30500, Emit Samples.scan_done)] eq_refl).
  - apply Forall_cons; [|apply Forall_nil].
    split; [reflexivity|]. simpl. intros r E. injection E as <-.
    split; [discriminate|auto].
  - vm_compute. discriminate.
Defined.

End BridgeSettling.

(* ================================================================== *)
(** * More on the worker: the target, the responses, the window list *)
(* ================================================================== *)

Module WorkerInvariants.

Import Worker WorkerFacts.
Local Open Scope string_scope.

(** ** The target *)

Lemma handleCommand_target self command :
  currentFilter (fst (handleCommand self command)) = currentFilter self /\
  currentWindowID (fst (handleCommand self command)) = currentWindowID self.
Proof.
  unfold handleCommand.
  destruct (String.eqb (action command) "pick"); [simpl; auto|].
  destruct (String.eqb (action command) "scan").
  - simpl. destruct (currentFilter self) eqn:E; simpl; rewrite ?E; auto.
  - destruct (String.eqb (action command) "quit"); simpl; auto.
Qed.

(** X9. The target of the worker is replaced by a successful pick and by
    nothing else: a cancelled pick, a pick that fails to start, a command,
    an unreadable line and the end of the input all leave the filter and
    the window handle as they were, so that a target once acquired is never
    lost. *)
Theorem target_changes_on_successful_pick_only world self ev :
  (forall filter, ev = PickerDidUpdate filter ->
     currentFilter (fst (react world self ev)) = Some filter /\
     currentWindowID (fst (react world self ev)) =
       findWindowID world (contentRect filter)) /\
  ((forall filter, ev <> PickerDidUpdate filter) ->
     currentFilter (fst (react world self ev)) = currentFilter self /\
     currentWindowID (fst (react world self ev)) = currentWindowID self) /\
  (currentFilter self <> None ->
     currentFilter (fst (react world self ev)) <> None).
Proof.
  assert (Hreact : fst (react world self ev) = fst (dispatch world self ev)).
  { unfold react. now destruct (dispatch world self ev) as [s [p t]]. }
  rewrite Hreact.
  assert (Hupdate : forall filter,
            currentFilter
              (fst (contentSharingPicker_didUpdateWith world self filter)) =
              Some filter /\
            currentWindowID
              (fst (contentSharingPicker_didUpdateWith world self filter)) =
              findWindowID world (contentRect filter)).
  { intros filter. unfold contentSharingPicker_didUpdateWith, executeScan.
    simpl. destruct (pendingCommand self); simpl; auto. }
  assert (Hother : (forall filter, ev <> PickerDidUpdate filter) ->
            currentFilter (fst (dispatch world self ev)) = currentFilter self /\
            currentWindowID (fst (dispatch world self ev)) =
              currentWindowID self).
  { intros Hne. destruct ev as [line| | |d|filter]; cbn [dispatch].
    - destruct (String.eqb line EmptyString); [simpl; auto|].
      destruct (decodeCommand line);
        [apply handleCommand_target | simpl; auto].
    - simpl; auto.
    - simpl; auto.
    - simpl; auto.
    - now specialize (Hne filter). }
  split; [|split].
  - intros filter ->. apply Hupdate.
  - exact Hother.
  - intros Hsome. destruct ev as [line| | |d|filter];
      try (rewrite (proj1 (Hother ltac:(discriminate))); exact Hsome).
    cbn [dispatch]. rewrite (proj1 (Hupdate filter)). discriminate.
Qed.

(** ** What is printed *)

(** A property of responses that every response of [sendError] and
    [sendSuccess] in the worker has is had by all that a run prints. *)
Section Printed.

Variable good : Response -> Prop.

Hypothesis good_task : forall world self t r,
  In r (printed (runScanTask world self t)) -> good r.
Hypothesis good_dispatch : forall world self ev r,
  In r (printed (fst (snd (dispatch world self ev)))) -> good r.

Lemma good_react world self ev r :
  In r (printed (snd (react world self ev))) -> good r.
Proof.
  unfold react. pose proof (good_dispatch world self ev r) as Hd.
  destruct (dispatch world self ev) as [self' [out tasks]].
  cbn [fst snd] in *. rewrite printed_app, in_app_iff.
  intros [H|H]; [auto|].
  induction tasks as [|t tasks IH]; [contradiction|].
  cbn [flat_map] in H. rewrite printed_app, in_app_iff in H.
  destruct H as [H|H]; [exact (good_task world self' t r H) | auto].
Qed.

Lemma good_run events : forall self r,
  In r (printed (snd (run self events))) -> good r.
Proof.
  induction events as [|[world ev] events IH]; intros self r; simpl.
  - contradiction.
  - pose proof (good_react world self ev r) as Hr.
    destruct (react world self ev) as [self' effects]. cbn [snd] in Hr.
    destruct (existsb isTerminate effects); [exact Hr|].
    specialize (IH self' r).
    destruct (run self' events) as [self'' effects']. cbn [snd] in *.
    rewrite printed_app, in_app_iff. tauto.
Qed.

End Printed.

Lemma printed_task_cases world self t r :
  In r (printed (runScanTask world self t)) ->
  (exists d, r = mkResponse "scan" false None (Some ("Failed: " ++ d))) \/
  (exists d, r = mkResponse "scan" false None (Some ("OCR failed: " ++ d))) \/
  (exists d bounds, r = mkResponse "scan" true
                          (Some (ocr (mkOCRData (image_width d)
                                        (image_height d) (fst bounds)
                                        (Some (snd bounds))))) None).
Proof.
  unfold runScanTask.
  destruct (captureImage world (task_filter t) _) as [d|image].
  - intros [<-|[]]. left. now exists d.
  - unfold performOCR.
    destruct (performRequest world image _) as [d|[results|]].
    + intros [<-|[]]. right. left. now exists d.
    + intros [<-|[]]. right. right. exists image. eexists (_, _).
      reflexivity.
    + intros [<-|[]]. right. right. exists image. eexists (_, _).
      reflexivity.
Qed.

Lemma executeScan_cases self command :
  currentFilter self <> None ->
  fst (executeScan self command) = [].
Proof.
  unfold executeScan. destruct (currentFilter self); [reflexivity|congruence].
Qed.

Lemma printed_dispatch_cases world self ev r :
  In r (printed (fst (snd (dispatch world self ev)))) ->
  (exists m, r = mkResponse "error" false None (Some m) /\
             (m = "Invalid JSON command" \/
              exists a, m = "Unknown action: " ++ a)) \/
  (exists m, r = mkResponse "pick" false None (Some m) /\
             (m = "User cancelled window selection" \/
              exists d, m = "Picker failed to start: " ++ d)) \/
  (exists d bounds, r = mkResponse "pick" true
                          (Some (windowSelected
                                   (mkWindowSelectedData d None None
                                      (Some bounds)))) None).
Proof.
  destruct ev as [line| | |d|filter]; cbn [dispatch].
  - destruct (String.eqb line EmptyString); [contradiction|].
    destruct (decodeCommand line) as [command|].
    + unfold handleCommand.
      destruct (String.eqb (action command) "pick"); [contradiction|].
      destruct (String.eqb (action command) "scan").
      * cbn [currentFilter set_pendingCommand].
        destruct (currentFilter self) as [f|] eqn:E; [|contradiction].
        cbn [fst snd]. rewrite executeScan_cases; [contradiction|].
        cbn [currentFilter set_pendingCommand]. congruence.
      * destruct (String.eqb (action command) "quit"); [contradiction|].
        intros [<-|[]]. left. eexists. split; [reflexivity|].
        right. now exists (action command).
    + intros [<-|[]]. left. eexists. split; [reflexivity|]. now left.
  - contradiction.
  - intros [<-|[]]. right. left. eexists. split; [reflexivity|]. now left.
  - intros [<-|[]]. right. left. eexists. split; [reflexivity|].
    right. now exists d.
  - unfold contentSharingPicker_didUpdateWith.
    cbn [pendingCommand currentFilter currentWindowID].
    destruct (pendingCommand self) as [pending|].
    + unfold executeScan. cbn [currentFilter fst snd app sendSuccess
                                sendResponse printed].
      intros [<-|[]]. right. right. now do 2 eexists.
    + cbn [fst snd]. intros [<-|[]]. right. right. now do 2 eexists.
Qed.

(** X10. The worker never prints the error No window selected: wherever
    [executeScan] is called, a target has been set, so that the guard of
    [executeScan] never fails, whatever the events and whatever the state
    the worker starts from. *)
Theorem no_window_selected_is_never_printed self events r :
  In r (printed (snd (run self events))) ->
  error r <> Some "No window selected".
Proof.
  apply (good_run (fun r => error r <> Some "No window selected")).
  - intros world s t r' H.
    destruct (printed_task_cases world s t r' H)
      as [(d & ->)|[(d & ->)|(d & b & ->)]]; discriminate.
  - intros world s ev r' H.
    destruct (printed_dispatch_cases world s ev r' H)
      as [(m & -> & [->|(a & ->)])
         |[(m & -> & [->|(d & ->)])|(d & b & ->)]]; discriminate.
Qed.

Lemma no_window_selected_is_never_printed_witness :
  error (mkResponse "scan" false None (Some "Failed: not permitted")) <>
  Some "No window selected".
Proof.
  apply (no_window_selected_is_never_printed Samples.aimed_worker
           [(Samples.blind_world, StdinLine Samples.scan_line)]).
  vm_compute. left. reflexivity.
Defined.

(** X11. The first line the worker prints is the ready message, with the
    version 1.0.0, and it is the only response of type ready; every
    response after it is of type pick, scan or error, and carries the data
    of its type when it is a success, with the bounds of the window
    present on every pick and every scan success, and no data when it is a
    failure. *)
Theorem ready_first_and_data_by_type events :
  exists rest,
    printed (snd (main events)) =
      mkResponse "ready" true (Some (ready (mkReadyData "1.0.0"))) None
        :: rest /\
    Forall (fun r => data_fits_type r = true /\
                     (type r = "pick" \/ type r = "scan" \/ type r = "error"))
           rest.
Proof.
  unfold main. simpl.
  destruct (run (mkAppDelegate None None None) events) as [self effects] eqn:E.
  simpl. exists (printed effects). split; [reflexivity|].
  apply Forall_forall. intros r Hr.
  assert (Hin : In r (printed (snd (run (mkAppDelegate None None None)
                                        events))))
    by (rewrite E; exact Hr).
  revert Hin.
  apply (good_run (fun r => data_fits_type r = true /\
                     (type r = "pick" \/ type r = "scan" \/ type r = "error"))).
  - intros world s t r' H.
    destruct (printed_task_cases world s t r' H)
      as [(d & ->)|[(d & ->)|(d & b & ->)]]; cbn; auto.
  - intros world s ev r' H.
    destruct (printed_dispatch_cases world s ev r' H)
      as [(m & -> & _)|[(m & -> & _)|(d & b & ->)]]; cbn; auto.
Qed.

(** ** The window list *)

Lemma within_spec a b : within a b = true <-> (Rabs (a - b) < 2)%R.
Proof.
  unfold within, tolerance. destruct (Rlt_dec (Rabs (a - b)) 2); split;
    auto; discriminate.
Qed.

(** One turn of the loop of [findWindowID]. *)
Lemma findWindowID_loop_cons rect windowInfo rest :
  (exists windowID, window_matches rect windowInfo windowID /\
     findWindowID_loop (windowInfo :: rest) rect = Some windowID) \/
  ((forall windowID, ~ window_matches rect windowInfo windowID) /\
   findWindowID_loop (windowInfo :: rest) rect = findWindowID_loop rest rect).
Proof.
  cbn [findWindowID_loop].
  destruct (kCGWindowBounds windowInfo) as [[[x|] [y|] [w|] [h|]]|] eqn:Eb;
    cbn [castBounds dict_X dict_Y dict_Width dict_Height];
    try (right; split; [|reflexivity];
         intros id (x' & y' & w' & h' & E & _); congruence).
  destruct (kCGWindowNumber windowInfo) as [windowID|] eqn:En;
    [|right; split; [|reflexivity];
      intros id (x' & y' & w' & h' & _ & E & _); congruence].
  destruct (within x (origin_x rect) && within y (origin_y rect)
            && within w (size_width rect) && within h (size_height rect))
    eqn:Ew.
  - left. exists windowID. split; [|reflexivity].
    apply andb_prop in Ew. destruct Ew as [Ew Hh].
    apply andb_prop in Ew. destruct Ew as [Ew Hw].
    apply andb_prop in Ew. destruct Ew as [Hx Hy].
    exists x, y, w, h. rewrite <- !within_spec. auto 10.
  - right. split; [|reflexivity].
    intros id (x' & y' & w' & h' & E & _ & Hx & Hy & Hw & Hh).
    rewrite Eb in E. injection E as <- <- <- <-.
    rewrite <- within_spec in Hx, Hy, Hw, Hh.
    rewrite Hx, Hy, Hw, Hh in Ew. discriminate.
Qed.

Lemma findWindowID_loop_first rect windowList windowID :
  findWindowID_loop windowList rect = Some windowID <->
  exists before windowInfo after,
    windowList = (before ++ windowInfo :: after)%list /\
    window_matches rect windowInfo windowID /\
    forall other otherID, In other before ->
      ~ window_matches rect other otherID.
Proof.
  induction windowList as [|info rest IH].
  - split; [discriminate|].
    intros (before & i & after & E & _). now destruct before.
  - destruct (findWindowID_loop_cons rect info rest)
      as [(id & Hm & E)|[Hno E]]; rewrite E.
    + split.
      * intros H. injection H as <-. exists [], info, rest.
        split; [reflexivity|]. split; [exact Hm|]. intros ? ? [].
      * intros (before & i & after & El & Hi & Hbefore).
        destruct before as [|b before].
        -- injection El as <- _.
           destruct Hm as (x & y & w & h & _ & N1 & _).
           destruct Hi as (x' & y' & w' & h' & _ & N2 & _). congruence.
        -- injection El as <- _. exfalso.
           apply (Hbefore info id); [now left | exact Hm].
    + rewrite IH. split.
      * intros (before & i & after & -> & Hi & Hbefore).
        exists (info :: before), i, after. split; [reflexivity|].
        split; [exact Hi|]. intros other otherID [<-|Hin]; [apply Hno|].
        now apply Hbefore.
      * intros (before & i & after & El & Hi & Hbefore).
        destruct before as [|b before].
        -- injection El as <- _. exfalso. exact (Hno _ Hi).
        -- injection El as _ ->. exists before, i, after.
           split; [reflexivity|]. split; [exact Hi|].
           intros other otherID Hin. apply Hbefore. now right.
Qed.

(** X12. [findWindowID] answers the number of the first window of the
    on-screen list whose bounds and number are all there and whose
    position and size are each less than 2 points away from those of the
    rectangle; it answers nothing exactly when the list cannot be had or
    holds no such window.  Windows that lack a bound or their number are
    passed over. *)
Theorem findWindowID_is_first_match world rect :
  (forall windowID,
     findWindowID world rect = Some windowID <->
     exists before windowInfo after,
       onScreenWindows world = Some (before ++ windowInfo :: after)%list /\
       window_matches rect windowInfo windowID /\
       forall other otherID, In other before ->
         ~ window_matches rect other otherID) /\
  (findWindowID world rect = None <->
   onScreenWindows world = None \/
   exists windowList,
     onScreenWindows world = Some windowList /\
     forall windowInfo windowID, In windowInfo windowList ->
       ~ window_matches rect windowInfo windowID).
Proof.
  unfold findWindowID. split.
  - intros windowID. destruct (onScreenWindows world) as [windowList|].
    + rewrite findWindowID_loop_first. split.
      * intros (b & i & a & -> & H). now exists b, i, a.
      * intros (b & i & a & E & H). injection E as ->. now exists b, i, a.
    + split; [discriminate|]. intros (b & i & a & E & _). discriminate.
  - destruct (onScreenWindows world) as [windowList|]; [|tauto].
    split.
    + intros Hnone. right. exists windowList. split; [reflexivity|].
      intros info id Hin Hm.
      assert (Hsome : exists id', findWindowID_loop windowList rect = Some id').
      { clear Hnone. induction windowList as [|i rest IH]; [contradiction|].
        destruct (findWindowID_loop_cons rect i rest)
          as [(id' & _ & E)|[Hno E]]; [now exists id'|].
        rewrite E. destruct Hin as [<-|Hin]; [now apply Hno in Hm|].
        now apply IH. }
      destruct Hsome as [id' E]. congruence.
    + intros [E|(l & E & Hno)]; [discriminate|]. injection E as <-.
      destruct (findWindowID_loop windowList rect) as [id|] eqn:Ef;
        [|reflexivity].
      apply findWindowID_loop_first in Ef.
      destruct Ef as (b & i & a & -> & Hm & _).
      exfalso. apply (Hno i id); [|exact Hm].
      apply in_or_app. right. now left.
Qed.

End WorkerInvariants.

(* ================================================================== *)
(** * More on the pipe: a session of commands, and [stop] *)
(* ================================================================== *)

Module SessionFacts.

Import JSON JSONFacts CodecFacts.
Local Open Scope string_scope.

(** A line that does not end in a carriage return, with its line feed and
    what follows it. *)
Lemma readLine_one_line (first final : ascii) body rest :
  mentions "010" (String first (body ++ String final EmptyString)) = false ->
  Ascii.eqb final "013" = false ->
  Worker.readLine
    (String first (body ++ String final EmptyString) ++ String "010" rest) =
  Some (String first (body ++ String final EmptyString), rest).
Proof.
  intros Hlf Hcr. unfold Worker.readLine.
  rewrite (takeLine_one_line _ rest Hlf). cbn [append].
  change (String first (body ++ String final EmptyString))
    with (String first body ++ String final EmptyString).
  now rewrite dropLastCR_closed.
Qed.

Lemma readLine_wireLine_then members rest :
  number_free (Object members) = true ->
  Worker.readLine (Bridge.wireLine (Object members) ++ rest) =
  Some (stringify (Object members), rest).
Proof.
  intros Hnf. unfold Bridge.wireLine. rewrite append_assoc.
  pose proof (stringify_no_lf _ Hnf) as Hlf.
  change (stringify (Object members))
    with (String "{"
            (join "," (map (fun kv => quote (fst kv) ++ ":"
                                        ++ stringify (snd kv)) members)
               ++ String "}" EmptyString)) in Hlf |- *.
  change (String "010" EmptyString ++ rest) with (String "010" rest).
  now apply readLine_one_line.
Qed.

Lemma concat_cons (x : string) xs :
  String.concat EmptyString (x :: xs) = x ++ String.concat EmptyString xs.
Proof.
  destruct xs; simpl; [now rewrite append_nil_r | reflexivity].
Qed.

Lemma readStdin_loop_session objects : forall fuel,
  Forall (fun o => exists members,
            o = Object members /\ number_free o = true) objects ->
  List.length objects <= fuel ->
  Worker.readStdin_loop fuel
    (String.concat EmptyString (map Bridge.wireLine objects)) =
  (map (fun o => Worker.StdinLine (stringify o)) objects
     ++ [Worker.StdinClosed])%list.
Proof.
  induction objects as [|o objects IH]; intros fuel Hall Hfuel.
  - destruct fuel; reflexivity.
  - destruct fuel as [|fuel]; [simpl in Hfuel; lia|].
    inversion Hall as [|? ? (members & -> & Hnf) Hrest]; subst.
    cbn [map]. rewrite concat_cons. cbn [Worker.readStdin_loop].
    rewrite (readLine_wireLine_then members _ Hnf).
    rewrite IH by (assumption || simpl in Hfuel; lia). reflexivity.
Qed.

Lemma session_length objects :
  List.length objects <=
  String.length (String.concat EmptyString (map Bridge.wireLine objects)).
Proof.
  induction objects as [|o objects IH]; [simpl; lia|].
  cbn [map]. rewrite concat_cons, length_append.
  unfold Bridge.wireLine at 1. rewrite length_append. simpl. lia.
Qed.

(** X13. A session of commands is read as written: when the bridge has
    written the lines of some commands one after the other and the input
    ends, the worker reads exactly one line for each command, in order,
    each line decoding to its command, and then the end of the input. *)
Theorem session_is_read_as_written (commands : list Worker.Command) :
  let objects :=
    map (fun c => Bridge.commandObject (Worker.action c)
                    (Bridge.mkScanOptions (Worker.saveTo c)
                                          (Worker.languages c)))
        commands in
  let input := String.concat EmptyString (map Bridge.wireLine objects) in
  Worker.readStdin input =
    (map (fun o => Worker.StdinLine (stringify o)) objects
       ++ [Worker.StdinClosed])%list /\
  map (fun o => Worker.decodeCommand (stringify o)) objects =
    map Some commands.
Proof.
  intros objects input. split.
  - unfold Worker.readStdin. apply readStdin_loop_session.
    + unfold objects. apply Forall_forall. intros o Hin.
      apply in_map_iff in Hin. destruct Hin as (c & <- & _).
      destruct (commandObject_keys (Worker.action c)
                  (Bridge.mkScanOptions (Worker.saveTo c)
                                        (Worker.languages c)))
        as (ms & E & _).
      exists ms. split; [exact E|]. apply number_free_commandObject.
    + pose proof (session_length objects). fold input in H. lia.
  - unfold objects. rewrite map_map. apply map_ext. intros c.
    unfold Worker.decodeCommand.
    rewrite (parse_stringify _ (number_free_commandObject _ _)).
    apply Command_init_from_commandObject.
Qed.

(** ** [quit] and [stop] *)

(** X14. Stopping a bridge whose worker process runs writes the quit
    command as the last line to the worker and forgets the process; the
    worker that reads this line terminates and prints nothing; after the
    stop, [pick] and [scan] are rejected at once with CLI not started,
    [quit] throws, and stopping again does nothing. *)
Theorem stop_quits_the_worker this written world self now options :
  Bridge.stdin this = Some written ->
  let quit_line :=
    Bridge.wireLine (Bridge.commandObject "quit" Bridge.no_options) in
  let stopped := fst (Bridge.stop this) in
  snd (Bridge.stop this) = Some (written ++ [quit_line])%list /\
  Bridge.stdin stopped = None /\
  (exists line,
     Worker.readLine quit_line = Some (line, EmptyString) /\
     Worker.react world self (Worker.StdinLine line) =
       (self, [Worker.Terminate])) /\
  Bridge.promise (snd (Bridge.pick stopped now)) =
    Bridge.Rejected "CLI not started" /\
  Bridge.promise (snd (Bridge.scan stopped now options)) =
    Bridge.Rejected "CLI not started" /\
  Bridge.quit stopped = None /\
  Bridge.stop stopped = (stopped, None).
Proof.
  intros Hs quit_line stopped.
  assert (Estop : Bridge.stop this =
                  (Bridge.mkOCRBridge None,
                   Some (written ++ [quit_line])%list)).
  { unfold Bridge.stop, Bridge.quit, Bridge.sendCommand. rewrite Hs.
    reflexivity. }
  unfold stopped. rewrite Estop. cbn [fst snd].
  split; [reflexivity|]. split; [reflexivity|].
  split; [|repeat split].
  exists (stringify (Bridge.commandObject "quit" Bridge.no_options)).
  split; reflexivity.
Qed.

Lemma stop_quits_the_worker_witness :
  snd (Bridge.stop Samples.started_bridge) =
    Some [Bridge.wireLine (Bridge.commandObject "quit" Bridge.no_options)] /\
  Bridge.promise
    (snd (Bridge.pick (fst (Bridge.stop Samples.started_bridge)) 0)) =
    Bridge.Rejected "CLI not started".
Proof.
  destruct (stop_quits_the_worker Samples.started_bridge []
              Samples.blind_world Samples.fresh_worker 0 Bridge.no_options
              eq_refl) as (Hsent & _ & _ & Hpick & _).
  split; [exact Hsent | exact Hpick].
Defined.

End SessionFacts.

(* ================================================================== *)
(** * More on the overlay: re-rendering, placement, fitting, indicators *)
(* ================================================================== *)

Module OverlayLayout.

Import Overlay OverlayFacts.
Local Open Scope R_scope.

Section Rendering.

Variable scrollWidth : Span -> R.
Variables W H : R.

Lemma renderLoop_flat_map obss :
  renderLoop scrollWidth W H obss [] =
  flat_map (fun obs => match renderObservation scrollWidth W H obs with
                       | Some span => [span]
                       | None => []
                       end) obss.
Proof.
  induction obss as [|obs obss IH]; [reflexivity|].
  cbn [renderLoop flat_map].
  destruct (renderObservation scrollWidth W H obs) as [span|].
  - rewrite renderLoop_app, IH. reflexivity.
  - exact IH.
Qed.

(** X15. Rendering replaces what the container held: after
    [renderOCRResults] the container holds the spans of the observations
    that are kept, in the order of the observations, and nothing else, so
    that it never holds more spans than there are observations, and
    rendering the same data again, over whatever was rendered before, gives
    the same elements. *)
Theorem rendering_replaces_the_container data p :
  let rendered := renderOCRResults scrollWidth W H data p in
  container rendered =
    flat_map (fun obs => match renderObservation scrollWidth W H obs with
                         | Some span => [span]
                         | None => []
                         end) (observations data) /\
  (List.length (container rendered) <= List.length (observations data))%nat /\
  forall data',
    container (renderOCRResults scrollWidth W H data
                 (renderOCRResults scrollWidth W H data' p)) =
    container rendered.
Proof.
  intros rendered.
  assert (Hc : forall q,
            container (renderOCRResults scrollWidth W H data q) =
            flat_map (fun obs =>
                        match renderObservation scrollWidth W H obs with
                        | Some span => [span]
                        | None => []
                        end) (observations data)).
  { intros q. unfold renderOCRResults. cbn [container clearOverlay].
    apply renderLoop_flat_map. }
  split; [apply Hc|]. split.
  - unfold rendered. rewrite Hc. clear Hc.
    induction (observations data) as [|obs obss IH]; [simpl; lia|].
    cbn [flat_map]. rewrite length_app.
    destruct (renderObservation scrollWidth W H obs); simpl in *; lia.
  - intros data'. unfold rendered. now rewrite !Hc.
Qed.

(** X16. A span lies where the box of its observation lies, turned upside
    down: its bottom edge is as far above the bottom of the overlay as the
    box is above the bottom of the image, less the pixel of padding; and
    when the box lies within the unit square, the span lies within the
    overlay enlarged by one pixel on every side. *)
Theorem span_lies_within_the_overlay obs sp :
  renderObservation scrollWidth W H obs = Some sp ->
  0 <= W -> 0 <= H ->
  let bb := boundingBox obs in
  exists left top width height,
    style_left sp = Some left /\ style_top sp = Some top /\
    style_width sp = Some width /\ style_height sp = Some height /\
    H - (top + height) = box_y bb * H - 1 /\
    (0 <= box_x bb -> 0 <= box_y bb ->
     box_x bb + box_width bb <= 1 -> box_y bb + box_height bb <= 1 ->
     -1 <= left /\ left + width <= W + 1 /\
     -1 <= top /\ top + height <= H + 1).
Proof.
  intros E HW HH bb.
  apply renderObservation_Some in E. cbv zeta in E.
  destruct E as (_ & _ & _ & _ & El & Et & Ew & Eh & _).
  fold bb in El, Et, Ew, Eh.
  do 4 eexists. split; [exact El|]. split; [exact Et|].
  split; [exact Ew|]. split; [exact Eh|].
  split; [ring|].
  intros Hx Hy Hxw Hyh.
  assert (0 <= box_x bb * W) by (apply Rmult_le_pos; assumption).
  assert (0 <= box_y bb * H) by (apply Rmult_le_pos; assumption).
  assert ((box_x bb + box_width bb) * W <= 1 * W)
    by (apply Rmult_le_compat_r; assumption).
  assert (0 <= (1 - box_y bb - box_height bb) * H)
    by (apply Rmult_le_pos; lra).
  repeat split; lra.
Qed.

End Rendering.

Lemma span_lies_within_the_overlay_witness :
  exists sp left top width height,
    renderObservation Samples.wide_text 100 100 Samples.sample_line =
      Some sp /\
    style_left sp = Some left /\ style_top sp = Some top /\
    style_width sp = Some width /\ style_height sp = Some height /\
    -1 <= left /\ left + width <= 100 + 1 /\
    -1 <= top /\ top + height <= 100 + 1.
Proof.
  destruct sample_line_rendered as [sp E].
  destruct (span_lies_within_the_overlay Samples.wide_text 100 100
              Samples.sample_line sp E)
    as (left & top & width & height & El & Et & Ew & Eh & _ & Hin);
    [lra | lra |].
  exists sp, left, top, width, height.
  split; [exact E|]. split; [exact El|]. split; [exact Et|].
  split; [exact Ew|]. split; [exact Eh|].
  apply Hin; simpl; lra.
Defined.

(** A span is the span of its own font size. *)
Lemma set_fontSize_own sp size :
  style_fontSize sp = Some size -> set_fontSize size sp = sp.
Proof. destruct sp. simpl. now intros ->. Qed.

(** X17. When the width the browser measures for a span grows in
    proportion to its font size, the text of a rendered observation fits
    the width of its span, unless its font size is at the floor of 8
    pixels: either the text fitted at the start size, or the shrink makes
    it exactly as wide as the span, or the floor has stopped the shrink. *)
Theorem proportional_text_fits scrollWidth W H obs sp ratio :
  renderObservation scrollWidth W H obs = Some sp ->
  0 < ratio ->
  (forall size, scrollWidth (set_fontSize size sp) = ratio * size) ->
  exists size width,
    style_fontSize sp = Some size /\ style_width sp = Some width /\
    (scrollWidth sp <= width \/ size = MIN_FONT_SIZE).
Proof.
  intros E Hratio Hlinear.
  apply (renderObservation_Some scrollWidth W H) in E. cbv zeta in E.
  destruct E as (Hw & Hh & _ & _ & _ & _ & Ew & Eh & _ & _ & Ef).
  set (width := box_width (boundingBox obs) * W + 2) in *.
  set (height := box_height (boundingBox obs) * H + 2) in *.
  rewrite (Hlinear height) in Ef.
  eexists. exists width. split; [exact Ef|]. split; [exact Ew|].
  rewrite <- (set_fontSize_own sp _ Ef) at 1. rewrite Hlinear.
  destruct (Rle_dec (ratio * height) width) as [Hle|Hgt].
  - left. exact Hle.
  - unfold MIN_FONT_SIZE, Rmax.
    destruct (Rle_dec (height * (width / (ratio * height))) 8).
    + now right.
    + left. apply Req_le. field. subst height. lra.
Qed.

Lemma proportional_text_fits_witness :
  exists sp size width,
    renderObservation Samples.proportional_text 100 100 Samples.sample_line =
      Some sp /\
    style_fontSize sp = Some size /\ style_width sp = Some width /\
    (Samples.proportional_text sp <= width \/ size = MIN_FONT_SIZE).
Proof.
  destruct (proj1 (proj1 (renderObservation_geometry
                            Samples.proportional_text 100 100
                            Samples.sample_line)))
    as [sp E]; [simpl; lra|].
  destruct (proportional_text_fits Samples.proportional_text 100 100
              Samples.sample_line sp 3 E)
    as (size & width & Ef & Ew & Hfit); [lra | reflexivity |].
  now exists sp, size, width.
Defined.

(** ** The loading indicator and the error message *)

Lemma run_hide_timers_one_at_most now i :
  one_at_most i -> one_at_most (run_hide_timers now i).
Proof.
  unfold run_hide_timers, one_at_most.
  destruct (existsb _ (hide_due i)); simpl; tauto.
Qed.

Lemma run_hide_timers_loading now i :
  loading_hidden (run_hide_timers now i) = loading_hidden i.
Proof. unfold run_hide_timers. now destruct (existsb _ (hide_due i)). Qed.

Lemma receive_one_at_most scrollWidth W H now m d :
  one_at_most (indicators (receive scrollWidth W H now m d)).
Proof.
  unfold one_at_most.
  destruct m as [data|[|]|message]; simpl; auto.
Qed.

Lemma receive_all_app scrollWidth W H ms ms' d :
  receive_all scrollWidth W H (ms ++ ms') d =
  receive_all scrollWidth W H ms' (receive_all scrollWidth W H ms d).
Proof. unfold receive_all. apply fold_left_app. Qed.

(** X18. The loading indicator and the error message are never visible
    together: whatever the page was, after a message the two are not both
    shown, and a page on which they are not both shown stays so through
    any series of messages and timers.  The loading indicator is visible
    after a series exactly when the last message of it turns loading on. *)
Theorem indicators_are_never_both_visible scrollWidth W H messages d :
  (messages <> [] ->
   one_at_most (indicators (receive_all scrollWidth W H messages d))) /\
  (one_at_most (indicators d) ->
   one_at_most (indicators (receive_all scrollWidth W H messages d))) /\
  (forall now m,
     loading_hidden
       (indicators (receive_all scrollWidth W H (messages ++ [(now, m)]) d)) =
     match m with
     | ocr_loading true => false
     | _ => true
     end).
Proof.
  split; [|split].
  - intros Hne.
    destruct (exists_last Hne) as (ms & [now m] & ->).
    rewrite receive_all_app. apply receive_one_at_most.
  - revert d. induction messages as [|[now m] ms IH]; intros d Hd;
      [exact Hd|].
    apply IH. apply receive_one_at_most.
  - intros now m. rewrite receive_all_app.
    destruct m as [data|[|]|message]; reflexivity.
Qed.

Lemma existsb_filter_negb {A} (f : A -> bool) l :
  existsb f (filter (fun a => negb (f a)) l) = false.
Proof.
  induction l as [|a l IH]; [reflexivity|].
  simpl. destruct (f a) eqn:E; simpl; [exact IH|].
  now rewrite E, IH.
Qed.

(** X19. An error message is hidden again five seconds after it was
    shown, at the latest: with no timer of an earlier error pending it
    stays visible, with its text, until then; but the timer of an earlier
    error that is still pending hides it when that timer is due, before
    its own five seconds are over. *)
Theorem error_message_is_hidden_within_five_seconds now message i :
  let shown := showError now message i in
  (error_hidden shown = false /\ error_text shown = message /\
   loading_hidden shown = true) /\
  (forall later, (now + 5000 <= later)%N ->
     error_hidden (run_hide_timers later shown) = true) /\
  (hide_due i = [] ->
   forall later, (later < now + 5000)%N ->
     error_hidden (run_hide_timers later shown) = false /\
     error_text (run_hide_timers later shown) = message) /\
  (forall due later, In due (hide_due i) -> (due <= later)%N ->
     error_hidden (run_hide_timers later shown) = true).
Proof.
  intros shown.
  assert (Hdue : forall later due,
            In due (hide_due shown) -> (due <= later)%N ->
            error_hidden (run_hide_timers later shown) = true).
  { intros later due Hin Hle. unfold run_hide_timers.
    replace (existsb (fun due0 => (due0 <=? later)%N) (hide_due shown))
      with true; [reflexivity|].
    symmetry. apply existsb_exists. exists due. split; [exact Hin|].
    now apply N.leb_le. }
  split; [now repeat split|]. split; [|split].
  - intros later Hle. apply (Hdue later (now + 5000)%N); [|exact Hle].
    unfold shown, showError. cbn [hide_due]. apply in_or_app. right.
    now left.
  - intros Hnone later Hlt. unfold shown, showError, run_hide_timers.
    cbn [hide_due]. rewrite Hnone. cbn [app existsb].
    replace (now + 5000 <=? later)%N with false; [now split|].
    symmetry. apply N.leb_gt. exact Hlt.
  - intros due later Hin Hle. apply (Hdue later due); [|exact Hle].
    unfold shown, showError. cbn [hide_due]. apply in_or_app. now left.
Qed.

End OverlayLayout.

(* ================================================================== *)
(** * The window manager and the shortcuts *)
(* ================================================================== *)

Module WindowFacts.

Import Window Main.
Local Open Scope string_scope.

(** [Math.round] is off by half a pixel at most. *)
Lemma Math_round_near x :
  (-1 / 2 < IZR (Math_round x) - x <= 1 / 2)%R.
Proof.
  unfold Math_round.
  destruct (base_Int_part (x + 1 / 2)) as [Hle Hgt]. lra.
Qed.

(** X20. With a window to place, [positionOverlay] keeps the bounds as
    they are given and sets the window to them rounded: each of the four
    numbers of the rectangle is within half a pixel of the one given, so
    that the right and the bottom edge of the window are within one pixel
    of those of the bounds; nothing else about the window changes. *)
Theorem overlay_is_placed_within_half_a_pixel bounds this w :
  live this = Some w ->
  exists w' r,
    live (positionOverlay bounds this) = Some w' /\
    getBounds w' = Some r /\
    currentBounds (positionOverlay bounds this) = Some bounds /\
    isVisible w' = isVisible w /\ sent w' = sent w /\
    (Rabs (IZR (rect_x r) - Bridge.wb_x bounds) <= 1 / 2 /\
     Rabs (IZR (rect_y r) - Bridge.wb_y bounds) <= 1 / 2 /\
     Rabs (IZR (rect_width r) - Bridge.wb_width bounds) <= 1 / 2 /\
     Rabs (IZR (rect_height r) - Bridge.wb_height bounds) <= 1 / 2 /\
     Rabs (IZR (rect_x r + rect_width r)
           - (Bridge.wb_x bounds + Bridge.wb_width bounds)) <= 1 /\
     Rabs (IZR (rect_y r + rect_height r)
           - (Bridge.wb_y bounds + Bridge.wb_height bounds)) <= 1)%R.
Proof.
  intros Hlive. unfold positionOverlay. rewrite Hlive.
  assert (Hd : isDestroyed w = false).
  { unfold live in Hlive. destruct (overlayWindow this) as [w0|];
      [|discriminate].
    destruct (isDestroyed w0) eqn:E; [discriminate|]. now injection Hlive as <-. }
  do 2 eexists. unfold live. cbn [overlayWindow isDestroyed]. rewrite Hd.
  split; [reflexivity|]. cbn [getBounds currentBounds isVisible sent].
  split; [reflexivity|]. split; [reflexivity|]. split; [reflexivity|].
  split; [reflexivity|].
  cbn [rect_x rect_y rect_width rect_height]. rewrite !plus_IZR.
  pose proof (Math_round_near (Bridge.wb_x bounds)).
  pose proof (Math_round_near (Bridge.wb_y bounds)).
  pose proof (Math_round_near (Bridge.wb_width bounds)).
  pose proof (Math_round_near (Bridge.wb_height bounds)).
  repeat split; apply Rabs_le; lra.
Qed.

Lemma overlay_is_placed_within_half_a_pixel_witness :
  exists w' r,
    live (positionOverlay (Bridge.mkWindowBounds 100 100 400 300)
            (createOverlay new)) = Some w' /\
    getBounds w' = Some r /\
    (Rabs (IZR (rect_x r + rect_width r) - (100 + 400)) <= 1)%R.
Proof.
  destruct (overlay_is_placed_within_half_a_pixel
              (Bridge.mkWindowBounds 100 100 400 300) (createOverlay new)
              (mkBrowserWindow false false None []))
    as (w' & r & Hl & Hb & _ & _ & _ & _ & _ & _ & _ & Hr & _);
    [reflexivity|].
  now exists w', r.
Defined.

Lemma live_not_destroyed this w : live this = Some w -> isDestroyed w = false.
Proof.
  unfold live. destruct (overlayWindow this) as [w0|]; [|discriminate].
  destruct (isDestroyed w0) eqn:E; [discriminate|]. now intros [= <-].
Qed.

Lemma live_overlayWindow this w :
  live this = Some w -> overlayWindow this = Some w.
Proof.
  unfold live. destruct (overlayWindow this) as [w0|]; [|discriminate].
  destruct (isDestroyed w0); [discriminate|]. now intros [= <-].
Qed.

(** X21. Toggling the overlay twice gives back the manager as it was,
    window or no window; with a window, one toggle turns its visibility
    over and touches nothing else, and the hiding shortcut leaves it
    hidden whatever it was. *)
Theorem toggle_twice_changes_nothing this :
  toggleOverlay (toggleOverlay this) = this /\
  (forall w, live this = Some w ->
     live (toggleOverlay this) =
       Some (mkBrowserWindow false (negb (isVisible w)) (getBounds w)
                             (sent w)) /\
     live (hideOverlay this) =
       Some (mkBrowserWindow false false (getBounds w) (sent w)) /\
     currentBounds (toggleOverlay this) = currentBounds this).
Proof.
  destruct this as [[[d v b s]|] cb]; [|split; [reflexivity|discriminate]].
  destruct d.
  - split; [reflexivity|discriminate].
  - split.
    + destruct v; reflexivity.
    + intros w [= <-]. destruct v; repeat split.
Qed.

(** X22. Without a window, or with one that is destroyed, every method of
    the manager but [createOverlay] leaves the manager as it is: nothing is
    placed, shown or sent, and the bounds given to [positionOverlay] are
    not kept.  [createOverlay] then makes a window that is hidden and has
    been sent nothing, and on a manager that has a window it does
    nothing. *)
Theorem without_a_window_nothing_happens this :
  (live this = None ->
   (forall bounds, positionOverlay bounds this = this) /\
   showOverlay this = this /\ hideOverlay this = this /\
   toggleOverlay this = this /\
   (forall data, updateOCRResults data this = this) /\
   (forall isLoading, setLoadingState isLoading this = this) /\
   (forall message, showError message this = this) /\
   destroy this = this /\
   live (createOverlay this) = Some (mkBrowserWindow false false None []) /\
   currentBounds (createOverlay this) = currentBounds this) /\
  (live this <> None -> createOverlay this = this) /\
  live (destroy this) = None.
Proof.
  split; [|split].
  - intros Hnone.
    unfold positionOverlay, showOverlay, hideOverlay, toggleOverlay,
      updateOCRResults, setLoadingState, showError, send, set_visible,
      destroy, createOverlay.
    rewrite Hnone. repeat split.
  - unfold createOverlay. destruct (live this); [reflexivity|congruence].
  - unfold destroy. destruct (live this) eqn:E; [reflexivity|exact E].
Qed.

(** ** The main process *)

(** What the handlers do to the window, by cases. *)
Lemma handle_cases this ev w :
  live this = Some w ->
  exists v b s,
    live (handle this ev) = Some (mkBrowserWindow false v b (sent w ++ s)) /\
    (s = [] \/ (exists data, s = [ocr_results data]) \/
     exists message, s = [ocr_error message]).
Proof.
  intros Hlive.
  pose proof (live_not_destroyed this w Hlive) as Hd.
  pose proof (live_overlayWindow this w Hlive) as Ho.
  destruct this as [ow cb]. cbn in Ho. subst ow.
  destruct w as [d v b s]. cbn in Hd. subst d.
  assert (Hsame : exists v' b' s',
            Some (mkBrowserWindow false v b s) =
              Some (mkBrowserWindow false v' b' (s ++ s')) /\
            (s' = [] \/ (exists data, s' = [ocr_results data]) \/
             exists message, s' = [ocr_error message])).
  { exists v, b, []. rewrite app_nil_r. auto. }
  destruct ev as [[|result|m]|[|info|m]| | |code|m]; cbn.
  - exact Hsame.
  - destruct (Bridge.bounds result); cbn;
      do 2 eexists; exists [ocr_results result]; split; eauto.
  - destruct (includes m "cancelled"); cbn; [exact Hsame|].
    do 2 eexists. exists [ocr_error m]. split; eauto.
  - exact Hsame.
  - destruct (Bridge.sel_bounds info); cbn; [|exact Hsame].
    do 2 eexists. exists []. rewrite app_nil_r. split; eauto.
  - destruct (includes m "cancelled"); cbn; [exact Hsame|].
    do 2 eexists. exists [ocr_error m]. split; eauto.
  - destruct v; cbn; do 2 eexists; exists []; rewrite app_nil_r;
      split; eauto.
  - do 2 eexists. exists []. rewrite app_nil_r. split; eauto.
  - destruct code as [[| |]|]; cbn; [exact Hsame| | |];
      do 2 eexists; eexists [ocr_error _]; split; eauto.
  - do 2 eexists. eexists [ocr_error _]. split; eauto.
Qed.

Lemma run_snoc events ev :
  run (events ++ [ev]) = handle (run events) ev.
Proof. unfold run. now rewrite fold_left_app. Qed.

(** X23. No handler of the main process destroys the overlay window or
    turns the loading indicator on: from the end of [init] on, whatever
    the calls settle with, whatever shortcuts are pressed and however the
    worker ends, the manager holds the window it has created, and all that
    has been sent to the page of that window is results and errors, never
    a loading state. *)
Theorem overlay_lives_and_is_never_told_to_load events :
  exists w,
    live (run events) = Some w /\
    sent_to_page (run events) = sent w /\
    Forall (fun m => (exists data, m = ocr_results data) \/
                     (exists message, m = ocr_error message))
           (sent w).
Proof.
  induction events as [|ev events IH] using rev_ind.
  - exists (mkBrowserWindow false false None []).
    split; [reflexivity|]. split; [reflexivity|]. constructor.
  - destruct IH as (w & Hlive & _ & Hsent). rewrite run_snoc.
    destruct (handle_cases (run events) ev w Hlive)
      as (v & b & s & Hlive' & Hs).
    eexists. split; [exact Hlive'|]. split.
    + unfold sent_to_page.
      now rewrite (live_overlayWindow _ _ Hlive').
    + cbn [sent]. apply Forall_app. split; [exact Hsent|].
      destruct Hs as [->|[(data & ->)|(message & ->)]].
      * constructor.
      * constructor; [left; now exists data | constructor].
      * constructor; [right; now exists message | constructor].
Qed.

(** X24. A selection the user cancels is passed over in silence.  The
    worker answers the cancelled picker with a failed pick response; when
    the bridge receives a response with that type, success and error, a
    call of [scan] and a call of [pick] that are pending both reject with
    its message, and the handlers of the two shortcuts then leave the
    window manager exactly as it is: the overlay is not shown and no error
    is sent to it. *)
Theorem cancelled_selection_is_silent self wr r
    (scanning : Bridge.Call Bridge.OCRData)
    (picking : Bridge.Call Bridge.WindowSelectedData) windowManager :
  In (Worker.Print wr)
     (fst (snd (Worker.contentSharingPicker_didCancelFor self))) ->
  Bridge.type r = Worker.type wr ->
  Bridge.success r = Worker.success wr ->
  Bridge.error r = Worker.error wr ->
  Bridge.promise scanning = Bridge.Pending ->
  Bridge.promise picking = Bridge.Pending ->
  Bridge.promise (Bridge.scan_handler r scanning) =
    Bridge.Rejected "User cancelled window selection" /\
  Bridge.promise (Bridge.pick_handler r picking) =
    Bridge.Rejected "User cancelled window selection" /\
  scan_shortcut (Bridge.promise (Bridge.scan_handler r scanning))
    windowManager = windowManager /\
  pick_shortcut (Bridge.promise (Bridge.pick_handler r picking))
    windowManager = windowManager.
Proof.
  intros Hin Ht Hs He Hscan Hpick.
  destruct Hin as [[= <-]|[]]. cbn in Ht, Hs, He.
  assert (H1 : Bridge.promise (Bridge.scan_handler r scanning) =
               Bridge.Rejected "User cancelled window selection").
  { unfold Bridge.scan_handler. rewrite Ht, Hs, He. cbn.
    unfold Bridge.reject. cbn. now rewrite Hscan. }
  assert (H2 : Bridge.promise (Bridge.pick_handler r picking) =
               Bridge.Rejected "User cancelled window selection").
  { unfold Bridge.pick_handler. rewrite Ht, Hs, He. cbn.
    unfold Bridge.reject. cbn. now rewrite Hpick. }
  rewrite H1, H2. repeat split.
Qed.

Lemma cancelled_selection_is_silent_witness :
  scan_shortcut
    (Bridge.promise
       (Bridge.scan_handler Samples.pick_cancelled
          (Bridge.mkCall Bridge.Pending true (Some 30000%N))))
    (createOverlay new) = createOverlay new.
Proof.
  apply (cancelled_selection_is_silent Samples.fresh_worker
           (Worker.mkResponse "pick" false None
              (Some "User cancelled window selection"))
           Samples.pick_cancelled
           (Bridge.mkCall Bridge.Pending true (Some 30000%N))
           (Bridge.mkCall Bridge.Pending true (Some 60000%N))
           (createOverlay new));
    try reflexivity.
  left. reflexivity.
Defined.

(** X25. A scan that succeeds reaches the overlay: when a pending call of
    [scan] receives a successful scan response with data and the manager
    has a window, the handler of the shortcut sends the result to the page
    as the last message and leaves the window visible; the window is put
    at the rounded bounds of the response when it carries bounds, and
    stays where it is when it carries none. *)
Theorem scan_result_reaches_the_overlay r d
    (scanning : Bridge.Call Bridge.OCRData) windowManager w :
  Bridge.promise scanning = Bridge.Pending ->
  Bridge.type r = "scan" -> Bridge.success r = true ->
  Bridge.data r = Some d ->
  live windowManager = Some w ->
  let after :=
    scan_shortcut (Bridge.promise (Bridge.scan_handler r scanning))
                  windowManager in
  exists w',
    live after = Some w' /\ isVisible w' = true /\
    sent w' = (sent w ++ [ocr_results (Bridge.scan_result d)])%list /\
    (forall bounds, Bridge.data_bounds d = Some bounds ->
       getBounds w' =
         Some (mkRectangle (Math_round (Bridge.wb_x bounds))
                           (Math_round (Bridge.wb_y bounds))
                           (Math_round (Bridge.wb_width bounds))
                           (Math_round (Bridge.wb_height bounds))) /\
       currentBounds after = Some bounds) /\
    (Bridge.data_bounds d = None ->
       getBounds w' = getBounds w /\
       currentBounds after = currentBounds windowManager).
Proof.
  intros Hp Ht Hs Hd Hlive after.
  assert (E : Bridge.promise (Bridge.scan_handler r scanning) =
              Bridge.Fulfilled (Bridge.scan_result d)).
  { unfold Bridge.scan_handler. rewrite Ht, Hs, Hd. cbn.
    unfold Bridge.resolve. cbn. now rewrite Hp. }
  unfold after. rewrite E. clear E after.
  pose proof (live_not_destroyed _ _ Hlive) as Hdes.
  pose proof (live_overlayWindow _ _ Hlive) as Ho.
  destruct windowManager as [ow cb]. cbn in Ho. subst ow.
  destruct w as [ds v b s]. cbn in Hdes. subst ds.
  unfold scan_shortcut. cbn [Bridge.bounds Bridge.scan_result].
  destruct (Bridge.data_bounds d) as [bounds|]; cbn.
  - eexists. split; [reflexivity|]. cbn.
    split; [reflexivity|]. split; [reflexivity|]. split.
    + now intros bounds' [= <-].
    + discriminate.
  - eexists. split; [reflexivity|]. cbn.
    split; [reflexivity|]. split; [reflexivity|]. split.
    + discriminate.
    + now split.
Qed.

Lemma scan_result_reaches_the_overlay_witness :
  exists w',
    live (scan_shortcut
            (Bridge.promise
               (Bridge.scan_handler Samples.scan_done
                  (Bridge.mkCall Bridge.Pending true (Some 30000%N))))
            (createOverlay new)) = Some w' /\
    isVisible w' = true /\
    sent w' = [ocr_results (Bridge.scan_result Samples.scan_data)].
Proof.
  destruct (scan_result_reaches_the_overlay Samples.scan_done
              Samples.scan_data
              (Bridge.mkCall Bridge.Pending true (Some 30000%N))
              (createOverlay new) (mkBrowserWindow false false None []))
    as (w' & Hl & Hv & Hs & _); try reflexivity.
  now exists w'.
Defined.

(** X26. A call that times out is reported on the overlay, but only the
    scan shortcut brings the overlay up for it: with a window, a pending
    call of [scan] whose timer fires makes the handler show the window and
    send it the message of the time-out, while a pending call of [pick]
    whose timer fires makes the handler send the message and leave the
    window hidden if it was hidden. *)
Theorem time_outs_are_reported windowManager w
    (scanning : Bridge.Call Bridge.OCRData)
    (picking : Bridge.Call Bridge.WindowSelectedData) :
  live windowManager = Some w ->
  Bridge.promise scanning = Bridge.Pending ->
  Bridge.promise picking = Bridge.Pending ->
  live (scan_shortcut (Bridge.promise (Bridge.scan_timeout scanning))
                      windowManager) =
    Some (mkBrowserWindow false true (getBounds w)
            (sent w ++ [ocr_error "OCR scan timed out"])) /\
  live (pick_shortcut (Bridge.promise (Bridge.pick_timeout picking))
                      windowManager) =
    Some (mkBrowserWindow false (isVisible w) (getBounds w)
            (sent w ++ [ocr_error "Window selection timed out"])).
Proof.
  intros Hlive Hs Hp.
  unfold Bridge.scan_timeout, Bridge.pick_timeout, Bridge.reject.
  cbn [Bridge.promise Bridge.removeListener]. rewrite Hs, Hp.
  cbn [Bridge.promise].
  pose proof (live_not_destroyed _ _ Hlive) as Hdes.
  pose proof (live_overlayWindow _ _ Hlive) as Ho.
  destruct windowManager as [ow cb]. cbn in Ho. subst ow.
  destruct w as [ds v b s]. cbn in Hdes. subst ds.
  split; reflexivity.
Qed.

Lemma time_outs_are_reported_witness :
  live (scan_shortcut
          (Bridge.promise
             (Bridge.scan_timeout
                (Bridge.mkCall Bridge.Pending true (Some 30000%N))))
          (createOverlay new)) =
    Some (mkBrowserWindow false true None [ocr_error "OCR scan timed out"]).
Proof.
  apply (time_outs_are_reported (createOverlay new)
           (mkBrowserWindow false false None [])
           (Bridge.mkCall Bridge.Pending true (Some 30000%N))
           (Bridge.mkCall Bridge.Pending true (Some 60000%N)));
    reflexivity.
Defined.

End WindowFacts.
